(** * arm.ripper.makemkv: the robot-mode line decoder, the message
    classifier, the stream runner, the track aggregator and the
    info-query throttle, embedded in Rocq.

    Python strings are embedded as [string], a character standing for the
    code point of its number (0 to 255), Python [int] as [Z],
    exceptions as values of [exn] carried by [result], calls to loggers and
    to the database as lists of calls next to the result.  Generators are
    taken as read to their end by the consumer. *)

From Stdlib Require Import String Ascii List ZArith Lia Bool DecimalString.
Import ListNotations.

#[local] Open Scope list_scope.
#[local] Open Scope string_scope.
#[local] Open Scope Z_scope.

(** ** Exceptions *)

Inductive exn : Type :=
| MakeMkvParserError                 (* class MakeMkvParserError(ValueError) *)
| MakeMkvRuntimeError (returncode : Z) (cmd : list string) (output : string)
| TypeError
| ValueError
| IndexError
| KeyError
| AssertionError.

Inductive result (A : Type) : Type :=
| Ok (a : A)
| Raise (e : exn).
Arguments Ok {A} a.
Arguments Raise {A} e.

Definition bind {A B : Type} (r : result A) (k : A -> result B) : result B :=
  match r with
  | Ok a => k a
  | Raise e => Raise e
  end.

Notation "x <- r ;; k" := (bind r (fun x => k))
  (at level 61, r at next level, right associativity).

(** ** Python string primitives *)

Module Py.

(** Characters for which [str.isspace] holds: tab to carriage return, the
    four separators 0x1c to 0x1f, the space, and above ASCII the next-line
    character 0x85 and the no-break space 0xa0. *)
Definition is_space (c : ascii) : bool :=
  let n := nat_of_ascii c in
  ((9 <=? n) && (n <=? 13) || (28 <=? n) && (n <=? 32)
   || (n =? 133) || (n =? 160))%nat.

(** The white space [int()] skips around a number: that of C (tab to
    carriage return and the space) and the white space above ASCII, which it
    turns into spaces first; not the separators 0x1c to 0x1f. *)
Definition is_int_space (c : ascii) : bool :=
  let n := nat_of_ascii c in
  ((9 <=? n) && (n <=? 13) || (n =? 32) || (n =? 133) || (n =? 160))%nat.

Fixpoint mem_char (c : ascii) (chars : string) : bool :=
  match chars with
  | EmptyString => false
  | String d rest => Ascii.eqb c d || mem_char c rest
  end.

Fixpoint lstrip_by (p : ascii -> bool) (s : string) : string :=
  match s with
  | EmptyString => EmptyString
  | String c rest => if p c then lstrip_by p rest else s
  end.

Fixpoint rstrip_by (p : ascii -> bool) (s : string) : string :=
  match s with
  | EmptyString => EmptyString
  | String c rest =>
      match rstrip_by p rest with
      | EmptyString => if p c then EmptyString else String c EmptyString
      | r => String c r
      end
  end.

(** [s.strip(chars)], [s.rstrip(chars)] and [s.strip()]. *)
Definition strip (chars : string) (s : string) : string :=
  rstrip_by (fun c => mem_char c chars) (lstrip_by (fun c => mem_char c chars) s).

Definition rstrip (chars : string) (s : string) : string :=
  rstrip_by (fun c => mem_char c chars) s.

Definition strip_ws (s : string) : string :=
  rstrip_by is_space (lstrip_by is_space s).

(** [s.split(sep, maxsplit)] for a non-empty [sep]: a left-to-right scan for
    non-overlapping occurrences of [sep]; a negative [maxsplit] is no limit.
    [skip] counts the characters of a matched separator still to be dropped,
    [cur] is the piece being collected. *)
Fixpoint split_go (sep : string) (maxsplit : Z) (skip : nat) (cur : string)
         (s : string) : list string :=
  match s with
  | EmptyString => [cur]
  | String c rest =>
      match skip with
      | S m => split_go sep maxsplit m cur rest
      | O =>
          if negb (maxsplit =? 0) && prefix sep s
          then cur :: split_go sep (maxsplit - 1) (Nat.pred (String.length sep)) EmptyString rest
          else split_go sep maxsplit O (cur ++ String c EmptyString) rest
      end
  end.

Definition split (sep : string) (maxsplit : Z) (s : string) : list string :=
  split_go sep maxsplit O EmptyString s.

(** [s.split()]: pieces between runs of whitespace, empty pieces dropped. *)
Fixpoint split_ws_go (cur : string) (s : string) : list string :=
  match s with
  | EmptyString => match cur with EmptyString => [] | _ => [cur] end
  | String c rest =>
      if is_space c
      then match cur with
           | EmptyString => split_ws_go EmptyString rest
           | _ => cur :: split_ws_go EmptyString rest
           end
      else split_ws_go (cur ++ String c EmptyString) rest
  end.

Definition split_ws (s : string) : list string := split_ws_go EmptyString s.

(** [sub in s]. *)
Fixpoint contains (sub : string) (s : string) : bool :=
  prefix sub s ||
  match s with
  | EmptyString => false
  | String _ rest => contains sub rest
  end.

(** [sep.join(pieces)]. *)
Fixpoint join (sep : string) (pieces : list string) : string :=
  match pieces with
  | [] => EmptyString
  | [p] => p
  | p :: rest => p ++ sep ++ join sep rest
  end.

(** [int(s)] on a string, base 10: surrounding whitespace is dropped, one
    sign is allowed, then decimal digits, single underscores allowed between
    digits; a number of more than [int_max_str_digits] digits (leading zeros
    counted, underscores not) is refused.  [None] stands for the
    ValueError. *)
Definition digit (c : ascii) : option Z :=
  let n := nat_of_ascii c in
  if ((48 <=? n) && (n <=? 57))%nat then Some (Z.of_nat n - 48) else None.

Fixpoint int_digits (acc : Z) (after_digit : bool) (s : string) : option Z :=
  match s with
  | EmptyString => if after_digit then Some acc else None
  | String c rest =>
      match digit c with
      | Some d => int_digits (10 * acc + d) true rest
      | None =>
          if Ascii.eqb c "_" && after_digit
          then int_digits acc false rest
          else None
      end
  end.

(** [sys.int_info.default_max_str_digits], the limit in force when nothing
    sets another one. *)
Definition int_max_str_digits : Z := 4300.

Fixpoint count_digits (s : string) : Z :=
  match s with
  | EmptyString => 0
  | String c rest =>
      match digit c with
      | Some _ => 1 + count_digits rest
      | None => count_digits rest
      end
  end.

Definition int (s : string) : option Z :=
  let t := rstrip_by is_int_space (lstrip_by is_int_space s) in
  if int_max_str_digits <? count_digits t then None
  else
    match t with
    | String "+" rest => int_digits 0 false rest
    | String "-" rest => option_map Z.opp (int_digits 0 false rest)
    | _ => int_digits 0 false t
    end.

End Py.

(** [int(x)] as the dataclasses call it: a failure is a ValueError. *)
Definition to_int (s : string) : result Z :=
  match Py.int s with
  | Some z => Ok z
  | None => Raise ValueError
  end.

Definition quote : string := String (ascii_of_nat 34) EmptyString.
Definition quote_comma_quote : string := quote ++ "," ++ quote.

(** ** parse_content *)

(** [header[:-1]] and [header[-1]] of a non-empty list. *)
Definition init_last (l : list string) : list string * string :=
  (removelast l, last l EmptyString).

Definition parse_content (content : string) (num_header num_message : Z)
  : list string :=
  let header := Py.split "," num_header content in
  let message := Py.split quote_comma_quote num_message (snd (init_last header)) in
  (fst (init_last header) ++ map (Py.strip quote) message)%list.

(** ** Effects: calls to collaborators (loggers, the database) are
    collected in call order next to the result. *)

Definition eff (E A : Type) : Type := list E * result A.

Definition ret {E A : Type} (a : A) : eff E A := ([], Ok a).
Definition raise {E A : Type} (e : exn) : eff E A := ([], Raise e).
Definition emit {E : Type} (ev : E) : eff E unit := ([ev], Ok tt).
Definition lift {E A : Type} (r : result A) : eff E A := ([], r).

Definition ebind {E A B : Type} (m : eff E A) (k : A -> eff E B) : eff E B :=
  match m with
  | (evs, Ok a) => let (evs', r) := k a in ((evs ++ evs')%list, r)
  | (evs, Raise e) => (evs, Raise e)
  end.

Notation "x <~ m ;; k" := (ebind m (fun x => k))
  (at level 61, m at next level, right associativity).
Notation "' pat <~ m ;; k" := (ebind m (fun x => match x with pat => k end))
  (at level 61, pat pattern, m at next level, right associativity).
Notation "m ;;; k" := (ebind m (fun _ => k))
  (at level 61, right associativity).

(** ** Logging and formatting *)

Inductive level : Type := CRITICAL | ERROR | WARNING | INFO | DEBUG.

(** One call [logging.<level>(text)]. *)
Definition log_entry : Type := (level * string)%type.

(** An integer in a format string, as [{index:d}] and [{value}] print it. *)
Definition format_d (index : Z) : string :=
  NilZero.string_of_int (Z.to_int index).

(** ** Constants and enumerations *)

Definition MAKEMKV_UNKNOWN_DRV : Z := 999.
Definition MAKEMKV_STREAM_CODE_TYPE_VIDEO : Z := 6201.
Definition SOURCE : string := "MakeMKV".

Definition ERROR_MESSAGE_OPERATION_RESULT : string :=
  "Internal error - Operation result is incorrect (132)".
Definition ERROR_MESSAGE_TRAY_OPEN : string :=
  "Scsi error - NOT READY:MEDIUM NOT PRESENT - TRAY OPEN".
Definition ERROR_MESSAGE_MEDIUM_ERROR : string :=
  "Scsi error - MEDIUM ERROR:L-EC UNCORRECTABLE ERROR".
Definition ERROR_MESSAGE_HARDWARE_ERROR : string :=
  "Scsi error - HARDWARE ERROR:441E".

(** class OutputType(enum.Flag), members numbered by [enum.auto()]. *)
Inductive OutputType : Type :=
| DRV | MSG | CINFO | SINFO | TCOUNT | TINFO | PRGV | PRGC | PRGT.

Definition OutputType_value (t : OutputType) : Z :=
  match t with
  | DRV => 1 | MSG => 2 | CINFO => 4 | SINFO => 8 | TCOUNT => 16
  | TINFO => 32 | PRGV => 64 | PRGC => 128 | PRGT => 256
  end.

(** [OutputType.__members__] looked up by name. *)
Definition OutputType_members (name : string) : option OutputType :=
  if String.eqb name "DRV" then Some DRV
  else if String.eqb name "MSG" then Some MSG
  else if String.eqb name "CINFO" then Some CINFO
  else if String.eqb name "SINFO" then Some SINFO
  else if String.eqb name "TCOUNT" then Some TCOUNT
  else if String.eqb name "TINFO" then Some TINFO
  else if String.eqb name "PRGV" then Some PRGV
  else if String.eqb name "PRGC" then Some PRGC
  else if String.eqb name "PRGT" then Some PRGT
  else None.

(** [msg_type in select] on flags. *)
Definition flag_in (t : OutputType) (select : Z) : bool :=
  Z.land select (OutputType_value t) =? OutputType_value t.

(** class DriveVisible(enum.IntEnum).  [DriveVisible(value)] answers the
    member of that value; for any other value [_missing_] makes one debug
    log call and answers NOT_ATTACHED. *)
Inductive DriveVisible : Type :=
| EMPTY | OPEN | LOADED | LOADING | NOT_ATTACHED.

Definition DriveVisible_of (value : Z) : list log_entry * DriveVisible :=
  if value =? 0 then ([], EMPTY)
  else if value =? 1 then ([], OPEN)
  else if value =? 2 then ([], LOADED)
  else if value =? 3 then ([], LOADING)
  else if value =? 256 then ([], NOT_ATTACHED)
  else ([(DEBUG, "Undefined Visible Value " ++ format_d value
                 ++ " in <enum 'DriveVisible'>")],
        NOT_ATTACHED).

(** class DriveType(enum.Enum).  [DriveType(value)] answers the member of
    that value; for any other value [_missing_] makes one debug log call
    and answers CD. *)
Inductive DriveType : Type :=
| CD | DVD | BD_TYPE1 | BD_TYPE2.

Definition DriveType_of (value : Z) : list log_entry * DriveType :=
  if value =? 0 then ([], CD)
  else if value =? 1 then ([], DVD)
  else if value =? 12 then ([], BD_TYPE1)
  else if value =? 28 then ([], BD_TYPE2)
  else ([(DEBUG, "Undefined Drive Type " ++ format_d value
                 ++ " in <enum 'DriveType'>")],
        CD).

(** class MessageID(enum.IntEnum). *)
Module MessageID.
Definition LIBMKV_TRACE : Z := 1002.
Definition VERSION_INFO : Z := 1005.
Definition GENERIC_INFO : Z := 1011.
Definition READ_ERROR : Z := 2003.
Definition WRITE_ERROR : Z := 2019.
Definition RIP_TITLE_ERROR : Z := 5003.
Definition RIP_COMPLETED : Z := 5004.
Definition RIP_DISC_OPEN_ERROR : Z := 5010.
Definition EVALUATION_PERIOD_EXPIRED_INFO : Z := 5052.
Definition EVALUATION_PERIOD_EXPIRED_SHAREWARE : Z := 5055.
Definition RIP_BACKUP_FAILED_PRE : Z := 5096.
Definition RIP_BACKUP_FAILED : Z := 5080.
End MessageID.

Module StreamID.
Definition UNKNOWN : Z := 0.
Definition TYPE : Z := 1.
Definition ASPECT : Z := 20.
Definition FPS : Z := 21.
End StreamID.

Module TrackID.
Definition DURATION : Z := 9.
Definition FILENAME : Z := 27.
End TrackID.

(** ** The dataclasses.  Field names carry the class as a prefix; a subclass
    repeats the fields it inherits. *)

Record MakeMKVMessage : Type := {
  msg_code : Z;
  msg_flags : Z;
  msg_count : Z;
  msg_message : string;
  msg_sprintf : list string
}.

Record MakeMKVErrorMessage : Type := {
  err_code : Z;
  err_flags : Z;
  err_count : Z;
  err_message : string;
  err_sprintf : list string;
  err_error : string
}.

Record Titles : Type := { titles_count : Z }.

Record CInfo : Type := {
  cinfo_id : Z;
  cinfo_code : Z;
  cinfo_value : string
}.

Record TInfo : Type := {
  tinfo_id : Z;
  tinfo_code : Z;
  tinfo_value : string;
  tinfo_tid : Z
}.

Record SInfo : Type := {
  sinfo_id : Z;
  sinfo_code : Z;
  sinfo_value : string;
  sinfo_tid : Z;
  sinfo_sid : Z
}.

Record ProgressBarValues : Type := {
  prgv_current : Z;
  prgv_total : Z;
  prgv_maximum : Z
}.

Record ProgressBarTitle : Type := {
  prg_code : Z;
  prg_oid : Z;
  prg_name : string
}.

Record Drive : Type := {
  drv_mount : string;
  drv_disc : string;
  drv_info : string;
  drv_flags : Z;
  drv_enabled : bool;
  drv_visible : Z;
  drv_index : Z;
  drv_loaded : bool;
  drv_open : bool;
  drv_attached : bool;
  drv_media_cd : bool;
  drv_media_dvd : bool;
  drv_media_bd : bool
}.

(** What [parse_line] hands back next to the type tag. *)
Inductive record : Type :=
| RMessage (m : MakeMKVMessage)
| RErrorMessage (e : MakeMKVErrorMessage)
| RTitles (t : Titles)
| RCInfo (c : CInfo)
| RTInfo (t : TInfo)
| RSInfo (s : SInfo)
| RProgressBarValues (p : ProgressBarValues)
| RProgressBarCurrent (p : ProgressBarTitle)
| RProgressBarTotal (p : ProgressBarTitle)
| RDrive (d : Drive).

(** ** Construction: a call with unpacked arguments followed by [__post_init__].  A wrong
    number of positional arguments is the constructor's TypeError. *)

(** The call with the first four items of [temp] unpacked and
    [list(temp)], the rest, as the fifth argument. *)
Definition new_MakeMKVMessage (temp : list string) : result MakeMKVMessage :=
  match firstn 4 temp with
  | [code; flags; count; message] =>
      code <- to_int code ;;
      flags <- to_int flags ;;
      count <- to_int count ;;
      Ok {| msg_code := code; msg_flags := flags; msg_count := count;
            msg_message := message; msg_sprintf := skipn 4 temp |}
  | _ => Raise TypeError
  end.

(** The call with [dataclasses.astuple(data)] unpacked and
    [data.message] as [error]. *)
Definition new_MakeMKVErrorMessage (data : MakeMKVMessage)
  : result MakeMKVErrorMessage :=
  if (List.length (msg_sprintf data) <? 2)%nat
  then Raise ValueError
  else Ok {| err_code := msg_code data; err_flags := msg_flags data;
             err_count := msg_count data; err_message := msg_message data;
             err_sprintf := skipn 2 (msg_sprintf data);
             err_error := nth 1 (msg_sprintf data) EmptyString |}.

Definition new_Titles (args : list string) : result Titles :=
  match args with
  | [count] => count <- to_int count ;; Ok {| titles_count := count |}
  | _ => Raise TypeError
  end.

Definition new_CInfo (args : list string) : result CInfo :=
  match args with
  | [id; code; value] =>
      id <- to_int id ;;
      code <- to_int code ;;
      Ok {| cinfo_id := id; cinfo_code := code; cinfo_value := value |}
  | _ => Raise TypeError
  end.

Definition new_TInfo (args : list string) : result TInfo :=
  match args with
  | [id; code; value; tid] =>
      id <- to_int id ;;
      code <- to_int code ;;
      tid <- to_int tid ;;
      Ok {| tinfo_id := id; tinfo_code := code; tinfo_value := value;
            tinfo_tid := tid |}
  | _ => Raise TypeError
  end.

Definition new_SInfo (args : list string) : result SInfo :=
  match args with
  | [id; code; value; tid; sid] =>
      id <- to_int id ;;
      code <- to_int code ;;
      tid <- to_int tid ;;
      sid <- to_int sid ;;
      Ok {| sinfo_id := id; sinfo_code := code; sinfo_value := value;
            sinfo_tid := tid; sinfo_sid := sid |}
  | _ => Raise TypeError
  end.

Definition new_ProgressBarValues (args : list string) : result ProgressBarValues :=
  match args with
  | [current; total; maximum] =>
      current <- to_int current ;;
      total <- to_int total ;;
      maximum <- to_int maximum ;;
      Ok {| prgv_current := current; prgv_total := total;
            prgv_maximum := maximum |}
  | _ => Raise TypeError
  end.

Definition new_ProgressBarTitle (args : list string) : result ProgressBarTitle :=
  match args with
  | [code; oid; name] =>
      code <- to_int code ;;
      oid <- to_int oid ;;
      Ok {| prg_code := code; prg_oid := oid; prg_name := name |}
  | _ => Raise TypeError
  end.

(** Drive.__post_init__ after the inherited one: the medium flags from
    [DriveType(self.flags)], then the tray state from
    [DriveVisible(self.visible)], over the field defaults
    loaded=False, open=False, attached=True, media_*=False; with the debug
    log calls of the two lookups, in that order. *)
Definition Drive_post_init (mount disc info : string) (flags : Z)
           (enabled : bool) (visible index : Z) : list log_entry * Drive :=
  let (type_log, drive_type) := DriveType_of flags in
  let '(media_cd, media_dvd, media_bd) :=
    match drive_type with
    | CD => (true, false, false)
    | DVD => (false, true, false)
    | BD_TYPE1 => (false, false, true)
    | BD_TYPE2 => (false, false, true)
    end in
  let (visible_log, drive_visible) := DriveVisible_of visible in
  let '(loaded, open, attached) :=
    match drive_visible with
    | EMPTY => (false, false, true)
    | OPEN => (false, true, true)
    | LOADED => (true, false, true)
    | LOADING => (true, false, true)
    | NOT_ATTACHED => (false, false, false)
    end in
  ((type_log ++ visible_log)%list,
   {| drv_mount := mount; drv_disc := disc; drv_info := info;
      drv_flags := flags; drv_enabled := enabled; drv_visible := visible;
      drv_index := index;
      drv_loaded := loaded; drv_open := open; drv_attached := attached;
      drv_media_cd := media_cd; drv_media_dvd := media_dvd;
      drv_media_bd := media_bd |}).

(** The constructor call: a failing [int()] raises before either lookup is
    made, so it leaves no log call. *)
Definition new_Drive (args : list string) : eff log_entry Drive :=
  match args with
  | [mount; disc; info; flags; enabled; visible; index] =>
      flags <~ lift (to_int flags) ;;
      enabled <~ lift (to_int enabled) ;;
      visible <~ lift (to_int visible) ;;
      index <~ lift (to_int index) ;;
      let (logs, drive) :=
        Drive_post_init mount disc info flags
          (enabled =? MAKEMKV_UNKNOWN_DRV) visible index in
      (logs, Ok drive)
  | _ => raise TypeError
  end.

(** ** MakeMKVOutputChecker *)

(** Truth value of an optional string: None and the empty string are false. *)
Definition truthy (note : option string) : bool :=
  match note with
  | Some EmptyString | None => false
  | Some _ => true
  end.

(** [READ_ERROR_MAP.get(error_msg, (logging.warning, None))]. *)
Definition READ_ERROR_MAP_get (error_msg : string) : level * option string :=
  if String.eqb error_msg ERROR_MESSAGE_OPERATION_RESULT
  then (CRITICAL, Some "error possibly fatal, creating zombie processes")
  else if String.eqb error_msg ERROR_MESSAGE_TRAY_OPEN
  then (INFO, Some "error mostly non fatal")
  else if String.eqb error_msg ERROR_MESSAGE_MEDIUM_ERROR
  then (CRITICAL, Some "error possibly fatal, medium removed during mkv backup")
  else if String.eqb error_msg ERROR_MESSAGE_HARDWARE_ERROR
  then (CRITICAL, Some "error possibly fatal, medium removed during mkv backup")
  else (WARNING, None).

Definition LOG_ONLY_CODES (code : Z) : option level :=
  if code =? MessageID.RIP_DISC_OPEN_ERROR then Some INFO
  else if code =? MessageID.RIP_TITLE_ERROR then Some WARNING
  else if code =? MessageID.RIP_COMPLETED then Some INFO
  else if code =? MessageID.LIBMKV_TRACE then Some WARNING
  else if code =? MessageID.RIP_BACKUP_FAILED_PRE then Some WARNING
  else if code =? MessageID.EVALUATION_PERIOD_EXPIRED_INFO then Some WARNING
  else None.

Definition SPECIAL_ERROR_CODES (code : Z) : bool :=
  (code =? MessageID.EVALUATION_PERIOD_EXPIRED_SHAREWARE)
  || (code =? MessageID.RIP_BACKUP_FAILED).

(** [data.sprintf[1]]. *)
Definition sprintf_1 (data : MakeMKVMessage) : result string :=
  match nth_error (msg_sprintf data) 1 with
  | Some s => Ok s
  | None => Raise IndexError
  end.

Definition read_error (data : MakeMKVMessage) : eff log_entry record :=
  error_msg <~ lift (sprintf_1 data) ;;
  let '(log_func, debug_msg) := READ_ERROR_MAP_get error_msg in
  (if truthy debug_msg
   then emit (DEBUG, match debug_msg with Some d => d | None => EmptyString end)
   else ret tt) ;;;
  let log_message := if truthy debug_msg then msg_message data else error_msg in
  emit (log_func, log_message) ;;;
  e <~ lift (new_MakeMKVErrorMessage data) ;;
  ret (RErrorMessage e).

Definition write_error (data : MakeMKVMessage) : eff log_entry record :=
  error_msg <~ lift (sprintf_1 data) ;;
  (if String.eqb error_msg "Posix error - No such file or directory"
   then emit (CRITICAL, msg_message data)
   else emit (WARNING, error_msg)) ;;;
  e <~ lift (new_MakeMKVErrorMessage data) ;;
  ret (RErrorMessage e).

Definition special_error_code (data : MakeMKVMessage) : eff log_entry record :=
  e <~ lift (new_MakeMKVErrorMessage data) ;;
  ret (RErrorMessage e).

Definition log_only_code (data : MakeMKVMessage) : eff log_entry record :=
  match LOG_ONLY_CODES (msg_code data) with
  | Some log_func => emit (log_func, msg_message data) ;;; ret (RMessage data)
  | None => raise KeyError
  end.

Definition check (data : MakeMKVMessage) : eff log_entry record :=
  let code := msg_code data in
  if code =? MessageID.READ_ERROR then read_error data
  else if code =? MessageID.WRITE_ERROR then write_error data
  else if SPECIAL_ERROR_CODES code then special_error_code data
  else if match LOG_ONLY_CODES code with Some _ => true | None => false end
  then log_only_code data
  else ret (RMessage data).

(** ** parse_line *)

(** [tid, *info = tokens] and [tid, sid, *info = tokens]. *)
Definition unpack1 (tokens : list string) : result (string * list string) :=
  match tokens with
  | tid :: info => Ok (tid, info)
  | [] => Raise ValueError
  end.

Definition unpack2 (tokens : list string)
  : result (string * string * list string) :=
  match tokens with
  | tid :: sid :: info => Ok (tid, sid, info)
  | _ => Raise ValueError
  end.

Definition parse_line (line : string) : eff log_entry (OutputType * record) :=
  if negb (Py.contains ":" line) then raise MakeMkvParserError
  else
    match Py.split ":" 1 line with
    | [msg_type; content] =>
        match OutputType_members msg_type with
        | None => raise MakeMkvParserError
        | Some MSG =>
            data <~ lift (new_MakeMKVMessage (parse_content content 3 (-1))) ;;
            message <~ check data ;;
            ret (MSG, message)
        | Some PRGV =>
            p <~ lift (new_ProgressBarValues (parse_content content 2 0)) ;;
            ret (PRGV, RProgressBarValues p)
        | Some PRGC =>
            p <~ lift (new_ProgressBarTitle (parse_content content 2 0)) ;;
            ret (PRGC, RProgressBarCurrent p)
        | Some PRGT =>
            p <~ lift (new_ProgressBarTitle (parse_content content 2 0)) ;;
            ret (PRGT, RProgressBarTotal p)
        | Some SINFO =>
            '(tid, sid, info) <~ lift (unpack2 (parse_content content 4 0)) ;;
            s <~ lift (new_SInfo (info ++ [tid; sid])%list) ;;
            ret (SINFO, RSInfo s)
        | Some TINFO =>
            '(tid, info) <~ lift (unpack1 (parse_content content 3 0)) ;;
            t <~ lift (new_TInfo (info ++ [tid])%list) ;;
            ret (TINFO, RTInfo t)
        | Some CINFO =>
            c <~ lift (new_CInfo (parse_content content 2 0)) ;;
            ret (CINFO, RCInfo c)
        | Some DRV =>
            d <~ new_Drive (rev (parse_content content 4 2)) ;;
            ret (DRV, RDrive d)
        | Some TCOUNT =>
            t <~ lift (new_Titles (parse_content content 0 0)) ;;
            ret (TCOUNT, RTitles t)
        end
    | _ => raise ValueError
    end.

(** ** run *)

(** The child process as [run] meets it: the lines its standard output
    delivers (each with its terminator, as the text stream hands them out)
    and the status it exits with. *)
Record Process : Type := {
  stdout : list string;
  exit_status : Z
}.

(** [os.linesep] on the platform ARM runs on. *)
Definition linesep : string := String (ascii_of_nat 10) EmptyString.

(** Truth value of [proc.returncode]: None and 0 are false. *)
Definition returncode_set (returncode : option Z) : bool :=
  match returncode with
  | None => false
  | Some rc => negb (rc =? 0)
  end.

(** The state of the generator while it reads the child's output. *)
Record run_state : Type := {
  buffer : list string;          (* lines that could not be parsed *)
  yielded : list record;         (* what the consumer has received *)
  logged : list log_entry        (* log calls of the message checker *)
}.

Definition run_init : run_state :=
  {| buffer := []; yielded := []; logged := [] |}.

(** The body of [for line in proc.stdout], from the first line on.
    [returncode] is [proc.returncode]; an exception other than
    MakeMkvParserError leaves the loop and is handed back as [Some]. *)
Fixpoint run_loop (select : Z) (returncode : option Z) (lines : list string)
         (st : run_state) : run_state * option exn :=
  match lines with
  | [] => (st, None)
  | raw :: rest =>
      let line := Py.rstrip linesep raw in
      if returncode_set returncode
      then run_loop select returncode rest
             {| buffer := (buffer st ++ [line])%list; yielded := yielded st;
                logged := logged st |}
      else
        match parse_line line with
        | (logs, Raise MakeMkvParserError) =>
            run_loop select returncode rest
              {| buffer := (buffer st ++ [line])%list; yielded := yielded st;
                 logged := (logged st ++ logs)%list |}
        | (logs, Raise e) =>
            ({| buffer := buffer st; yielded := yielded st;
                logged := (logged st ++ logs)%list |}, Some e)
        | (logs, Ok (msg_type, data)) =>
            run_loop select returncode rest
              {| buffer := buffer st;
                 yielded := if flag_in msg_type select
                            then (yielded st ++ [data])%list else yielded st;
                 logged := (logged st ++ logs)%list |}
        end
  end.

(** The command line: [shutil.which('makemkvcon')] or the fixed path, the
    robot-mode flags, then the options. *)
Definition command (which : option string) (options : list string)
  : list string :=
  let makemkvcon_path :=
    match which with
    | Some (String c path) => String c path
    | _ => "/usr/local/bin/makemkvcon"
    end in
  ([makemkvcon_path; "--robot"; "--messages=-stdout"] ++ options)%list.

(** How a generator that was read to its end finished. *)
Inductive outcome : Type :=
| Returned
| Raised (e : exn).

(** [run(options, select)], consumed to the end.  [which] is the answer of
    [shutil.which('makemkvcon')].  Nothing polls the child inside the loop,
    so [proc.returncode] is None there; leaving the [with] block waits for
    the child and sets it to the exit status. *)
Definition run (which : option string) (options : list string) (select : Z)
           (proc : Process) : list record * outcome :=
  let cmd := command which options in
  let (st, left) := run_loop select None (stdout proc) run_init in
  match left with
  | Some e => (yielded st, Raised e)
  | None =>
      let returncode := exit_status proc in
      if negb (returncode =? 0)
      then (yielded st,
            Raised (MakeMkvRuntimeError returncode cmd
                      (Py.join linesep (buffer st))))
      else
        match buffer st with
        | _ :: _ =>
            (yielded st,
             Raised (MakeMkvRuntimeError returncode cmd
                       (Py.join linesep (buffer st))))
        | [] => (yielded st, Returned)
        end
  end.

(** ** convert_to_seconds *)

Definition convert_to_seconds (hms_value : string) : result Z :=
  match Py.split ":" (-1) hms_value with
  | [hour; mins; secs] =>
      hour <- to_int hour ;;
      mins <- to_int mins ;;
      secs <- to_int secs ;;
      Ok (hour * 3600 + mins * 60 + secs)
  | _ => Raise ValueError
  end.

(** ** TrackInfoProcessor *)

(** Calls to the collaborators in [arm.ripper.utils]; the job argument is the
    same in every call and left out. *)
Inductive db_call : Type :=
| put_track (track_id seconds : Z) (aspect fps : string) (forced : bool)
            (source filename : string)
| database_updater_no_of_titles (count : Z).

(** [l[1::2]]. *)
Fixpoint odd_items {A : Type} (l : list A) : list A :=
  match l with
  | _ :: x :: rest => x :: odd_items rest
  | _ => []
  end.

Section TrackInfoProcessor.

(** Python floats stay abstract: the type, [float(s)] on a string (None
    for its ValueError), the literal [0.0] and [str(x)]. *)
Variable float : Type.
Variable float_of_str : string -> option float.
Variable float_zero : float.
Variable str_of_float : float -> string.

Record TrackInfoProcessor : Type := {
  track_id : option Z;
  seconds : Z;
  aspect : string;
  fps : float;
  filename : string;
  stream_type : option Z
}.

(** The state [__init__] sets up. *)
Definition TrackInfoProcessor_init : TrackInfoProcessor :=
  {| track_id := None; seconds := 0; aspect := EmptyString;
     fps := float_zero; filename := EmptyString; stream_type := None |}.

Definition _add_track (self : TrackInfoProcessor)
  : eff db_call TrackInfoProcessor :=
  match track_id self with
  | None => ret self
  | Some tid =>
      emit (put_track tid (seconds self) (aspect self)
              (str_of_float (fps self)) false SOURCE (filename self)) ;;;
      ret {| track_id := track_id self; seconds := 0;
             aspect := EmptyString; fps := float_zero;
             filename := EmptyString; stream_type := stream_type self |}
  end.

Definition _handle_sinfo (self : TrackInfoProcessor) (message : SInfo)
  : result TrackInfoProcessor :=
  if sinfo_id message =? StreamID.TYPE
  then Ok {| track_id := track_id self; seconds := seconds self;
             aspect := aspect self; fps := fps self;
             filename := filename self;
             stream_type := Some (sinfo_code message) |}
  else
    match stream_type self with
    | Some st =>
        if st =? MAKEMKV_STREAM_CODE_TYPE_VIDEO
        then
          if sinfo_id message =? StreamID.ASPECT
          then Ok {| track_id := track_id self; seconds := seconds self;
                     aspect := Py.strip_ws (sinfo_value message);
                     fps := fps self; filename := filename self;
                     stream_type := stream_type self |}
          else if sinfo_id message =? StreamID.FPS
          then
            match Py.split_ws (sinfo_value message) with
            | [] => Raise IndexError
            | first :: _ =>
                match float_of_str first with
                | None => Raise ValueError
                | Some x =>
                    Ok {| track_id := track_id self;
                          seconds := seconds self; aspect := aspect self;
                          fps := x; filename := filename self;
                          stream_type := stream_type self |}
                end
            end
          else Ok self
        else Ok self
    | None => Ok self
    end.

(** [next(iter(pieces[1::2]), value)] where [pieces] is [value] split at
    every double quote. *)
Definition quoted_or_raw (value : string) : string :=
  match odd_items (Py.split quote (-1) value) with
  | x :: _ => x
  | [] => value
  end.

Definition _handle_tinfo (self : TrackInfoProcessor) (message : TInfo)
  : result TrackInfoProcessor :=
  if tinfo_id message =? TrackID.FILENAME
  then Ok {| track_id := track_id self; seconds := seconds self;
             aspect := aspect self; fps := fps self;
             filename := quoted_or_raw (tinfo_value message);
             stream_type := stream_type self |}
  else if tinfo_id message =? TrackID.DURATION
  then
    secs <- convert_to_seconds (Py.strip_ws (tinfo_value message)) ;;
    Ok {| track_id := track_id self; seconds := secs;
          aspect := aspect self; fps := fps self;
          filename := filename self; stream_type := stream_type self |}
  else Ok self.

Definition set_track_id (self : TrackInfoProcessor) (tid : Z)
  : TrackInfoProcessor :=
  {| track_id := Some tid; seconds := seconds self; aspect := aspect self;
     fps := fps self; filename := filename self;
     stream_type := stream_type self |}.

(** [assert message.tid == self.track_id]. *)
Definition assert_tid (self : TrackInfoProcessor) (tid : Z) : result unit :=
  match track_id self with
  | Some t => if tid =? t then Ok tt else Raise AssertionError
  | None => Raise AssertionError
  end.

(** [message] is a TInfo or an SInfo, [tid] its title id. *)
Definition _handle_track_or_stream_info (self : TrackInfoProcessor)
           (tid : Z) (message : TInfo + SInfo)
  : eff db_call TrackInfoProcessor :=
  self <~ (match track_id self with
           | Some t => if negb (tid =? t) then _add_track self else ret self
           | None => ret self
           end) ;;
  let self := set_track_id self tid in
  match message with
  | inr sinfo =>
      lift (assert_tid self tid) ;;; lift (_handle_sinfo self sinfo)
  | inl tinfo =>
      lift (assert_tid self tid) ;;; lift (_handle_tinfo self tinfo)
  end.

Definition _handle_titles (self : TrackInfoProcessor) (message : Titles)
  : eff db_call TrackInfoProcessor :=
  emit (database_updater_no_of_titles (titles_count message)) ;;; ret self.

Definition _process_message (self : TrackInfoProcessor) (message : record)
  : eff db_call TrackInfoProcessor :=
  match message with
  | RSInfo s => _handle_track_or_stream_info self (sinfo_tid s) (inr s)
  | RTInfo t => _handle_track_or_stream_info self (tinfo_tid t) (inl t)
  | RTitles t => _handle_titles self t
  | _ => ret self
  end.

(** The loop of [process_messages] over the records the generator yields. *)
Fixpoint process_loop (self : TrackInfoProcessor) (messages : list record)
  : eff db_call TrackInfoProcessor :=
  match messages with
  | [] => ret self
  | message :: rest =>
      self <~ _process_message self message ;;
      process_loop self rest
  end.

(** [process_messages] on what [makemkv_info] produced: the records it
    yielded and how it finished.  The last track is added only when the
    generator returns. *)
Definition process_messages (self : TrackInfoProcessor)
           (produced : list record * outcome)
  : eff db_call TrackInfoProcessor :=
  self <~ process_loop self (fst produced) ;;
  match snd produced with
  | Raised e => raise e
  | Returned => _add_track self
  end.

(** Vocabulary for the properties: the call that commits the pending
    descriptor of title [tid], the descriptor fields at their defaults
    with a given scratch stream type, and the handler that follows the
    title bookkeeping. *)
Definition commit_call (self : TrackInfoProcessor) (tid : Z) : db_call :=
  put_track tid (seconds self) (aspect self) (str_of_float (fps self))
    false SOURCE (filename self).

Definition defaults (tid : option Z) (scratch : option Z)
  : TrackInfoProcessor :=
  {| track_id := tid; seconds := 0; aspect := EmptyString;
     fps := float_zero; filename := EmptyString; stream_type := scratch |}.

(** The pending descriptor of title [T] is at its defaults. *)
Definition pending_default (T : Z) (self : TrackInfoProcessor) : Prop :=
  track_id self = Some T \/ track_id self = None ->
  seconds self = 0 /\ filename self = EmptyString.

Definition handle_info (self : TrackInfoProcessor) (message : TInfo + SInfo)
  : result TrackInfoProcessor :=
  match message with
  | inr sinfo => _handle_sinfo self sinfo
  | inl tinfo => _handle_tinfo self tinfo
  end.

End TrackInfoProcessor.

Arguments track_id {float} _.
Arguments seconds {float} _.
Arguments aspect {float} _.
Arguments fps {float} _.
Arguments filename {float} _.
Arguments stream_type {float} _.
Arguments commit_call {float} str_of_float self tid.
Arguments defaults {float} float_zero tid scratch.
Arguments pending_default {float} T self.

(** ** makemkv_info and the throttle around it *)

(** The job states [makemkv_info] assigns (members of [JobState]). *)
Inductive JobState : Type := VIDEO_WAITING | VIDEO_INFO | VIDEO_RIPPING.

(** The [sleep] argument of [sleep_check_process]: a tuple or a number. *)
Inductive sleep_arg : Type :=
| sleep_range (low high step : Z)
| sleep_seconds (s : Z).

(** What [makemkv_info] does to the world around the records it yields. *)
Inductive sys_call : Type :=
| set_status (s : JobState)               (* job.status = ...; commit *)
| count_processes (name : string) (found : Z)
| wait_interval (arg : sleep_arg)
| sleep (secs : Z)
| run_makemkvcon (options : list string) (select : Z).

(** Modelled from the spec: [arm.ripper.utils.sleep_check_process] is not
    among the sources.  It polls the number of running processes called
    [process_str] at a fixed interval and blocks until that number is at or
    below [max_processes]; a ceiling of 0 disables it.  [running n] is the
    number the [n]-th poll of this job reports, [polls] counts the polls
    made so far, and [fuel] bounds the polls of one call: None is a call
    still blocked when the fuel is spent. *)
Fixpoint wait_for_processes (fuel : nat) (process_str : string)
         (max_processes : Z) (interval : sleep_arg) (running : nat -> Z)
         (polls : nat) : option (list sys_call * nat) :=
  match fuel with
  | O => None
  | S fuel' =>
      let found := running polls in
      if found <=? max_processes
      then Some ([count_processes process_str found], S polls)
      else
        match wait_for_processes fuel' process_str max_processes interval
                running (S polls) with
        | Some (calls, polls') =>
            Some (count_processes process_str found
                    :: wait_interval interval :: calls, polls')
        | None => None
        end
  end.

Definition sleep_check_process (fuel : nat) (process_str : string)
           (max_processes : Z) (interval : sleep_arg) (running : nat -> Z)
           (polls : nat) : option (list sys_call * nat) :=
  if max_processes =? 0 then Some ([], polls)
  else wait_for_processes fuel process_str max_processes interval running polls.

(** [job.config] as far as [makemkv_info] reads it. *)
Record Config : Type := {
  MANUAL_WAIT_TIME : Z;
  MAX_CONCURRENT_MAKEMKVINFO : Z
}.

(** [makemkv_info(job, select, index, options)], consumed to the end: the
    calls made around the run, the records yielded and the way the generator
    finished.  None is a call that is still waiting in one of its two
    [sleep_check_process] calls when [fuel] polls have been made. *)
Definition makemkv_info (fuel : nat) (config : Config) (running : nat -> Z)
           (which : option string) (select : option Z) (index : Z)
           (options : list string) (proc : Process)
  : option (list sys_call * (list record * outcome)) :=
  let select :=
    match select with
    | None => Z.lor (Z.lor (OutputType_value MSG) (OutputType_value TCOUNT))
                (OutputType_value DRV)
    | Some s => s
    end in
  let info_options :=
    (["info"; "--cache=1"] ++ options
       ++ [String.append "disc:" (format_d index)])%list in
  let wait_time := MANUAL_WAIT_TIME config in
  let max_processes := MAX_CONCURRENT_MAKEMKVINFO config in
  match sleep_check_process fuel "makemkvcon" max_processes
          (sleep_range 10 wait_time 10) running O with
  | None => None
  | Some (before, polls) =>
      let produced := run which info_options select proc in
      let penalty :=
        if negb (max_processes =? 0) then [sleep wait_time] else [] in
      match sleep_check_process fuel "makemkvcon" max_processes
              (sleep_seconds wait_time) running polls with
      | None => None
      | Some (after, _) =>
          Some (([set_status VIDEO_WAITING] ++ before
                 ++ [set_status VIDEO_INFO;
                     run_makemkvcon info_options select;
                     set_status VIDEO_WAITING]
                 ++ penalty ++ after ++ [set_status VIDEO_RIPPING])%list,
                produced)
      end
  end.

(** The throttle lets a query of at most [fuel] polls a wait through: the
    ceiling is 0, or two of the first [fuel] polls find the count of running
    processes at or below the ceiling, one for the wait before the run and a
    later one for the wait after it. *)
Definition throttle_clears (fuel : nat) (ceiling : Z) (running : nat -> Z)
  : Prop :=
  ceiling = 0
  \/ exists n1 n2, (n1 < n2 < fuel)%nat
                   /\ running n1 <= ceiling /\ running n2 <= ceiling.

(** The options and the selection [makemkv_info] hands to [run]. *)
Definition info_options (index : Z) (options : list string) : list string :=
  (["info"; "--cache=1"] ++ options
     ++ [String.append "disc:" (format_d index)])%list.

Definition info_select (select : option Z) : Z :=
  match select with
  | None => Z.lor (Z.lor (OutputType_value MSG) (OutputType_value TCOUNT))
              (OutputType_value DRV)
  | Some s => s
  end.

(** ** Views the specification takes of the records *)

(** The data model of the specification keeps the format template apart from
    the parameters: [sprintf] holds the template first, then the parameters. *)
Definition template (data : MakeMKVMessage) : option string :=
  hd_error (msg_sprintf data).

Definition params (data : MakeMKVMessage) : list string :=
  tl (msg_sprintf data).

(** The specification's [media_kind], read off the three medium flags. *)
Inductive MediaKind : Type :=
| Media_CD | Media_DVD | Media_BluRay | Media_Unknown.

Definition media_kind (d : Drive) : MediaKind :=
  if drv_media_cd d then Media_CD
  else if drv_media_dvd d then Media_DVD
  else if drv_media_bd d then Media_BluRay
  else Media_Unknown.

(** The tokenizer as the specification words it: one leading and one
    trailing double quote are taken off each quoted piece. *)
Definition drop_leading_quote (s : string) : string :=
  match s with
  | String c rest => if Ascii.eqb c (ascii_of_nat 34) then rest else s
  | EmptyString => s
  end.

Fixpoint drop_trailing_quote (s : string) : string :=
  match s with
  | EmptyString => EmptyString
  | String c EmptyString =>
      if Ascii.eqb c (ascii_of_nat 34) then EmptyString else s
  | String c rest => String c (drop_trailing_quote rest)
  end.

Definition strip_one_quote (s : string) : string :=
  drop_trailing_quote (drop_leading_quote s).

Definition parse_content_spec (content : string) (num_header num_message : Z)
  : list string :=
  let header := Py.split "," num_header content in
  let message := Py.split quote_comma_quote num_message (snd (init_last header)) in
  (fst (init_last header) ++ map strip_one_quote message)%list.

(** ** Fixtures *)

Definition quoted (s : string) : string := quote ++ s ++ quote.

Definition msg_fixture : string :=
  "MSG:1005,0,1," ++ quoted "MakeMKV v1.17.8 linux(x64-release) started" ++ ","
  ++ quoted "%1 started" ++ "," ++ quoted "MakeMKV v1.17.8 linux(x64-release)".

Definition drv_fixture : string :=
  "DRV:6,256,999,0," ++ quoted "" ++ "," ++ quoted "" ++ "," ++ quoted "".

(** ** Predicates on strings used to state the properties *)

(** [s[n:]]. *)
Fixpoint drop (n : nat) (s : string) : string :=
  match n, s with
  | O, _ => s
  | S m, String _ rest => drop m rest
  | S _, EmptyString => EmptyString
  end.

Fixpoint all_chars (p : ascii -> bool) (s : string) : bool :=
  match s with
  | EmptyString => true
  | String c rest => p c && all_chars p rest
  end.

Definition first_is (p : ascii -> bool) (s : string) : bool :=
  match s with
  | EmptyString => false
  | String c _ => p c
  end.

Fixpoint last_is (p : ascii -> bool) (s : string) : bool :=
  match s with
  | EmptyString => false
  | String c EmptyString => p c
  | String _ rest => last_is p rest
  end.

Definition is_quote (c : ascii) : bool := Py.mem_char c quote.

(** ** What the runner makes of one line of output *)

Definition decode (raw : string) : eff log_entry (OutputType * record) :=
  parse_line (Py.rstrip linesep raw).

(** The line decodes to a record. *)
Definition is_decoded (raw : string) : bool :=
  match snd (decode raw) with
  | Ok _ => true
  | Raise _ => false
  end.

(** The line raises MakeMkvParserError, the one exception the loop catches. *)
Definition is_unparsed (raw : string) : bool :=
  match snd (decode raw) with
  | Raise MakeMkvParserError => true
  | _ => false
  end.

(** The line raises another exception, which leaves the loop. *)
Definition is_aborting (raw : string) : bool :=
  match snd (decode raw) with
  | Ok _ | Raise MakeMkvParserError => false
  | Raise _ => true
  end.

Definition unparsed (lines : list string) : list string :=
  map (Py.rstrip linesep) (filter is_unparsed lines).

Definition selected (select : Z) (lines : list string) : list record :=
  flat_map (fun raw =>
              match snd (decode raw) with
              | Ok (msg_type, data) =>
                  if flag_in msg_type select then [data] else []
              | Raise _ => []
              end) lines.

Definition checker_logs (lines : list string) : list log_entry :=
  flat_map (fun raw => fst (decode raw)) lines.

Definition nl (s : string) : string := s ++ linesep.

(** The six derived fields of a drive. *)
Definition derived (d : Drive) : bool * bool * bool * bool * bool * bool :=
  (drv_loaded d, drv_open d, drv_attached d,
   drv_media_cd d, drv_media_dvd d, drv_media_bd d).

(** The debug log calls a drive is built with: one for a flags value that
    is no member of DriveType, then one for a visible value that is no
    member of DriveVisible. *)
Definition undefined_values_log (flags visible : Z) : list log_entry :=
  let type_log :=
    if (flags =? 0) || (flags =? 1) || (flags =? 12) || (flags =? 28)
    then []
    else [(DEBUG, "Undefined Drive Type " ++ format_d flags
                  ++ " in <enum 'DriveType'>")] in
  let visible_log :=
    if (visible =? 0) || (visible =? 1) || (visible =? 2)
       || (visible =? 3) || (visible =? 256)
    then []
    else [(DEBUG, "Undefined Visible Value " ++ format_d visible
                  ++ " in <enum 'DriveVisible'>")] in
  (type_log ++ visible_log)%list.

(** The drive with its derived fields written out in terms of the two
    codes. *)
Definition drive_record (mount disc info : string) (flags : Z)
           (enabled : bool) (visible index : Z) : Drive :=
  {| drv_mount := mount; drv_disc := disc; drv_info := info;
     drv_flags := flags; drv_enabled := enabled; drv_visible := visible;
     drv_index := index;
     drv_loaded := (visible =? 2) || (visible =? 3);
     drv_open := visible =? 1;
     drv_attached :=
       (visible =? 0) || (visible =? 1) || (visible =? 2) || (visible =? 3);
     drv_media_cd := negb ((flags =? 1) || (flags =? 12) || (flags =? 28));
     drv_media_dvd := flags =? 1;
     drv_media_bd := (flags =? 12) || (flags =? 28) |}.

(** The log calls [read_error] makes for the error text [error_msg]. *)
Definition read_error_logs (data : MakeMKVMessage) (error_msg : string)
  : list log_entry :=
  match READ_ERROR_MAP_get error_msg with
  | (log_func, Some note) =>
      if truthy (Some note)
      then [(DEBUG, note); (log_func, msg_message data)]
      else [(log_func, error_msg)]
  | (log_func, None) => [(log_func, error_msg)]
  end.

(** What [strip] does to one quoted piece: the token is the piece without
    its leading and trailing double quotes, all of them. *)
Definition stripped_of_quotes (piece token : string) : Prop :=
  exists l r,
    piece = l ++ token ++ r
    /\ all_chars is_quote l = true /\ all_chars is_quote r = true
    /\ first_is is_quote token = false /\ last_is is_quote token = false.

(** The cuts of [s.split(sep, k)], as the specification words them: while
    the count is not used up (a negative count never is) and the separator
    occurs, the string is cut at the leftmost occurrence of the separator,
    and what follows it is cut with one count less. *)
Inductive cuts (sep : string) : Z -> string -> list string -> Prop :=
| cuts_end (k : Z) (s : string) :
    k = 0 \/ Py.contains sep s = false ->
    cuts sep k s [s]
| cuts_cut (k : Z) (p rest : string) (pieces : list string) :
    k <> 0 ->
    (forall i, (i < String.length p)%nat ->
               prefix sep (drop i (p ++ sep ++ rest)) = false) ->
    cuts sep (k - 1) rest pieces ->
    cuts sep k (p ++ sep ++ rest) (p :: pieces).

(** ** Vocabulary for the track aggregator *)

(** The title a record belongs to, for the two kinds the aggregator folds. *)
Definition title_of (m : record) : option Z :=
  match m with
  | RTInfo t => Some (tinfo_tid t)
  | RSInfo s => Some (sinfo_tid s)
  | _ => None
  end.

(** [m] is a title-info record of title [tid] with the FILENAME or the
    DURATION attribute. *)
Definition yields_filename_or_duration (tid : Z) (m : record) : bool :=
  match m with
  | RTInfo t =>
      (tinfo_tid t =? tid)
      && ((tinfo_id t =? TrackID.FILENAME) || (tinfo_id t =? TrackID.DURATION))
  | _ => false
  end.

(** [c] is a [put_track] call for title [tid]. *)
Definition commits (tid : Z) (c : db_call) : bool :=
  match c with
  | put_track t _ _ _ _ _ _ => t =? tid
  | database_updater_no_of_titles _ => false
  end.

(** Every commit of title [T] among [calls] carries the defaults. *)
Definition commits_default (T : Z) (calls : list db_call) : Prop :=
  forall c, In c calls -> commits T c = true ->
            exists a f, c = put_track T 0 a f false SOURCE EmptyString.

(** Records whose handling cannot raise: no DURATION title attribute and no
    FPS stream attribute. *)
Definition plain (m : record) : bool :=
  match m with
  | RTInfo t => negb (tinfo_id t =? TrackID.DURATION)
  | RSInfo s => negb (sinfo_id s =? StreamID.FPS)
  | _ => true
  end.

(** ** Example data *)

(** An instance of the float interface for the examples: the text of the
    number stands for the number. *)
Definition Text_of_str (s : string) : option string := Some s.
Definition Text_zero : string := "0.0".
Definition Text_str (x : string) : string := x.

Definition example_tinfo (tid id : Z) (value : string) : record :=
  RTInfo {| tinfo_id := id; tinfo_code := 0; tinfo_value := value;
            tinfo_tid := tid |}.

Definition example_sinfo (tid id code : Z) (value : string) : record :=
  RSInfo {| sinfo_id := id; sinfo_code := code; sinfo_value := value;
            sinfo_tid := tid; sinfo_sid := 0 |}.

(** ** Vocabulary for the message checker and the runner *)

(** The codes [check] turns into an error message. *)
Definition is_error_code (code : Z) : bool :=
  (code =? MessageID.READ_ERROR) || (code =? MessageID.WRITE_ERROR)
  || SPECIAL_ERROR_CODES code.

(** The type tag whose lines give a record of this class. *)
Definition tag_of (r : record) : OutputType :=
  match r with
  | RMessage _ | RErrorMessage _ => MSG
  | RTitles _ => TCOUNT
  | RCInfo _ => CINFO
  | RTInfo _ => TINFO
  | RSInfo _ => SINFO
  | RProgressBarValues _ => PRGV
  | RProgressBarCurrent _ => PRGC
  | RProgressBarTotal _ => PRGT
  | RDrive _ => DRV
  end.

(** ** Vocabulary for lines in the documented wire shape *)

(** The characters a string that [int] accepts is made of. *)
Definition int_char (c : ascii) : bool :=
  Py.is_space c || Ascii.eqb c "+" || Ascii.eqb c "-" || Ascii.eqb c "_"
  || match Py.digit c with Some _ => true | None => false end.

Definition is_comma (c : ascii) : bool := Ascii.eqb c ",".

(** The payload [f1,f2,...,fn,tail]. *)
Definition payload (fields : list string) (tail : string) : string :=
  fold_right (fun f acc => f ++ "," ++ acc) tail fields.

(** The quoted end of a MSG payload: the pieces, each in double quotes,
    separated by commas. *)
Definition quoted_list (pieces : list string) : string :=
  quote ++ Py.join quote_comma_quote pieces ++ quote.

(** ** Vocabulary for the sequence of commits *)

(** The title ids of the title and stream records, in stream order. *)
Definition titles (msgs : list record) : list Z :=
  flat_map (fun m => match title_of m with Some t => [t] | None => [] end)
           msgs.

(** A list with each run of equal neighbours replaced by one of them. *)
Fixpoint dedup_adjacent (l : list Z) : list Z :=
  match l with
  | a :: (b :: _) as rest =>
      if a =? b then dedup_adjacent rest else a :: dedup_adjacent rest
  | _ => l
  end.

(** The title ids handed to [put_track], in call order. *)
Definition committed (calls : list db_call) : list Z :=
  flat_map (fun c => match c with
                     | put_track t _ _ _ _ _ _ => [t]
                     | database_updater_no_of_titles _ => []
                     end) calls.

(** The title that is pending in a state, as a list. *)
Definition pending {float : Type} (self : TrackInfoProcessor float) : list Z :=
  match track_id self with Some t => [t] | None => [] end.

Definition is_titled (m : record) : bool :=
  match title_of m with Some _ => true | None => false end.

Definition is_put_track (c : db_call) : bool :=
  match c with
  | put_track _ _ _ _ _ _ _ => true
  | database_updater_no_of_titles _ => false
  end.

(** [m] does not declare a video stream. *)
Definition no_video (m : record) : bool :=
  match m with
  | RSInfo s =>
      negb ((sinfo_id s =? StreamID.TYPE)
            && (sinfo_code s =? MAKEMKV_STREAM_CODE_TYPE_VIDEO))
  | _ => true
  end.

(** The stream type is not video and aspect and frame rate are at their
    defaults; a [put_track] call with these two fields at their defaults. *)
Definition no_video_seen {float : Type} (float_zero : float)
           (self : TrackInfoProcessor float) : Prop :=
  stream_type self <> Some MAKEMKV_STREAM_CODE_TYPE_VIDEO
  /\ aspect self = EmptyString /\ fps self = float_zero.

Definition plain_video_fields {float : Type} (float_zero : float)
           (str_of_float : float -> string) (c : db_call) : Prop :=
  match c with
  | put_track _ _ a f _ _ _ =>
      a = EmptyString /\ f = str_of_float float_zero
  | database_updater_no_of_titles _ => True
  end.

(** ** get_drives *)

(** How the generator [get_drives] finishes: like [makemkv_info], or with the
    AttributeError of a record that has no [attached] attribute. *)
Inductive drives_outcome : Type :=
| drives_end (o : outcome)
| drives_AttributeError (r : record).

(** The loop [for drive in ...: if drive.attached: yield drive]. *)
Fixpoint attached_drives (records : list record)
  : list Drive * option record :=
  match records with
  | [] => ([], None)
  | RDrive drive :: rest =>
      let (drives, bad) := attached_drives rest in
      (if drv_attached drive then drive :: drives else drives, bad)
  | r :: _ => ([], Some r)
  end.

Definition get_drives (fuel : nat) (config : Config) (running : nat -> Z)
           (which : option string) (proc : Process)
  : option (list sys_call * (list Drive * drives_outcome)) :=
  match makemkv_info fuel config running which
          (Some (OutputType_value DRV)) 9999 [] proc with
  | None => None
  | Some (calls, (records, ending)) =>
      let (drives, bad) := attached_drives records in
      Some (calls,
            (drives,
             match bad with
             | Some r => drives_AttributeError r
             | None => drives_end ending
             end))
  end.

(** ** get_track_info *)

(** The types [process_messages] selects. *)
Definition track_info_types : Z :=
  Z.lor (Z.lor (Z.lor (OutputType_value CINFO) (OutputType_value SINFO))
           (OutputType_value TCOUNT)) (OutputType_value TINFO).

(** [get_track_info(index, job)]: a fresh processor run over the info query
    of disc [index]; the calls of the query and those to the database. *)
Definition get_track_info (float : Type) (float_of_str : string -> option float)
           (float_zero : float) (str_of_float : float -> string)
           (fuel : nat) (config : Config) (running : nat -> Z)
           (which : option string) (index : Z) (proc : Process)
  : option (list sys_call
            * eff db_call (TrackInfoProcessor float)) :=
  match makemkv_info fuel config running which (Some track_info_types)
          index [] proc with
  | None => None
  | Some (calls, produced) =>
      Some (calls,
            process_messages float float_of_str float_zero str_of_float
              (TrackInfoProcessor_init float float_zero) produced)
  end.

(** ** manual_wait *)

Inductive wait_call : Type :=
| notify (title body : string)
| wait_sleep (secs : Z)
| refresh_job.

(** The format [{i}] of a natural number. *)
Definition format_nat (i : nat) : string :=
  NilZero.string_of_uint (Nat.to_uint i).

(** The passes of [for i in range(wait_time, 0, -1)] from [i] down to 1.
    [manual_start k] is the truth value of [job.manual_start] after the
    [k]-th refresh, counted from 0. *)
Fixpoint manual_wait_loop (manual_start : nat -> bool) (wait_time i : nat)
  : list wait_call * bool :=
  match i with
  | O => ([], false)
  | S j =>
      if manual_start (wait_time - i)%nat
      then ([wait_sleep 60; refresh_job;
             notify "The Wait is Over"
               "Thanks for not forgetting me, I am now processing your job."],
            true)
      else
        let reminder :=
          if ((i mod 5 =? 0) && negb (i =? wait_time))%nat
          then [notify "Waiting for input on job!"
                  ("Don't forget me, I need your help to continue doing ARM things!. You have "
                   ++ format_nat i ++ " minutes.")]
          else [] in
        let last_call :=
          if (i =? 1)%nat
          then [notify "Waiting for input on job!"
                  "ARM is about to cancel this job!!! You have less than 1 minute left!"]
          else [] in
        let (calls, user_ready) := manual_wait_loop manual_start wait_time j in
        (([wait_sleep 60; refresh_job] ++ reminder ++ last_call ++ calls)%list,
         user_ready)
  end.

Definition manual_wait (manual_start : nat -> bool) : list wait_call * bool :=
  let wait_time := 30%nat in
  let (calls, user_ready) := manual_wait_loop manual_start wait_time wait_time in
  (notify "Manual Mode Activated!"
     ("ARM has taken it's hands off the wheels. You have "
      ++ format_nat wait_time ++ " minutes to set the job.") :: calls,
   user_ready).

(** The seconds slept and the notifications sent in a list of calls. *)
Definition slept (calls : list wait_call) : Z :=
  fold_right (fun c acc => match c with wait_sleep s => s + acc | _ => acc end)
             0 calls.

Definition notifications (calls : list wait_call) : list (string * string) :=
  flat_map (fun c => match c with notify t b => [(t, b)] | _ => [] end) calls.

(** ** process_single_tracks *)

(** A track of the job, as far as the function reads and writes it. *)
Record Track : Type := {
  trk_track_number : string;
  trk_length : Z;
  trk_filename : string;
  trk_process : bool
}.

Section process_single_tracks.

(** What the function takes from the job and its surroundings: the answer of
    [shutil.which], [shlex.split(job.config.MKV_ARGS)], the quoted progress
    log, the device path, the two length limits after [int()], and the
    process each command line starts. *)
Variable which : option string.
Variable mkv_args : list string.
Variable progress : string.
Variable devpath : string.
Variable minlength maxlength : Z.
Variable spawn : list string -> Process.

Definition single_track_cmd (track : Track) (rawpath : string) : list string :=
  (["mkv"] ++ mkv_args
   ++ [String.append "--progress=" progress; String.append "dev:" devpath;
       trk_track_number track; rawpath])%list.

(** The decision of the automatic mode on one track. *)
Definition auto_process (track : Track) : bool :=
  if trk_length track <? minlength then false
  else if trk_length track >? maxlength then false
  else true.

(** The loop over [job.tracks]: the tracks with their [process] flags as the
    loop leaves them, the command lines run, and the way the loop ends. *)
Fixpoint process_single_tracks (rawpath mode : string) (tracks : list Track)
  : list Track * list (list string) * outcome :=
  match tracks with
  | [] => ([], [], Returned)
  | track :: rest =>
      let track :=
        if String.eqb mode "auto"
        then {| trk_track_number := trk_track_number track;
                trk_length := trk_length track;
                trk_filename := trk_filename track;
                trk_process := auto_process track |}
        else track in
      if trk_process track
      then
        let cmd := single_track_cmd track rawpath in
        match snd (run which cmd (OutputType_value MSG) (spawn cmd)) with
        | Raised e => (track :: rest, [cmd], Raised e)
        | Returned =>
            let '(tracks', cmds, ending) :=
              process_single_tracks rawpath mode rest in
            (track :: tracks', cmd :: cmds, ending)
        end
      else
        let '(tracks', cmds, ending) :=
          process_single_tracks rawpath mode rest in
        (track :: tracks', cmds, ending)
  end.

End process_single_tracks.

(** ** Example data for the drive query *)

Definition example_drive_scan : Process :=
  {| stdout :=
       [nl ("DRV:0,2,999,1," ++ quoted "BD-RE" ++ "," ++ quoted "DISC"
            ++ "," ++ quoted "/dev/sr0");
        nl drv_fixture;
        nl "TCOUNT:0"];
     exit_status := 0 |}.

(** The attached drives among the records of a list. *)
Definition attached_among (records : list record) : list Drive :=
  flat_map (fun r => match r with
                     | RDrive d => if drv_attached d then [d] else []
                     | _ => []
                     end) records.

(** ** Example data for the title query *)

Definition example_title_scan (status : Z) : Process :=
  {| stdout :=
       [nl "TCOUNT:2";
        nl ("TINFO:" ++ payload ["0"; "9"; "0"] (quoted "1:00:00"));
        nl ("SINFO:" ++ payload ["0"; "0"; "1"; "6201"] (quoted "Video"));
        nl ("TINFO:" ++ payload ["1"; "27"; "0"] (quoted "title_t01.mkv"))];
     exit_status := status |}.

(** ** Vocabulary for the manual wait *)

Definition activated : string * string :=
  ("Manual Mode Activated!",
   "ARM has taken it's hands off the wheels. You have 30 minutes to set the job.").

Definition reminder (i : nat) : string * string :=
  ("Waiting for input on job!",
   "Don't forget me, I need your help to continue doing ARM things!. You have "
   ++ format_nat i ++ " minutes.").

Definition last_warning : string * string :=
  ("Waiting for input on job!",
   "ARM is about to cancel this job!!! You have less than 1 minute left!").

Definition wait_is_over : string * string :=
  ("The Wait is Over",
   "Thanks for not forgetting me, I am now processing your job.").

(** ** Vocabulary for the single tracks *)

(** The track as the loop of [process_single_tracks] leaves it. *)
Definition decided (minlength maxlength : Z) (mode : string) (track : Track)
  : Track :=
  if String.eqb mode "auto"
  then {| trk_track_number := trk_track_number track;
          trk_length := trk_length track;
          trk_filename := trk_filename track;
          trk_process := auto_process minlength maxlength track |}
  else track.

(** The process started for a track ends the runner normally. *)
Definition rips (which : option string) (spawn : list string -> Process)
           (cmd : list string) : bool :=
  match snd (run which cmd (OutputType_value MSG) (spawn cmd)) with
  | Returned => true
  | Raised _ => false
  end.

Definition example_tracks : list Track :=
  [{| trk_track_number := "0"; trk_length := 30; trk_filename := "a.mkv";
      trk_process := true |};
   {| trk_track_number := "1"; trk_length := 600; trk_filename := "b.mkv";
      trk_process := false |};
   {| trk_track_number := "2"; trk_length := 7200; trk_filename := "c.mkv";
      trk_process := false |}].

(** A tool that fails on title 2 and succeeds on the others. *)
Definition example_spawn (cmd : list string) : Process :=
  {| stdout := [];
     exit_status := if existsb (String.eqb "2") cmd then 1 else 0 |}.

(** ** progress_log *)

(** [os.path.join] of two POSIX paths. *)
Definition os_path_join (path b : string) : string :=
  if prefix "/" b then b
  else if String.eqb path "" || last_is (Ascii.eqb "/") path then path ++ b
  else path ++ "/" ++ b.

(** The characters [shlex.quote] takes as safe: ASCII letters, digits,
    the underscore and [@%+=:,./-]. *)
Definition shlex_safe (c : ascii) : bool :=
  let n := nat_of_ascii c in
  ((48 <=? n) && (n <=? 57))%nat
  || ((65 <=? n) && (n <=? 90))%nat
  || ((97 <=? n) && (n <=? 122))%nat
  || Py.mem_char c "_@%+=:,./-".

(** The replacement of every single quote by a closing single quote, a single
    quote between double quotes, and an opening single quote. *)
Fixpoint escape_squotes (s : string) : string :=
  match s with
  | EmptyString => EmptyString
  | String c rest =>
      if Ascii.eqb c "'"
      then "'" ++ quote ++ "'" ++ quote ++ "'" ++ escape_squotes rest
      else String c (escape_squotes rest)
  end.

Definition shlex_quote (s : string) : string :=
  if String.eqb s "" then "''"
  else if all_chars shlex_safe s then s
  else "'" ++ escape_squotes s ++ "'".

(** [progress_log(job)] from [job.config.LOGPATH] and [job.job_id]. *)
Definition progress_log (LOGPATH : string) (job_id : Z)
  : list log_entry * string :=
  let logfile :=
    os_path_join (os_path_join LOGPATH "progress")
                 (format_d job_id ++ ".log") in
  ([(DEBUG, "logging progress to '" ++ logfile ++ "'")],
   shlex_quote logfile).

(** ** setup_rawpath *)

(** How [setup_rawpath] ends: with the path it returns, or with the OSError
    it raises. *)
Inductive path_outcome : Type :=
| path_returned (raw_path : string)
| path_OSError (err : string).

Definition cannot_create (raw_path : string) : string :=
  "Couldn't create the base file path: " ++ raw_path
  ++ ". Probably a permissions error".

(** [setup_rawpath(job, raw_path)] over a file system that answers
    [os.path.exists] by [path_exists] and in which [os.makedirs] succeeds on
    the paths of [can_create] and raises OSError on the others.  The result
    holds the log, the paths handed to [os.makedirs] and the ending. *)
Definition setup_rawpath (path_exists can_create : string -> bool)
           (RAW_PATH title stage raw_path : string)
  : list log_entry * list string * path_outcome :=
  let destination := (INFO, "Destination is " ++ raw_path) in
  if negb (path_exists raw_path)
  then
    if can_create raw_path
    then ([destination], [raw_path], path_returned raw_path)
    else ([destination; (ERROR, cannot_create raw_path)], [raw_path],
          path_returned raw_path)
  else
    let stamped := os_path_join RAW_PATH (title ++ "_" ++ stage) in
    let logs :=
      [destination;
       (INFO, raw_path ++ " exists.  Adding timestamp.");
       (INFO, "raw_path is " ++ stamped)] in
    if can_create stamped
    then (logs, [stamped], path_returned stamped)
    else (logs, [stamped], path_OSError (cannot_create stamped)).

(** * Properties *)

(** ** Strings *)

Lemma append_nil_r (s : string) : s ++ EmptyString = s.
Proof. induction s as [|c s IH]; simpl; [reflexivity | now rewrite IH]. Qed.

Lemma append_assoc (a b c : string) : (a ++ b) ++ c = a ++ (b ++ c).
Proof. induction a as [|x a IH]; simpl; [reflexivity | now rewrite IH]. Qed.

Lemma append_snoc (cur : string) (c : ascii) (rest : string) :
  (cur ++ String c EmptyString) ++ rest = cur ++ String c rest.
Proof. now rewrite append_assoc. Qed.

(** With no split left, the rest of the string is one piece. *)
Lemma split_go_exhausted (sep : string) (s cur : string) :
  Py.split_go sep 0 O cur s = [cur ++ s].
Proof.
  revert cur; induction s as [|c rest IH]; intros cur; simpl.
  - now rewrite append_nil_r.
  - now rewrite IH, append_snoc.
Qed.

Lemma prefix_nil (s : string) : prefix EmptyString s = true.
Proof. now destruct s. Qed.

Lemma prefix_char (a c : ascii) (rest : string) :
  prefix (String a EmptyString) (String c rest) = Ascii.eqb a c.
Proof.
  simpl. destruct (ascii_dec a c) as [->|n].
  - now rewrite prefix_nil, Ascii.eqb_refl.
  - symmetry. now apply Ascii.eqb_neq.
Qed.

(** Splitting at a one-character separator: the scan runs over a stretch
    free of the separator and cuts at the first occurrence. *)
Lemma split_go_char_cut (a : ascii) (pre : string) :
  forall (k : Z) (cur rest : string),
    Py.mem_char a pre = false -> k <> 0 ->
    Py.split_go (String a EmptyString) k O cur (pre ++ String a rest) =
    (cur ++ pre) :: Py.split_go (String a EmptyString) (k - 1) O EmptyString rest.
Proof.
  induction pre as [|c pre IH]; intros k cur rest Hfree Hk.
  - cbn [append Py.split_go]. rewrite prefix_char, Ascii.eqb_refl.
    destruct (Z.eqb_spec k 0) as [?|_]; [contradiction|].
    cbn. now rewrite append_nil_r.
  - cbn [Py.mem_char] in Hfree. apply orb_false_elim in Hfree as [Hc Hfree].
    cbn [append Py.split_go]. rewrite prefix_char, Hc, andb_false_r.
    rewrite IH by assumption. now rewrite append_snoc.
Qed.

Lemma split_go_char_free (a : ascii) (s : string) :
  forall (k : Z) (cur : string),
    Py.mem_char a s = false ->
    Py.split_go (String a EmptyString) k O cur s = [cur ++ s].
Proof.
  induction s as [|c s IH]; intros k cur Hfree.
  - cbn. now rewrite append_nil_r.
  - cbn [Py.mem_char] in Hfree. apply orb_false_elim in Hfree as [Hc Hfree].
    cbn [Py.split_go]. rewrite prefix_char, Hc, andb_false_r.
    rewrite IH by assumption. now rewrite append_snoc.
Qed.

Lemma contains_char (a : ascii) (pre rest : string) :
  Py.contains (String a EmptyString) (pre ++ String a rest) = true.
Proof.
  induction pre as [|c pre IH].
  - cbn [append Py.contains]. now rewrite prefix_char, Ascii.eqb_refl.
  - cbn [append Py.contains]. rewrite IH. apply orb_true_r.
Qed.

(** A line [tag:content] is cut at its first colon. *)
Lemma split_tag (tag content : string) :
  Py.mem_char ":" tag = false ->
  Py.split ":" 1 (tag ++ ":" ++ content) = [tag; content].
Proof.
  intros Hfree. unfold Py.split.
  change (tag ++ ":" ++ content) with (tag ++ String ":" content).
  rewrite split_go_char_cut by (assumption || discriminate).
  now rewrite split_go_exhausted.
Qed.

(** ** Drives *)

Lemma parse_line_DRV (content : string) :
  parse_line ("DRV:" ++ content) =
  (d <~ new_Drive (rev (parse_content content 4 2)) ;;
   ret (DRV, RDrive d)).
Proof.
  unfold parse_line.
  change ("DRV:" ++ content) with ("DRV" ++ String ":" content).
  rewrite contains_char.
  change ("DRV" ++ String ":" content) with ("DRV" ++ ":" ++ content).
  rewrite split_tag by reflexivity. reflexivity.
Qed.

(** The record and the log calls of [__post_init__], case by case. *)
Lemma Drive_post_init_spec mount disc info flags enabled visible index :
  Drive_post_init mount disc info flags enabled visible index
  = (undefined_values_log flags visible,
     drive_record mount disc info flags enabled visible index).
Proof.
  unfold Drive_post_init, DriveType_of, DriveVisible_of,
    undefined_values_log, drive_record.
  (destruct (Z.eqb_spec flags 0) as [->|];
   [|destruct (Z.eqb_spec flags 1) as [->|];
     [|destruct (Z.eqb_spec flags 12) as [->|];
       [|destruct (Z.eqb_spec flags 28) as [->|]]]]);
  (destruct (Z.eqb_spec visible 0) as [->|];
   [|destruct (Z.eqb_spec visible 1) as [->|];
     [|destruct (Z.eqb_spec visible 2) as [->|];
       [|destruct (Z.eqb_spec visible 3) as [->|];
         [|destruct (Z.eqb_spec visible 256) as [->|]]]]]);
  reflexivity.
Qed.

Lemma new_Drive_Ok (args : list string) (logs : list log_entry) (d : Drive) :
  new_Drive args = (logs, Ok d) ->
  exists mount disc info flags enabled visible index f e v i,
    args = [mount; disc; info; flags; enabled; visible; index]
    /\ Py.int flags = Some f /\ Py.int enabled = Some e
    /\ Py.int visible = Some v /\ Py.int index = Some i
    /\ logs = undefined_values_log f v
    /\ d = drive_record mount disc info f (e =? MAKEMKV_UNKNOWN_DRV) v i.
Proof.
  destruct args as [|mount [|disc [|info [|flags [|enabled [|visible
    [|index [|extra args]]]]]]]]; try discriminate.
  unfold new_Drive, to_int, lift.
  destruct (Py.int flags) as [f|] eqn:Hf; cbn [ebind]; [|discriminate].
  destruct (Py.int enabled) as [e|] eqn:He; cbn [ebind]; [|discriminate].
  destruct (Py.int visible) as [v|] eqn:Hv; cbn [ebind]; [|discriminate].
  destruct (Py.int index) as [i|] eqn:Hi; cbn [ebind]; [|discriminate].
  rewrite Drive_post_init_spec. cbn [app]. intros [= <- <-].
  now exists mount, disc, info, flags, enabled, visible, index, f, e, v, i.
Qed.

Lemma new_Drive_ints (mount disc info flags enabled visible index : string)
      (f e v i : Z) :
  Py.int flags = Some f -> Py.int enabled = Some e ->
  Py.int visible = Some v -> Py.int index = Some i ->
  new_Drive [mount; disc; info; flags; enabled; visible; index] =
  (undefined_values_log f v,
   Ok (drive_record mount disc info f (e =? MAKEMKV_UNKNOWN_DRV) v i)).
Proof.
  intros Hf He Hv Hi. unfold new_Drive, to_int, lift.
  rewrite Hf, He, Hv, Hi. cbn [ebind]. now rewrite Drive_post_init_spec.
Qed.



(** C6, as the claim words it, fails: the fixture line, whose flags field is
    0, and a line with the undocumented flags value 5 both decode to a drive
    whose medium is CD, not Unknown. *)
Lemma C6_counterexample :
  (exists d, parse_line drv_fixture = ([], Ok (DRV, RDrive d))
             /\ drv_attached d = false
             /\ media_kind d = Media_CD /\ media_kind d <> Media_Unknown)
  /\ (exists d, parse_line ("DRV:0,2,999,5," ++ quoted "drive" ++ ","
                            ++ quoted "disc" ++ "," ++ quoted "/dev/sr0")
                = ([(DEBUG, "Undefined Drive Type 5 in <enum 'DriveType'>")],
                   Ok (DRV, RDrive d))
                /\ media_kind d = Media_CD /\ media_kind d <> Media_Unknown).
Proof.
  split; eexists; (split; [vm_compute; reflexivity|]); cbn;
    repeat split; discriminate.
Qed.

(** C6, amended: a DRV line with seven fields whose four numeric fields read
    as integers decodes without raising, whatever the integers are.  A
    visible value other than 0, 1, 2, 3 (256 or not) gives attached = False
    with loaded and open False; a flags value other than 0, 1, 12, 28 is
    taken as CD (media_cd = True, the other two False), so no drive is of
    an unknown medium; the six derived fields are a function of flags and
    visible alone, written out here; the only log calls are one debug call
    for a flags value that is no member of DriveType and one for a visible
    value that is no member of DriveVisible, in that order; the fixture line
    decodes, with no log call, to attached = False and media_cd = True. *)
Theorem C6_drive_decode (content index visible enabled flags name disc mount : string)
        (i v e f : Z) :
  parse_content content 4 2 = [index; visible; enabled; flags; name; disc; mount] ->
  Py.int index = Some i -> Py.int visible = Some v ->
  Py.int enabled = Some e -> Py.int flags = Some f ->
  exists d,
    parse_line ("DRV:" ++ content)
    = (undefined_values_log f v, Ok (DRV, RDrive d))
    /\ drv_visible d = v /\ drv_flags d = f
    /\ derived d
       = ((v =? 2) || (v =? 3), v =? 1,
          (v =? 0) || (v =? 1) || (v =? 2) || (v =? 3),
          negb ((f =? 1) || (f =? 12) || (f =? 28)), f =? 1,
          (f =? 12) || (f =? 28))
    /\ (v <> 0 -> v <> 1 -> v <> 2 -> v <> 3 ->
        drv_attached d = false /\ drv_loaded d = false /\ drv_open d = false)
    /\ (f <> 0 -> f <> 1 -> f <> 12 -> f <> 28 ->
        drv_media_cd d = true /\ drv_media_dvd d = false
        /\ drv_media_bd d = false)
    /\ media_kind d <> Media_Unknown
    /\ (exists d0, parse_line drv_fixture = ([], Ok (DRV, RDrive d0))
                   /\ drv_visible d0 = 256 /\ drv_attached d0 = false
                   /\ drv_media_cd d0 = true).
Proof.
  intros Htok Hi Hv He Hf.
  exists (drive_record mount disc name f (e =? MAKEMKV_UNKNOWN_DRV) v i).
  split.
  { rewrite parse_line_DRV, Htok. cbn [rev app].
    rewrite (new_Drive_ints _ _ _ _ _ _ _ f e v i) by assumption.
    cbn [ebind ret]. now rewrite app_nil_r. }
  split; [reflexivity|]. split; [reflexivity|]. split; [reflexivity|].
  cbn [drive_record drv_attached drv_loaded drv_open drv_media_cd
       drv_media_dvd drv_media_bd].
  split.
  { intros H0 H1 H2 H3. apply Z.eqb_neq in H0, H1, H2, H3.
    now rewrite H0, H1, H2, H3. }
  split.
  { intros _ H1 H12 H28. apply Z.eqb_neq in H1, H12, H28.
    now rewrite H1, H12, H28. }
  split.
  { unfold media_kind.
    cbn [drive_record drv_media_cd drv_media_dvd drv_media_bd].
    destruct (f =? 1); [discriminate|].
    destruct (f =? 12); [discriminate|].
    destruct (f =? 28); discriminate. }
  eexists. split; [vm_compute; reflexivity|]. now cbn.
Qed.

Lemma C6_drive_decode_witness :
  exists d,
    parse_line ("DRV:3,77,999,5," ++ quoted "drive" ++ "," ++ quoted "disc"
                ++ "," ++ quoted "/dev/sr0")
    = ([(DEBUG, "Undefined Drive Type 5 in <enum 'DriveType'>");
        (DEBUG, "Undefined Visible Value 77 in <enum 'DriveVisible'>")],
       Ok (DRV, RDrive d))
    /\ drv_attached d = false /\ drv_media_cd d = true.
Proof.
  destruct (C6_drive_decode
              ("3,77,999,5," ++ quoted "drive" ++ "," ++ quoted "disc"
               ++ "," ++ quoted "/dev/sr0")
              "3" "77" "999" "5" "drive" "disc" "/dev/sr0" 3 77 999 5)
    as (d & Hline & _ & _ & _ & Hv & Hf & _);
    try (vm_compute; reflexivity).
  exists d. split; [exact Hline|]. split.
  - apply Hv; discriminate.
  - apply Hf; discriminate.
Defined.

(** ** Error messages *)

Lemma new_MakeMKVErrorMessage_params (data : MakeMKVMessage)
      (t p0 : string) (rest : list string) :
  msg_sprintf data = t :: p0 :: rest ->
  new_MakeMKVErrorMessage data =
  Ok {| err_code := msg_code data; err_flags := msg_flags data;
        err_count := msg_count data; err_message := msg_message data;
        err_sprintf := rest; err_error := p0 |}.
Proof. intros H. unfold new_MakeMKVErrorMessage. now rewrite H. Qed.

(** C7, as the claim words it, fails: a message with the template and one
    single parameter has fewer than two parameters, and the error message is
    built from it all the same. *)
Lemma C7_counterexample :
  let data := {| msg_code := 5055; msg_flags := 0; msg_count := 1;
                 msg_message := "Evaluation period has expired";
                 msg_sprintf := ["%1"; "Evaluation period has expired"] |} in
  (List.length (params data) < 2)%nat
  /\ new_MakeMKVErrorMessage data =
     Ok {| err_code := 5055; err_flags := 0; err_count := 1;
           err_message := "Evaluation period has expired";
           err_sprintf := [];
           err_error := "Evaluation period has expired" |}
  /\ ~ (forall d : MakeMKVMessage,
          (List.length (params d) < 2)%nat ->
          exists e, new_MakeMKVErrorMessage d = Raise e).
Proof.
  cbn zeta. split; [cbn; lia|]. split; [reflexivity|].
  intros H.
  destruct (H {| msg_code := 5055; msg_flags := 0; msg_count := 1;
                 msg_message := "Evaluation period has expired";
                 msg_sprintf := ["%1"; "Evaluation period has expired"] |})
    as [e He]; [cbn; lia | discriminate He].
Qed.

(** C7, amended: an error message is built from a message exactly when its
    [sprintf] list, the template followed by the parameters, has at least two
    entries, that is when there is at least one parameter.  With a shorter
    list the construction raises ValueError.  When it succeeds, the error
    text is the first parameter, the remaining parameters are kept (the
    template is dropped), and the other fields are copied. *)
Theorem C7_error_message_construction (data : MakeMKVMessage) :
  ((List.length (msg_sprintf data) < 2)%nat ->
   new_MakeMKVErrorMessage data = Raise ValueError)
  /\ (forall e, new_MakeMKVErrorMessage data = Ok e ->
      (2 <= List.length (msg_sprintf data))%nat
      /\ (1 <= List.length (params data))%nat)
  /\ (forall t p0 rest,
        template data = Some t -> params data = p0 :: rest ->
        new_MakeMKVErrorMessage data =
        Ok {| err_code := msg_code data; err_flags := msg_flags data;
              err_count := msg_count data; err_message := msg_message data;
              err_sprintf := rest; err_error := p0 |}).
Proof.
  unfold template, params. split; [|split].
  - intros H. unfold new_MakeMKVErrorMessage.
    apply Nat.ltb_lt in H. now rewrite H.
  - intros e. unfold new_MakeMKVErrorMessage.
    destruct (Nat.ltb_spec (List.length (msg_sprintf data)) 2) as [|Hge];
      [discriminate|].
    intros _. split; [exact Hge|].
    destruct (msg_sprintf data) as [|t [|p0 rest]]; cbn in *; lia.
  - intros t p0 rest Ht Hp. apply new_MakeMKVErrorMessage_params with (t := t).
    destruct (msg_sprintf data) as [|t' l]; [discriminate|].
    cbn in Ht, Hp. now injection Ht as ->; subst l.
Qed.

Lemma C7_error_message_construction_witness :
  new_MakeMKVErrorMessage
    {| msg_code := 5080; msg_flags := 0; msg_count := 0;
       msg_message := "Backup failed"; msg_sprintf := ["Backup failed"] |}
  = Raise ValueError
  /\ new_MakeMKVErrorMessage
       {| msg_code := 2003; msg_flags := 0; msg_count := 2;
          msg_message := "Error"; msg_sprintf := ["%1 %2"; "a"; "b"] |}
     = Ok {| err_code := 2003; err_flags := 0; err_count := 2;
             err_message := "Error"; err_sprintf := ["b"]; err_error := "a" |}.
Proof.
  split.
  - apply (C7_error_message_construction
             {| msg_code := 5080; msg_flags := 0; msg_count := 0;
                msg_message := "Backup failed";
                msg_sprintf := ["Backup failed"] |}).
    cbn. lia.
  - apply (C7_error_message_construction
             {| msg_code := 2003; msg_flags := 0; msg_count := 2;
                msg_message := "Error"; msg_sprintf := ["%1 %2"; "a"; "b"] |})
      with (t := "%1 %2"); reflexivity.
Defined.

(** ** The message checker *)

Lemma read_error_params (data : MakeMKVMessage) (t p0 : string)
      (rest : list string) :
  msg_sprintf data = t :: p0 :: rest ->
  read_error data =
  (read_error_logs data p0,
   Ok (RErrorMessage
         {| err_code := msg_code data; err_flags := msg_flags data;
            err_count := msg_count data; err_message := msg_message data;
            err_sprintf := rest; err_error := p0 |})).
Proof.
  intros H. unfold read_error, read_error_logs, sprintf_1.
  rewrite (new_MakeMKVErrorMessage_params data t p0 rest H), H. cbn.
  destruct (READ_ERROR_MAP_get p0) as [log_func [note|]]; cbn.
  - now destruct note.
  - reflexivity.
Qed.




(** ** The tokenizer *)

Lemma lstrip_by_spec (p : ascii -> bool) (s : string) :
  exists l, s = l ++ Py.lstrip_by p s
            /\ all_chars p l = true
            /\ first_is p (Py.lstrip_by p s) = false.
Proof.
  induction s as [|c s (l & Hs & Hl & Hfirst)].
  - now exists EmptyString.
  - cbn [Py.lstrip_by]. destruct (p c) eqn:Hc.
    + exists (String c l). cbn. now rewrite <- Hs, Hc, Hl.
    + exists EmptyString. cbn. now rewrite Hc.
Qed.

Lemma rstrip_by_spec (p : ascii -> bool) (s : string) :
  exists r, s = Py.rstrip_by p s ++ r
            /\ all_chars p r = true
            /\ last_is p (Py.rstrip_by p s) = false
            /\ (first_is p s = false -> first_is p (Py.rstrip_by p s) = false).
Proof.
  induction s as [|c s (r & Hs & Hr & Hlast & Hfirst)].
  - now exists EmptyString.
  - cbn [Py.rstrip_by]. destruct (Py.rstrip_by p s) as [|d t] eqn:Ht.
    + cbn [append] in Hs. subst r. destruct (p c) eqn:Hc.
      * exists (String c s). cbn. now rewrite Hc, Hr.
      * exists s. cbn. now rewrite Hc.
    + exists r. cbn [append first_is]. rewrite Hs at 1.
      split; [reflexivity|]. split; [assumption|].
      split; [exact Hlast | trivial].
Qed.

(** [strip] takes off every leading and every trailing character of the
    set, and nothing else. *)
Lemma strip_spec (chars s : string) :
  exists l r,
    s = l ++ Py.strip chars s ++ r
    /\ all_chars (fun c => Py.mem_char c chars) l = true
    /\ all_chars (fun c => Py.mem_char c chars) r = true
    /\ first_is (fun c => Py.mem_char c chars) (Py.strip chars s) = false
    /\ last_is (fun c => Py.mem_char c chars) (Py.strip chars s) = false.
Proof.
  unfold Py.strip.
  destruct (lstrip_by_spec (fun c => Py.mem_char c chars) s)
    as (l & Hs & Hl & Hfirst).
  destruct (rstrip_by_spec (fun c => Py.mem_char c chars)
              (Py.lstrip_by (fun c => Py.mem_char c chars) s))
    as (r & Ht & Hr & Hlast & Hkeep).
  exists l, r. rewrite <- Ht.
  split; [exact Hs|]. split; [exact Hl|]. split; [exact Hr|].
  split; [now apply Hkeep | exact Hlast].
Qed.

Lemma drop_append (u s : string) : drop (String.length u) (u ++ s) = s.
Proof. induction u as [|c u IH]; [reflexivity | exact IH]. Qed.

Lemma prefix_split (sep s : string) :
  prefix sep s = true -> exists s', s = sep ++ s'.
Proof.
  revert s; induction sep as [|a sep IH]; intros s H.
  - now exists s.
  - destruct s as [|c s]; [discriminate|]. cbn in H.
    destruct (ascii_dec a c) as [->|]; [|discriminate].
    destruct (IH s H) as [s' ->]. now exists s'.
Qed.

Lemma split_go_nonempty (sep : string) (s : string) :
  forall k n cur, Py.split_go sep k n cur s <> [].
Proof.
  induction s as [|c s IH]; intros k n cur; cbn [Py.split_go].
  - discriminate.
  - destruct n; [|apply IH].
    destruct (negb (k =? 0) && prefix sep (String c s)); [discriminate|].
    apply IH.
Qed.

Lemma join_cons (sep p : string) (rest : list string) :
  rest <> [] -> Py.join sep (p :: rest) = p ++ sep ++ Py.join sep rest.
Proof. now destruct rest. Qed.

(** Joining the pieces with the separator gives the string back. *)
Lemma join_split_go (a : ascii) (sep' : string) (s : string) :
  forall k n cur,
    Py.join (String a sep') (Py.split_go (String a sep') k n cur s)
    = cur ++ drop n s.
Proof.
  induction s as [|c s IH]; intros k n cur; cbn [Py.split_go].
  - destruct n; cbn; now rewrite append_nil_r.
  - destruct n as [|n]; [|apply IH].
    destruct (negb (k =? 0) && prefix (String a sep') (String c s)) eqn:Hcut.
    + apply andb_prop in Hcut as [_ Hpre].
      apply prefix_split in Hpre as [s' Hs].
      rewrite join_cons by apply split_go_nonempty.
      rewrite IH. cbn [String.length Nat.pred drop].
      cbn in Hs. injection Hs as -> ->.
      now rewrite drop_append.
    + rewrite IH. cbn [drop]. apply append_snoc.
Qed.

Lemma join_split (a : ascii) (sep' : string) (k : Z) (s : string) :
  Py.join (String a sep') (Py.split (String a sep') k s) = s.
Proof. unfold Py.split. now rewrite join_split_go. Qed.

(** A non-negative [maxsplit] bounds the number of cuts. *)
Lemma split_go_length (sep : string) (s : string) :
  forall k n cur,
    0 <= k ->
    (List.length (Py.split_go sep k n cur s) <= Z.to_nat k + 1)%nat.
Proof.
  induction s as [|c s IH]; intros k n cur Hk; cbn [Py.split_go].
  - cbn. lia.
  - destruct n; [|now apply IH].
    destruct (Z.eqb_spec k 0) as [->|Hne]; cbn [negb andb].
    + now apply IH.
    + destruct (prefix sep (String c s)); [|now apply IH].
      cbn [List.length]. specialize (IH (k - 1) (Nat.pred (String.length sep))
                                        EmptyString).
      lia.
Qed.

Lemma prefix_append (sep u v : string) :
  prefix sep u = true -> prefix sep (u ++ v) = true.
Proof.
  revert u; induction sep as [|a sep IH]; intros u H.
  - apply prefix_nil.
  - destruct u as [|c u]; [discriminate|]. cbn in *.
    destruct (ascii_dec a c); [now apply IH | discriminate].
Qed.

Lemma contains_false (sep s : string) :
  (forall i, prefix sep (drop i s) = false) -> Py.contains sep s = false.
Proof.
  induction s as [|c s IH]; intros H; pose proof (H O) as H0;
    cbn [drop] in H0; cbn [Py.contains]; rewrite H0; cbn [orb].
  - reflexivity.
  - apply IH. intros i. exact (H (S i)).
Qed.

Lemma drop_all (i : nat) (s : string) :
  (String.length s <= i)%nat -> drop i s = EmptyString.
Proof.
  revert i; induction s as [|c s IH]; intros i H.
  - now destruct i.
  - destruct i as [|i]; cbn in *; [lia | apply IH; lia].
Qed.

Lemma drop_snoc (i : nat) (cur : string) (c : ascii) :
  (i <= String.length cur)%nat ->
  drop i (cur ++ String c EmptyString) = drop i cur ++ String c EmptyString.
Proof.
  revert i; induction cur as [|d cur IH]; intros i H.
  - cbn in H. now replace i with O by lia.
  - destruct i as [|i]; [reflexivity|]. cbn in *. apply IH. lia.
Qed.

(** The cuts are the leftmost ones: no piece but the last contains the
    separator. *)
Lemma split_go_leftmost (a : ascii) (sep' : string) (s : string) :
  forall k n cur,
    (forall i, (i < String.length cur)%nat ->
               prefix (String a sep') (drop i cur ++ drop n s) = false) ->
    Forall (fun p => Py.contains (String a sep') p = false)
           (removelast (Py.split_go (String a sep') k n cur s)).
Proof.
  induction s as [|c s IH]; intros k n cur Hcur; cbn [Py.split_go].
  - constructor.
  - destruct n as [|n]; [|now apply IH].
    cbn [drop] in Hcur.
    destruct (Z.eqb_spec k 0) as [->|Hk]; cbn [negb andb].
    { rewrite split_go_exhausted. constructor. }
    destruct (prefix (String a sep') (String c s)) eqn:Hpre.
    + pose proof (split_go_nonempty (String a sep') s (k - 1)
                    (Nat.pred (String.length (String a sep'))) EmptyString)
        as Hne.
      destruct (Py.split_go (String a sep') (k - 1)
                  (Nat.pred (String.length (String a sep'))) EmptyString s)
        as [|p0 l] eqn:Hrest; [contradiction|].
      change (removelast (cur :: p0 :: l)) with (cur :: removelast (p0 :: l)).
      constructor.
      * apply contains_false. intros i.
        destruct (Nat.lt_ge_cases i (String.length cur)) as [Hlt|Hge].
        -- destruct (prefix (String a sep') (drop i cur)) eqn:Hp;
             [|reflexivity].
           apply prefix_append with (v := String c s) in Hp.
           now rewrite Hcur in Hp.
        -- now rewrite drop_all.
      * rewrite <- Hrest. apply IH. cbn. intros i Hi. lia.
    + apply IH. cbn [drop]. intros i Hi.
      assert (Hlen : String.length (cur ++ String c EmptyString)
                     = S (String.length cur)).
      { clear. induction cur; cbn; congruence. }
      rewrite Hlen in Hi.
      destruct (Nat.eq_dec i (String.length cur)) as [->|Hne].
      * rewrite drop_snoc by lia. rewrite drop_all by lia. exact Hpre.
      * rewrite drop_snoc by lia. rewrite append_snoc. apply Hcur. lia.
Qed.

Lemma split_leftmost (a : ascii) (sep' : string) (k : Z) (s : string) :
  Forall (fun p => Py.contains (String a sep') p = false)
         (removelast (Py.split (String a sep') k s)).
Proof. apply split_go_leftmost. cbn. intros i Hi. lia. Qed.

(** [split] makes the cuts of the specification, and no others. *)
Lemma split_go_skip (sep : string) (s : string) :
  forall k n cur,
    Py.split_go sep k n cur s = Py.split_go sep k O cur (drop n s).
Proof.
  induction s as [|c s IH]; intros k n cur.
  - now destruct n.
  - destruct n as [|n]; [reflexivity|]. cbn [Py.split_go drop]. apply IH.
Qed.

Lemma length_append (a b : string) :
  String.length (a ++ b) = (String.length a + String.length b)%nat.
Proof. induction a as [|c a IH]; cbn; [reflexivity | now rewrite IH]. Qed.

Lemma prefix_false_nil (a : ascii) (sep' : string) :
  prefix (String a sep') EmptyString = false.
Proof. reflexivity. Qed.

Lemma prefix_self (sep rest : string) : prefix sep (sep ++ rest) = true.
Proof.
  induction sep as [|a sep IH]; [apply prefix_nil|].
  cbn. destruct (ascii_dec a a); [exact IH | contradiction].
Qed.

Lemma split_go_cuts (a : ascii) (sep' : string) (n : nat) :
  forall s k cur,
    (String.length s <= n)%nat ->
    (forall i, (i < String.length cur)%nat ->
               prefix (String a sep') (drop i (cur ++ s)) = false) ->
    cuts (String a sep') k (cur ++ s)
         (Py.split_go (String a sep') k O cur s).
Proof.
  induction n as [|n IH]; intros s k cur Hlen Hcur.
  - destruct s; [|cbn in Hlen; lia]. cbn [Py.split_go].
    rewrite append_nil_r in *. apply cuts_end. right.
    apply contains_false. intros i.
    destruct (Nat.lt_ge_cases i (String.length cur)) as [Hlt|Hge];
      [now apply Hcur | now rewrite drop_all].
  - destruct s as [|c rest].
    { cbn [Py.split_go]. rewrite append_nil_r in *. apply cuts_end. right.
      apply contains_false. intros i.
      destruct (Nat.lt_ge_cases i (String.length cur)) as [Hlt|Hge];
        [now apply Hcur | now rewrite drop_all]. }
    cbn [Py.split_go].
    destruct (Z.eqb_spec k 0) as [->|Hk]; cbn [negb andb].
    { rewrite split_go_exhausted, append_snoc. apply cuts_end. now left. }
    destruct (prefix (String a sep') (String c rest)) eqn:Hpre.
    + rewrite split_go_skip.
      destruct (prefix_split _ _ Hpre) as [s' Hs].
      cbn [append] in Hs. injection Hs as -> ->.
      cbn [String.length Nat.pred]. rewrite drop_append.
      change (String a (sep' ++ s')) with (String a sep' ++ s').
      apply cuts_cut; [exact Hk|exact Hcur|].
      apply (IH s' (k - 1) EmptyString).
      * cbn [String.length] in Hlen. rewrite length_append in Hlen. lia.
      * cbn. intros i Hi. lia.
    + rewrite <- append_snoc. apply IH.
      * cbn [String.length] in Hlen. lia.
      * intros i Hi. rewrite length_append in Hi. cbn [String.length] in Hi.
        rewrite append_snoc.
        destruct (Nat.eq_dec i (String.length cur)) as [->|Hne].
        -- now rewrite drop_append.
        -- apply Hcur. lia.
Qed.

Lemma split_cuts (a : ascii) (sep' : string) (k : Z) (s : string) :
  cuts (String a sep') k s (Py.split (String a sep') k s).
Proof.
  apply (split_go_cuts a sep' (String.length s) s k EmptyString);
    [lia|]. cbn. intros i Hi. lia.
Qed.

Lemma split_go_free (sep : string) (s : string) :
  Py.contains sep s = false ->
  forall k cur, Py.split_go sep k O cur s = [cur ++ s].
Proof.
  induction s as [|c rest IH]; intros Hfree k cur; cbn [Py.split_go].
  - now rewrite append_nil_r.
  - cbn [Py.contains] in Hfree. apply orb_false_elim in Hfree as [Hpre Hrest].
    rewrite Hpre, andb_false_r. rewrite (IH Hrest). now rewrite append_snoc.
Qed.

Lemma split_go_uncut (sep : string) (p : string) :
  forall t k cur,
    (forall i, (i < String.length p)%nat ->
               prefix sep (drop i (p ++ t)) = false) ->
    Py.split_go sep k O cur (p ++ t) = Py.split_go sep k O (cur ++ p) t.
Proof.
  induction p as [|c p IH]; intros t k cur Hfree.
  - now rewrite append_nil_r.
  - cbn [append Py.split_go].
    pose proof (Hfree O ltac:(cbn; lia)) as H0. cbn [drop append] in H0.
    rewrite H0, andb_false_r.
    rewrite IH.
    + now rewrite append_snoc.
    + intros i Hi. apply (Hfree (S i)). cbn. lia.
Qed.

Lemma cuts_split (a : ascii) (sep' : string) (k : Z) (s : string)
      (pieces : list string) :
  cuts (String a sep') k s pieces -> pieces = Py.split (String a sep') k s.
Proof.
  induction 1 as [k s [->|Hfree]|k p rest pieces Hk Hleft _ IH].
  - unfold Py.split. now rewrite split_go_exhausted.
  - unfold Py.split. now rewrite split_go_free.
  - unfold Py.split. rewrite split_go_uncut by exact Hleft.
    cbn [append Py.split_go].
    change (String a (sep' ++ rest)) with (String a sep' ++ rest).
    rewrite prefix_self. apply Z.eqb_neq in Hk. rewrite Hk. cbn [negb andb].
    rewrite split_go_skip. cbn [String.length Nat.pred].
    rewrite drop_append. now rewrite IH.
Qed.

Lemma cuts_nonempty (sep : string) (k : Z) (s : string)
      (pieces : list string) :
  cuts sep k s pieces -> pieces <> [].
Proof. destruct 1; discriminate. Qed.

(** With count left (or no limit) no separator stays uncut. *)
Lemma cuts_all (sep : string) (k : Z) (s : string) (pieces : list string) :
  cuts sep k s pieces ->
  k < 0 \/ Z.of_nat (List.length pieces) <= k ->
  Py.contains sep (last pieces EmptyString) = false.
Proof.
  induction 1 as [k s [->|Hfree]|k p rest pieces Hk Hleft Hrest IH];
    intros Hcount.
  - cbn in Hcount. lia.
  - exact Hfree.
  - pose proof (cuts_nonempty _ _ _ _ Hrest) as Hne.
    destruct pieces as [|q pieces]; [contradiction|].
    change (last (p :: q :: pieces) EmptyString)
      with (last (q :: pieces) EmptyString).
    apply IH. cbn [List.length] in Hcount |- *. lia.
Qed.

(** C4, as the claim words it, fails: of a piece wrapped in two double quotes
    on each side the code strips both, where the claim strips one. *)
Lemma C4_counterexample :
  parse_content ("0," ++ quoted (quoted "x")) 1 0 = ["0"; "x"]
  /\ parse_content_spec ("0," ++ quoted (quoted "x")) 1 0 = ["0"; quoted "x"]
  /\ ~ (forall content num_header num_message,
          parse_content content num_header num_message
          = parse_content_spec content num_header num_message).
Proof.
  split; [reflexivity|]. split; [reflexivity|].
  intros H. specialize (H ("0," ++ quoted (quoted "x")) 1 0).
  vm_compute in H. discriminate H.
Qed.

(** C4, amended: the tokenizer cuts the payload at the leftmost commas, at
    most [num_header] of them, cuts the last of these pieces at the leftmost
    occurrences of quote-comma-quote, at most [num_message] of them (a
    negative count is no limit), and takes every leading and every trailing
    double quote off each of the latter pieces.  The cuts are made wherever
    the separator stands while the count lasts, and they are the only cuts
    that answer this description; so with a negative count no piece holds
    the separator.  The fixture line decodes to the message with code 1005,
    flags 0, count 1, the given text, the template and the one parameter. *)
Theorem C4_tokenizer (content : string) (num_header num_message : Z) :
  exists header tail pieces tokens,
    parse_content content num_header num_message = (header ++ tokens)%list
    /\ cuts "," num_header content (header ++ [tail])
    /\ (forall l, cuts "," num_header content l -> l = (header ++ [tail])%list)
    /\ cuts quote_comma_quote num_message tail pieces
    /\ (forall l, cuts quote_comma_quote num_message tail l -> l = pieces)
    /\ Forall2 stripped_of_quotes pieces tokens
    /\ Py.join "," (header ++ [tail]) = content
    /\ Forall (fun p => Py.contains "," p = false) header
    /\ (0 <= num_header -> (List.length header <= Z.to_nat num_header)%nat)
    /\ (num_header < 0 \/ Z.of_nat (List.length header) < num_header ->
        Py.contains "," tail = false)
    /\ Py.join quote_comma_quote pieces = tail
    /\ (0 <= num_message ->
        (List.length pieces <= Z.to_nat num_message + 1)%nat)
    /\ (num_message < 0 ->
        Forall (fun p => Py.contains quote_comma_quote p = false) pieces)
    /\ (exists m,
          parse_line msg_fixture = ([], Ok (MSG, RMessage m))
          /\ msg_code m = 1005 /\ msg_flags m = 0 /\ msg_count m = 1
          /\ msg_message m = "MakeMKV v1.17.8 linux(x64-release) started"
          /\ template m = Some "%1 started"
          /\ params m = ["MakeMKV v1.17.8 linux(x64-release)"]).
Proof.
  pose proof (split_cuts "," EmptyString num_header content) as Hheader.
  pose proof (split_go_nonempty "," content num_header O EmptyString) as Hne.
  fold (Py.split "," num_header content) in Hne.
  pose proof (app_removelast_last EmptyString Hne) as Hsplit.
  set (header := removelast (Py.split "," num_header content)) in *.
  set (tail := last (Py.split "," num_header content) EmptyString) in *.
  change quote_comma_quote with (String (ascii_of_nat 34) ("," ++ quote)).
  pose proof (split_cuts (ascii_of_nat 34) ("," ++ quote) num_message tail)
    as Hpieces.
  set (pieces := Py.split (String (ascii_of_nat 34) ("," ++ quote))
                   num_message tail) in *.
  exists header, tail, pieces, (map (Py.strip quote) pieces).
  split; [reflexivity|].
  split; [now rewrite <- Hsplit|].
  split; [intros l Hl; apply cuts_split in Hl; now rewrite Hl, <- Hsplit|].
  split; [exact Hpieces|].
  split; [intros l Hl; now apply cuts_split in Hl|].
  split.
  { generalize pieces. intros l.
    induction l as [|piece rest IH]; cbn [map]; constructor;
      [apply strip_spec | exact IH]. }
  split; [rewrite <- Hsplit; apply join_split|].
  split; [apply split_leftmost|].
  split.
  { intros H. pose proof (split_go_length "," content num_header O
                            EmptyString H) as Hlen.
    fold (Py.split "," num_header content) in Hlen.
    rewrite Hsplit, length_app in Hlen. cbn [List.length] in Hlen. lia. }
  split.
  { intros H. rewrite Hsplit in Hheader.
    apply cuts_all in Hheader.
    - now rewrite last_last in Hheader.
    - rewrite length_app. cbn [List.length]. lia. }
  split; [apply join_split|].
  split; [intros H; now apply split_go_length|].
  split.
  { intros H. pose proof (split_leftmost (ascii_of_nat 34) ("," ++ quote)
                            num_message tail) as Hinit.
    fold pieces in Hinit.
    pose proof (cuts_all _ _ _ _ Hpieces (or_introl H)) as Hlast.
    pose proof (cuts_nonempty _ _ _ _ Hpieces) as Hp.
    rewrite (app_removelast_last EmptyString Hp).
    apply Forall_app. split; [exact Hinit|]. now constructor. }
  eexists. split; [vm_compute; reflexivity|]. now cbn.
Qed.

Lemma C4_tokenizer_witness :
  Py.contains "," (last (Py.split "," 3 "1005,0") EmptyString) = false
  /\ Forall (fun p => Py.contains quote_comma_quote p = false)
            (Py.split quote_comma_quote (-1)
               (quoted "a" ++ "," ++ quoted "b,c" ++ "," ++ quoted "d")).
Proof.
  split.
  - destruct (C4_tokenizer "1005,0" 3 (-1))
      as (header & tail & pieces & tokens & _ & _ & Honly & _ & _ & _ & _
          & _ & _ & Hall & _).
    specialize (Honly _ (split_cuts "," EmptyString 3 "1005,0")).
    assert (Hh : header = ["1005"] /\ tail = "0").
    { vm_compute in Honly.
      destruct header as [|h [|h' header]]; cbn in Honly;
        try discriminate; [|destruct header; discriminate].
      injection Honly as <- <-. now split. }
    destruct Hh as [-> ->]. apply Hall. right. cbn. lia.
  - destruct (C4_tokenizer
                ("0," ++ quoted "a" ++ "," ++ quoted "b,c" ++ ","
                 ++ quoted "d") 1 (-1))
      as (header & tail & pieces & tokens & _ & _ & Honly & _ & Hpieces & _
          & _ & _ & _ & _ & _ & _ & Hneg & _).
    specialize (Honly _ (split_cuts "," EmptyString 1
                           ("0," ++ quoted "a" ++ "," ++ quoted "b,c" ++ ","
                            ++ quoted "d"))).
    assert (Ht : tail = quoted "a" ++ "," ++ quoted "b,c" ++ ","
                        ++ quoted "d").
    { vm_compute in Honly.
      destruct header as [|h [|h' header]]; cbn in Honly;
        try discriminate; [|destruct header; discriminate].
      injection Honly as _ <-. reflexivity. }
    subst tail.
    change quote_comma_quote with (String (ascii_of_nat 34) ("," ++ quote)).
    rewrite (Hpieces _ (split_cuts (ascii_of_nat 34) ("," ++ quote) (-1)
                             (quoted "a" ++ "," ++ quoted "b,c" ++ ","
                              ++ quoted "d"))).
    apply Hneg. lia.
Defined.

(** ** The stream runner *)

Lemma run_state_eta (st : run_state) :
  {| buffer := buffer st; yielded := yielded st; logged := logged st |} = st.
Proof. now destruct st. Qed.

(** When no line raises anything but MakeMkvParserError the loop reads all the
    lines: the unparsed ones are buffered, the selected records yielded. *)
Lemma run_loop_complete (select : Z) (lines : list string) :
  forall st,
    Forall (fun raw => is_aborting raw = false) lines ->
    run_loop select None lines st =
    ({| buffer := (buffer st ++ unparsed lines)%list;
        yielded := (yielded st ++ selected select lines)%list;
        logged := (logged st ++ checker_logs lines)%list |}, None).
Proof.
  induction lines as [|raw rest IH]; intros st Hok.
  - cbn. now rewrite !app_nil_r, run_state_eta.
  - inversion Hok as [|? ? Hraw Hrest]; subst.
    cbn [run_loop returncode_set].
    unfold unparsed, selected, checker_logs, is_aborting, is_unparsed in *.
    cbn [filter flat_map map]. unfold is_unparsed, decode in *.
    destruct (parse_line (Py.rstrip linesep raw)) as [logs [[msg_type data]|e]];
      cbn [fst snd] in *.
    + rewrite IH by assumption. cbn [buffer yielded logged].
      destruct (flag_in msg_type select);
        now rewrite <- ?app_assoc, ?app_nil_r.
    + destruct e; try discriminate.
      rewrite IH by assumption. cbn [buffer yielded logged map].
      now rewrite <- !app_assoc.
Qed.

(** A line that raises another exception ends the loop with it. *)
Lemma run_loop_aborts (select : Z) (lines : list string) :
  forall st,
    Exists (fun raw => is_aborting raw = true) lines ->
    exists st' e, run_loop select None lines st = (st', Some e).
Proof.
  induction lines as [|raw rest IH]; intros st Hex.
  - inversion Hex.
  - cbn [run_loop returncode_set].
    assert (Hcase : is_aborting raw = true
                    \/ Exists (fun raw => is_aborting raw = true) rest)
      by (inversion Hex; auto).
    clear Hex. revert Hcase. unfold is_aborting at 1, decode.
    destruct (parse_line (Py.rstrip linesep raw)) as [logs [[msg_type data]|e]];
      cbn [snd].
    + intros [|Hrest]; [discriminate | now apply IH].
    + destruct e; try (intros _; eexists; eexists; reflexivity).
      intros [|Hrest]; [discriminate | now apply IH].
Qed.

Lemma aborting_or_not (lines : list string) :
  Forall (fun raw => is_aborting raw = false) lines
  \/ Exists (fun raw => is_aborting raw = true) lines.
Proof.
  induction lines as [|raw rest [IH|IH]].
  - left. constructor.
  - destruct (is_aborting raw) eqn:H.
    + right. now constructor.
    + left. now constructor.
  - right. now constructor 2.
Qed.

Lemma decoded_not_aborting (raw : string) :
  is_decoded raw = true -> is_aborting raw = false.
Proof.
  unfold is_decoded, is_aborting. now destruct (snd (decode raw)).
Qed.

Lemma decoded_unparsed_aborting (raw : string) :
  is_decoded raw = negb (is_unparsed raw || is_aborting raw).
Proof.
  unfold is_decoded, is_unparsed, is_aborting.
  destruct (snd (decode raw)) as [r|e]; [reflexivity | now destruct e].
Qed.

Lemma unparsed_nil_iff (lines : list string) :
  Forall (fun raw => is_aborting raw = false) lines ->
  (unparsed lines = [] <-> Forall (fun raw => is_decoded raw = true) lines).
Proof.
  unfold unparsed. induction lines as [|raw rest IH]; intros Hok.
  - split; constructor.
  - inversion Hok as [|? ? Hraw Hrest]; subst. specialize (IH Hrest).
    cbn [filter].
    pose proof (decoded_unparsed_aborting raw) as Hdec.
    rewrite Hraw, orb_false_r in Hdec.
    destruct (is_unparsed raw); cbn [negb] in Hdec.
    + split; [discriminate|].
      intros H. inversion H; subst. congruence.
    + split.
      * intros H. constructor; [assumption | now apply IH].
      * intros H. inversion H; subst. now apply IH.
Qed.

(** The result of a run whose loop reads all the lines. *)
Lemma run_complete (which : option string) (options : list string)
      (select : Z) (proc : Process) :
  Forall (fun raw => is_aborting raw = false) (stdout proc) ->
  run which options select proc =
  (selected select (stdout proc),
   if negb (exit_status proc =? 0)
   then Raised (MakeMkvRuntimeError (exit_status proc)
                  (command which options)
                  (Py.join linesep (unparsed (stdout proc))))
   else match unparsed (stdout proc) with
        | _ :: _ =>
            Raised (MakeMkvRuntimeError (exit_status proc)
                      (command which options)
                      (Py.join linesep (unparsed (stdout proc))))
        | [] => Returned
        end).
Proof.
  intros Hok. unfold run. rewrite run_loop_complete by assumption.
  cbn [buffer yielded run_init app].
  destruct (negb (exit_status proc =? 0)); [reflexivity|].
  now destruct (unparsed (stdout proc)).
Qed.

(** C1, as the claim words it, fails: when a line raises an exception other
    than MakeMkvParserError, here the TypeError of a PRGV line with two
    fields, that exception leaves [run] and no MakeMkvRuntimeError is raised,
    whatever the exit status. *)
Lemma C1_counterexample :
  run None ["info"] (OutputType_value MSG)
      {| stdout := [nl "PRGV:1,2"]; exit_status := 1 |}
  = ([], Raised TypeError)
  /\ ~ (forall which options select proc,
          exit_status proc <> 0 ->
          exists output,
            snd (run which options select proc)
            = Raised (MakeMkvRuntimeError (exit_status proc)
                        (command which options) output)).
Proof.
  split; [vm_compute; reflexivity|].
  intros H.
  destruct (H None ["info"] (OutputType_value MSG)
              {| stdout := [nl "PRGV:1,2"]; exit_status := 1 |})
    as [output Hout]; [discriminate|].
  vm_compute in Hout. discriminate Hout.
Qed.

(** C1, amended: the run returns without raising exactly when the exit
    status is zero and every line decoded.  When no line raises an exception
    other than MakeMkvParserError (such an exception leaves [run] at that
    line): a non-zero exit status raises MakeMkvRuntimeError with the
    unparsed lines joined by the line separator as output, whatever was
    yielded; a zero exit status with a non-empty buffer of unparsed lines
    raises the same error with that buffer. *)
Theorem C1_run_outcome (which : option string) (options : list string)
        (select : Z) (proc : Process) :
  (snd (run which options select proc) = Returned <->
   exit_status proc = 0
   /\ Forall (fun raw => is_decoded raw = true) (stdout proc))
  /\ (Forall (fun raw => is_aborting raw = false) (stdout proc) ->
      fst (run which options select proc) = selected select (stdout proc)
      /\ (exit_status proc <> 0 ->
          snd (run which options select proc)
          = Raised (MakeMkvRuntimeError (exit_status proc)
                      (command which options)
                      (Py.join linesep (unparsed (stdout proc)))))
      /\ (exit_status proc = 0 -> unparsed (stdout proc) <> [] ->
          snd (run which options select proc)
          = Raised (MakeMkvRuntimeError 0 (command which options)
                      (Py.join linesep (unparsed (stdout proc)))))).
Proof.
  split.
  - destruct (aborting_or_not (stdout proc)) as [Hok|Hab].
    + rewrite run_complete by assumption. cbn [snd].
      pose proof (unparsed_nil_iff (stdout proc) Hok) as Hnil.
      destruct (Z.eqb_spec (exit_status proc) 0) as [Hz|Hnz]; cbn [negb].
      * destruct (unparsed (stdout proc)) as [|u us].
        -- split; [intros _; split; [assumption | now apply Hnil]
                  | reflexivity].
        -- split; [discriminate|].
           intros [_ Hall]. apply Hnil in Hall. discriminate.
      * split; [discriminate | intros [Hz _]; contradiction].
    + split.
      * destruct (run_loop_aborts select (stdout proc) run_init Hab)
          as (st' & e & Hloop).
        unfold run. rewrite Hloop. discriminate.
      * intros [_ Hall]. exfalso.
        apply Exists_exists in Hab as (raw & Hin & Hraw).
        rewrite Forall_forall in Hall. specialize (Hall raw Hin).
        apply decoded_not_aborting in Hall. congruence.
  - intros Hok. rewrite run_complete by assumption. cbn [fst snd].
    split; [reflexivity|]. split.
    + intros Hnz. apply Z.eqb_neq in Hnz. now rewrite Hnz.
    + intros Hz Hbuf. rewrite Hz. cbn.
      now destruct (unparsed (stdout proc)).
Qed.

Lemma C1_run_outcome_witness :
  snd (run None ["info"] (OutputType_value TCOUNT)
         {| stdout := [nl "TCOUNT:3"; nl "no tag here"]; exit_status := 0 |})
  = Raised (MakeMkvRuntimeError 0 (command None ["info"]) "no tag here")
  /\ snd (run None ["info"] (OutputType_value TCOUNT)
            {| stdout := [nl "TCOUNT:3"; nl "no tag here"];
               exit_status := 2 |})
     = Raised (MakeMkvRuntimeError 2 (command None ["info"]) "no tag here")
  /\ snd (run None ["info"] (OutputType_value TCOUNT)
            {| stdout := [nl "TCOUNT:3"]; exit_status := 0 |})
     = Returned.
Proof.
  split; [|split].
  - apply (C1_run_outcome None ["info"] (OutputType_value TCOUNT)
             {| stdout := [nl "TCOUNT:3"; nl "no tag here"];
                exit_status := 0 |}).
    + repeat constructor.
    + reflexivity.
    + vm_compute. discriminate.
  - apply (C1_run_outcome None ["info"] (OutputType_value TCOUNT)
             {| stdout := [nl "TCOUNT:3"; nl "no tag here"];
                exit_status := 2 |}).
    + repeat constructor.
    + vm_compute. discriminate.
  - apply (C1_run_outcome None ["info"] (OutputType_value TCOUNT)
             {| stdout := [nl "TCOUNT:3"]; exit_status := 0 |}).
    split; [reflexivity | repeat constructor].
Defined.

(** ** Lines the decoder rejects *)

Lemma parse_line_no_tag (line : string) :
  Py.contains ":" line = false ->
  parse_line line = ([], Raise MakeMkvParserError).
Proof. intros H. unfold parse_line. now rewrite H. Qed.

Lemma parse_line_unknown_tag (line tag content : string) :
  Py.split ":" 1 line = [tag; content] ->
  OutputType_members tag = None ->
  parse_line line = ([], Raise MakeMkvParserError).
Proof.
  intros Hsplit Htag. unfold parse_line. rewrite Hsplit, Htag.
  now destruct (Py.contains ":" line).
Qed.

(** C2, as the claim words it, fails: the line PRGV:1,2 has a known tag and
    a payload of two fields where three are expected; the decoder raises
    TypeError, which the loop does not catch.  The line is not buffered, the
    line after it is never decoded, and the run ends with the TypeError
    instead of a MakeMkvRuntimeError. *)
Lemma C2_counterexample :
  OutputType_members "PRGV" = Some PRGV
  /\ parse_content "1,2" 2 0 = ["1"; "2"]
  /\ parse_line "PRGV:1,2" = ([], Raise TypeError)
  /\ run_loop (OutputType_value TCOUNT) None
       [nl "PRGV:1,2"; nl "TCOUNT:3"] run_init
     = (run_init, Some TypeError)
  /\ run None ["info"] (OutputType_value TCOUNT)
       {| stdout := [nl "PRGV:1,2"; nl "TCOUNT:3"]; exit_status := 0 |}
     = ([], Raised TypeError).
Proof. repeat split; vm_compute; reflexivity. Qed.

(** C2, amended: a line without a colon, or whose text before the first
    colon is not one of the nine type names, makes the decoder raise
    MakeMkvParserError; the loop puts the line (without its terminator) in
    the buffer and goes on with the next line, leaving what was yielded
    untouched; and when the loop reads all the lines the run ends with a
    MakeMkvRuntimeError whose output holds the buffered lines, this one among
    them.  (A line with a known tag and a payload of the wrong shape raises
    a TypeError, ValueError or IndexError instead, which is not caught.) *)
Theorem C2_unparsed_line_buffered (raw : string) :
  Py.contains ":" (Py.rstrip linesep raw) = false
  \/ (exists tag content,
        Py.split ":" 1 (Py.rstrip linesep raw) = [tag; content]
        /\ OutputType_members tag = None) ->
  decode raw = ([], Raise MakeMkvParserError)
  /\ (forall select returncode rest st,
        run_loop select returncode (raw :: rest) st
        = run_loop select returncode rest
            {| buffer := (buffer st ++ [Py.rstrip linesep raw])%list;
               yielded := yielded st; logged := logged st |})
  /\ (forall which options select before after status,
        Forall (fun l => is_aborting l = false) (before ++ after) ->
        In (Py.rstrip linesep raw) (unparsed (before ++ raw :: after))
        /\ snd (run which options select
                  {| stdout := (before ++ raw :: after)%list;
                     exit_status := status |})
           = Raised (MakeMkvRuntimeError status (command which options)
                       (Py.join linesep
                          (unparsed (before ++ raw :: after))))).
Proof.
  intros Hline.
  assert (Hdec : decode raw = ([], Raise MakeMkvParserError)).
  { unfold decode. destruct Hline as [Hno|(tag & content & Hsplit & Htag)].
    - now apply parse_line_no_tag.
    - now apply parse_line_unknown_tag with (tag := tag) (content := content). }
  assert (Hun : is_unparsed raw = true)
    by (unfold is_unparsed; now rewrite Hdec).
  assert (Hnab : is_aborting raw = false)
    by (unfold is_aborting; now rewrite Hdec).
  split; [exact Hdec|]. split.
  - intros select returncode rest st. cbn [run_loop].
    unfold decode in Hdec. rewrite Hdec.
    destruct (returncode_set returncode); [reflexivity|].
    now rewrite app_nil_r.
  - intros which options select before after status Hok.
    assert (Hin : In (Py.rstrip linesep raw)
                     (unparsed (before ++ raw :: after))).
    { unfold unparsed. apply in_map, filter_In. split; [|exact Hun].
      apply in_or_app. right. now left. }
    split; [exact Hin|].
    rewrite run_complete; cbn [stdout exit_status snd].
    + destruct (negb (status =? 0)) eqn:Hst; [reflexivity|].
      destruct (unparsed (before ++ raw :: after)); [destruct Hin|].
      reflexivity.
    + apply Forall_app in Hok as [Hb Ha].
      apply Forall_app. split; [assumption | now constructor].
Qed.

Lemma C2_unparsed_line_buffered_witness :
  decode (nl "FOO:1,2") = ([], Raise MakeMkvParserError)
  /\ snd (run None ["info"] (OutputType_value TCOUNT)
            {| stdout := [nl "TCOUNT:1"; nl "FOO:1,2"; nl "TCOUNT:2"];
               exit_status := 0 |})
     = Raised (MakeMkvRuntimeError 0 (command None ["info"])
                 (Py.join linesep
                    (unparsed [nl "TCOUNT:1"; nl "FOO:1,2"; nl "TCOUNT:2"]))).
Proof.
  assert (H : Py.contains ":" (Py.rstrip linesep (nl "FOO:1,2")) = false
              \/ (exists tag content,
                    Py.split ":" 1 (Py.rstrip linesep (nl "FOO:1,2"))
                    = [tag; content]
                    /\ OutputType_members tag = None)).
  { right. exists "FOO", "1,2". split; reflexivity. }
  destruct (C2_unparsed_line_buffered (nl "FOO:1,2") H) as (Hdec & _ & Hrun).
  split; [exact Hdec|].
  apply (Hrun None ["info"] (OutputType_value TCOUNT)
           [nl "TCOUNT:1"] [nl "TCOUNT:2"] 0).
  repeat constructor.
Defined.

(** ** The track aggregator *)

Section TrackInfoProcessorProperties.

Variable float : Type.
Variable float_of_str : string -> option float.
Variable float_zero : float.
Variable str_of_float : float -> string.

#[local] Abbreviation state := (TrackInfoProcessor float).
#[local] Abbreviation add_track := (_add_track float float_zero str_of_float).
#[local] Abbreviation handle :=
  (_handle_track_or_stream_info float float_of_str float_zero str_of_float).
#[local] Abbreviation process_message :=
  (_process_message float float_of_str float_zero str_of_float).
#[local] Abbreviation loop :=
  (process_loop float float_of_str float_zero str_of_float).
#[local] Abbreviation body := (handle_info float float_of_str).

Lemma add_track_some (self : state) (tid : Z) :
  track_id self = Some tid ->
  add_track self =
  ([commit_call str_of_float self tid],
   Ok (defaults float_zero (Some tid) (stream_type self))).
Proof. intros H. unfold _add_track, defaults. now rewrite H. Qed.

Lemma add_track_none (self : state) :
  track_id self = None -> add_track self = ([], Ok self).
Proof. intros H. unfold _add_track. now rewrite H. Qed.

(** The handler of title and stream records, case by case: the same title
    (or none yet) goes straight to the attribute handler; another title
    first commits the pending descriptor and resets the fields. *)
Lemma handle_same (self : state) (tid : Z) (message : TInfo + SInfo) :
  track_id self = Some tid \/ track_id self = None ->
  handle self tid message = ([], body (set_track_id float self tid) message).
Proof.
  intros H. unfold _handle_track_or_stream_info.
  destruct H as [H|H]; rewrite H; [rewrite Z.eqb_refl|];
    cbn [negb ebind ret]; unfold assert_tid; cbn [set_track_id track_id];
    rewrite Z.eqb_refl; unfold ebind, lift, handle_info;
    now destruct message.
Qed.

Lemma handle_other (self : state) (tid other : Z) (message : TInfo + SInfo) :
  track_id self = Some other -> tid <> other ->
  handle self tid message =
  ([commit_call str_of_float self other],
   body (defaults float_zero (Some tid) (stream_type self)) message).
Proof.
  intros H Hne. unfold _handle_track_or_stream_info.
  rewrite H. apply Z.eqb_neq in Hne. rewrite Hne. cbn [negb].
  rewrite (add_track_some self other H). cbn [ebind].
  unfold assert_tid. cbn [set_track_id track_id defaults].
  rewrite Z.eqb_refl. unfold ebind, lift, handle_info.
  now destruct message.
Qed.

(** The attribute handlers never touch the title id. *)
Lemma body_track_id (self self' : state) (message : TInfo + SInfo) :
  body self message = Ok self' -> track_id self' = track_id self.
Proof.
  destruct message as [t|s]; cbn [handle_info].
  - unfold _handle_tinfo.
    destruct (tinfo_id t =? TrackID.FILENAME); [now intros [= <-]|].
    destruct (tinfo_id t =? TrackID.DURATION); [|now intros [= <-]].
    destruct (convert_to_seconds _); cbn [bind]; [now intros [= <-]|].
    discriminate.
  - unfold _handle_sinfo.
    destruct (sinfo_id s =? StreamID.TYPE); [now intros [= <-]|].
    destruct (stream_type self) as [st|]; [|now intros [= <-]].
    destruct (st =? MAKEMKV_STREAM_CODE_TYPE_VIDEO); [|now intros [= <-]].
    destruct (sinfo_id s =? StreamID.ASPECT); [now intros [= <-]|].
    destruct (sinfo_id s =? StreamID.FPS); [|now intros [= <-]].
    destruct (Py.split_ws (sinfo_value s)) as [|first rest]; [discriminate|].
    destruct (float_of_str first); [now intros [= <-] | discriminate].
Qed.

(** Only a FILENAME or DURATION title attribute changes the file name or the
    duration. *)
Lemma body_duration_filename (self self' : state) (message : TInfo + SInfo) :
  match message with
  | inl t => tinfo_id t <> TrackID.FILENAME /\ tinfo_id t <> TrackID.DURATION
  | inr _ => True
  end ->
  body self message = Ok self' ->
  seconds self' = seconds self /\ filename self' = filename self.
Proof.
  destruct message as [t|s]; cbn [handle_info].
  - intros [Hf Hd]. unfold _handle_tinfo.
    apply Z.eqb_neq in Hf, Hd. rewrite Hf, Hd. now intros [= <-].
  - intros _. unfold _handle_sinfo.
    destruct (sinfo_id s =? StreamID.TYPE); [now intros [= <-]|].
    destruct (stream_type self) as [st|]; [|now intros [= <-]].
    destruct (st =? MAKEMKV_STREAM_CODE_TYPE_VIDEO); [|now intros [= <-]].
    destruct (sinfo_id s =? StreamID.ASPECT); [now intros [= <-]|].
    destruct (sinfo_id s =? StreamID.FPS); [|now intros [= <-]].
    destruct (Py.split_ws (sinfo_value s)) as [|first rest]; [discriminate|].
    destruct (float_of_str first); [now intros [= <-] | discriminate].
Qed.

(** Handling a record that is [plain] does not raise. *)
Lemma body_plain (self : state) (message : TInfo + SInfo) :
  match message with
  | inl t => tinfo_id t <> TrackID.DURATION
  | inr s => sinfo_id s <> StreamID.FPS
  end ->
  exists self', body self message = Ok self'.
Proof.
  destruct message as [t|s]; cbn [handle_info]; intros H;
    apply Z.eqb_neq in H.
  - unfold _handle_tinfo. rewrite H.
    destruct (tinfo_id t =? TrackID.FILENAME); eexists; reflexivity.
  - unfold _handle_sinfo. rewrite H.
    destruct (sinfo_id s =? StreamID.TYPE); [eexists; reflexivity|].
    destruct (stream_type self) as [st|]; [|eexists; reflexivity].
    destruct (st =? MAKEMKV_STREAM_CODE_TYPE_VIDEO); [|eexists; reflexivity].
    destruct (sinfo_id s =? StreamID.ASPECT); eexists; reflexivity.
Qed.

Lemma handle_default (T : Z) (self : state) (tid : Z)
      (message : TInfo + SInfo) (calls : list db_call)
      (r : result state) :
  pending_default T self ->
  (tid = T ->
   match message with
   | inl t => tinfo_id t <> TrackID.FILENAME /\ tinfo_id t <> TrackID.DURATION
   | inr _ => True
   end) ->
  handle self tid message = (calls, r) ->
  commits_default T calls
  /\ (forall self', r = Ok self' -> pending_default T self').
Proof.
  intros Hinv Hmsg.
  assert (Hbody : forall base self',
             track_id base = Some tid ->
             (tid = T -> seconds base = 0 /\ filename base = EmptyString) ->
             body base message = Ok self' -> pending_default T self').
  { intros base self' Hbase Hdef Hok [Hid|Hid];
      rewrite (body_track_id _ _ _ Hok), Hbase in Hid; [|discriminate].
    injection Hid as ->.
    destruct (body_duration_filename base self' message (Hmsg eq_refl) Hok)
      as [Hs Hf].
    rewrite Hs, Hf. now apply Hdef. }
  destruct (track_id self) as [other|] eqn:Hid.
  - destruct (Z.eq_dec tid other) as [->|Hne].
    + rewrite handle_same by now left. intros [= <- <-]. split.
      * intros c [].
      * intros self'. apply Hbody; [reflexivity|].
        intros ->. apply Hinv. now left.
    + rewrite (handle_other self tid other) by assumption.
      intros [= <- <-]. split.
      * intros c [<-|[]] Hc. cbn in Hc. apply Z.eqb_eq in Hc. subst other.
        destruct Hinv as [Hs Hf]; [now left|].
        unfold commit_call. rewrite Hs, Hf. now eexists; eexists.
      * intros self'. apply Hbody; [reflexivity|]. now intros _.
  - rewrite handle_same by now right. intros [= <- <-]. split.
    + intros c [].
    + intros self'. apply Hbody; [reflexivity|].
      intros _. apply Hinv. now right.
Qed.

Lemma process_message_default (T : Z) (self : state) (m : record)
      (calls : list db_call) (r : result state) :
  pending_default T self ->
  yields_filename_or_duration T m = false ->
  process_message self m = (calls, r) ->
  commits_default T calls
  /\ (forall self', r = Ok self' -> pending_default T self').
Proof.
  intros Hinv Hm. destruct m; cbn [_process_message];
    try (unfold ret; intros [= <- <-]; split;
         [intros call [] | now intros self' [= <-]]; fail).
  - (* Titles *)
    unfold _handle_titles. cbn. intros [= <- <-]. split.
    + intros call [<-|[]]. discriminate.
    + now intros self' [= <-].
  - (* TInfo *)
    apply handle_default; [assumption|].
    intros Htid. cbn [yields_filename_or_duration] in Hm.
    rewrite Htid, Z.eqb_refl in Hm. cbn [andb] in Hm.
    apply orb_false_elim in Hm as [Hf Hd].
    now apply Z.eqb_neq in Hf, Hd.
  - (* SInfo *)
    now apply handle_default.
Qed.

Lemma loop_default (T : Z) (msgs : list record) :
  forall (self : state) (calls : list db_call) (r : result state),
    pending_default T self ->
    Forall (fun m => yields_filename_or_duration T m = false) msgs ->
    loop self msgs = (calls, r) ->
    commits_default T calls
    /\ (forall self', r = Ok self' -> pending_default T self').
Proof.
  induction msgs as [|m rest IH]; intros self calls r Hinv Hall.
  - cbn. intros [= <- <-]. split; [intros c [] | now intros self' [= <-]].
  - inversion Hall as [|? ? Hm Hrest]; subst. cbn [process_loop].
    destruct (process_message self m) as [calls1 [self1|e]] eqn:Hstep;
      destruct (process_message_default T self m _ _ Hinv Hm Hstep)
      as [Hc1 Hs1]; cbn [ebind].
    + destruct (loop self1 rest) as [calls2 r2] eqn:Hloop.
      intros [= <- <-].
      destruct (IH self1 calls2 r2 (Hs1 self1 eq_refl) Hrest Hloop)
        as [Hc2 Hs2].
      split; [|exact Hs2].
      intros c Hin. apply in_app_or in Hin as [Hin|Hin]; auto.
    + intros [= <- <-]. split; [exact Hc1 | discriminate].
Qed.

(** [value] with a quoted name inside, no double quote before it. *)
Lemma quoted_or_raw_embedded (pre name suf : string) :
  Py.mem_char (ascii_of_nat 34) pre = false ->
  Py.mem_char (ascii_of_nat 34) name = false ->
  quoted_or_raw (pre ++ quoted name ++ suf) = name.
Proof.
  intros Hpre Hname. unfold quoted_or_raw, Py.split, quoted, quote.
  cbn [append]. rewrite append_assoc. cbn [append].
  rewrite split_go_char_cut by (assumption || discriminate).
  rewrite split_go_char_cut by (assumption || discriminate).
  reflexivity.
Qed.

Lemma loop_app (a b : list record) :
  forall self,
    loop self (a ++ b) = (self1 <~ loop self a ;; loop self1 b).
Proof.
  induction a as [|m a IH]; intros self; cbn [app process_loop].
  - cbn. now destruct (loop self b).
  - destruct (process_message self m) as [calls1 [self1|e]]; cbn [ebind];
      [|reflexivity].
    rewrite IH. destruct (loop self1 a) as [calls2 [self2|e]]; cbn [ebind].
    + destruct (loop self2 b). now rewrite app_assoc.
    + reflexivity.
Qed.

Lemma handle_track_id (self self' : state) (tid : Z)
      (message : TInfo + SInfo) (calls : list db_call) :
  handle self tid message = (calls, Ok self') ->
  track_id self' = Some tid
  /\ (forall T, track_id self = Some T -> T <> tid ->
                existsb (commits T) calls = true).
Proof.
  destruct (track_id self) as [other|] eqn:Hid.
  - destruct (Z.eq_dec tid other) as [->|Hne].
    + rewrite handle_same by now left. intros [= <- Hok].
      apply body_track_id in Hok. split; [exact Hok|].
      intros T [= ->] Hne. contradiction.
    + rewrite (handle_other self tid other) by assumption.
      intros [= <- Hok]. apply body_track_id in Hok. split; [exact Hok|].
      intros T [= ->] _. cbn. now rewrite Z.eqb_refl.
  - rewrite handle_same by now right. intros [= <- Hok].
    apply body_track_id in Hok. split; [exact Hok | discriminate].
Qed.

Lemma process_message_seen (T : Z) (self self' : state) (m : record)
      (calls : list db_call) :
  process_message self m = (calls, Ok self') ->
  (title_of m = Some T -> track_id self' = Some T)
  /\ (track_id self = Some T ->
      track_id self' = Some T \/ existsb (commits T) calls = true).
Proof.
  destruct m; cbn [_process_message title_of];
    try (unfold ret, _handle_titles; cbn; intros [= <- <-];
         split; [discriminate | now left]; fail).
  - intros H. apply handle_track_id in H as [Hid Hcommit]. split.
    + now intros [= <-].
    + intros Hself. destruct (Z.eq_dec T (tinfo_tid t)) as [->|Hne];
        [now left | right; now apply Hcommit].
  - intros H. apply handle_track_id in H as [Hid Hcommit]. split.
    + now intros [= <-].
    + intros Hself. destruct (Z.eq_dec T (sinfo_tid s)) as [->|Hne];
        [now left | right; now apply Hcommit].
Qed.

Lemma loop_seen (T : Z) (msgs : list record) :
  forall (self self' : state) (calls : list db_call),
    loop self msgs = (calls, Ok self') ->
    track_id self = Some T \/ Exists (fun m => title_of m = Some T) msgs ->
    track_id self' = Some T \/ existsb (commits T) calls = true.
Proof.
  induction msgs as [|m rest IH]; intros self self' calls.
  - cbn. intros [= <- <-] [H|H]; [now left | inversion H].
  - cbn [process_loop].
    destruct (process_message self m) as [calls1 [self1|e]] eqn:Hstep;
      cbn [ebind]; [|discriminate].
    destruct (loop self1 rest) as [calls2 r2] eqn:Hloop.
    intros [= <- ->] Hseen.
    destruct (process_message_seen T _ _ _ _ Hstep) as [Htitle Hkeep].
    rewrite existsb_app.
    assert (Hcase : track_id self1 = Some T
                    \/ existsb (commits T) calls1 = true
                    \/ Exists (fun m => title_of m = Some T) rest).
    { destruct Hseen as [Hself|Hex].
      - destruct (Hkeep Hself); auto.
      - inversion Hex; subst; auto. }
    destruct Hcase as [H1|[Hc|Hex]].
    + destruct (IH self1 self' calls2 Hloop (or_introl H1)) as [?|Hc2];
        [now left | right; rewrite Hc2; apply orb_true_r].
    + right. now rewrite Hc.
    + destruct (IH self1 self' calls2 Hloop (or_intror Hex)) as [?|Hc2];
        [now left | right; rewrite Hc2; apply orb_true_r].
Qed.

Lemma process_message_plain (self : state) (m : record) :
  plain m = true ->
  exists calls self', process_message self m = (calls, Ok self').
Proof.
  intros Hplain.
  assert (Hhandle : forall tid message,
             (forall base, exists s, body base message = Ok s) ->
             exists calls self', handle self tid message = (calls, Ok self')).
  { intros tid message Hb.
    destruct (track_id self) as [other|] eqn:Hid.
    - destruct (Z.eq_dec tid other) as [->|Hne].
      + rewrite handle_same by now left.
        destruct (Hb (set_track_id float self other)) as [s ->].
        now eexists; eexists.
      + rewrite (handle_other self tid other) by assumption.
        destruct (Hb (defaults float_zero (Some tid) (stream_type self)))
          as [s ->].
        now eexists; eexists.
    - rewrite handle_same by now right.
      destruct (Hb (set_track_id float self tid)) as [s ->].
      now eexists; eexists. }
  destruct m; cbn [_process_message plain] in *;
    try (eexists; eexists; reflexivity).
  - apply Hhandle. intros base. apply body_plain.
    apply negb_true_iff in Hplain. now apply Z.eqb_neq.
  - apply Hhandle. intros base. apply body_plain.
    apply negb_true_iff in Hplain. now apply Z.eqb_neq.
Qed.

Lemma loop_plain (msgs : list record) :
  forall self : state,
    Forall (fun m => plain m = true) msgs ->
    exists calls self', loop self msgs = (calls, Ok self').
Proof.
  induction msgs as [|m rest IH]; intros self Hall.
  - now exists [], self.
  - inversion Hall as [|? ? Hm Hrest]; subst. cbn [process_loop].
    destruct (process_message_plain self m Hm) as (calls1 & self1 & ->).
    destruct (IH self1 Hrest) as (calls2 & self2 & Hloop).
    cbn [ebind]. rewrite Hloop. now eexists; eexists.
Qed.

Lemma add_track_total (self : state) :
  exists calls self', add_track self = (calls, Ok self').
Proof.
  unfold _add_track. destruct (track_id self); now eexists; eexists.
Qed.

#[local] Abbreviation process :=
  (process_messages float float_of_str float_zero str_of_float).
#[local] Abbreviation init := (TrackInfoProcessor_init float float_zero).

(** C8, amended: a commit, whether a record of another title or the end of
    the stream triggers it, hands the pending descriptor to [put_track] and
    resets duration to 0, aspect to empty, fps to 0.0 and file name to
    empty; the title id and the scratch stream type are left as they were.
    The record of the other title is then handled from these defaults, so
    what follows a commit depends on the state before it through the stream
    type alone. *)
Theorem C8_commit_resets (self : state) (tid : Z) :
  track_id self = Some tid ->
  add_track self =
  ([commit_call str_of_float self tid],
   Ok (defaults float_zero (Some tid) (stream_type self)))
  /\ process self ([], Returned) =
     ([commit_call str_of_float self tid],
      Ok (defaults float_zero (Some tid) (stream_type self)))
  /\ (forall tid' message,
        tid' <> tid ->
        handle self tid' message =
        ([commit_call str_of_float self tid],
         body (defaults float_zero (Some tid') (stream_type self)) message))
  /\ (forall other : state,
        track_id other = Some tid -> stream_type other = stream_type self ->
        snd (add_track other) = snd (add_track self)).
Proof.
  intros Hid. split; [now apply add_track_some|]. split; [|split].
  - unfold process_messages. cbn [fst snd process_loop ebind ret].
    now rewrite (add_track_some self tid Hid).
  - intros tid' message Hne. now apply handle_other.
  - intros other Hother Hst.
    rewrite (add_track_some self tid Hid), (add_track_some other tid Hother).
    cbn [snd]. now rewrite Hst.
Qed.

(** C5, amended: fed a FILENAME record of title 1 whose value holds the
    quoted name movie.mkv with no double quote before it, a DURATION record
    of title 1 with 1:30:00 and then any title record of title 2, the
    aggregator commits nothing while title 1 accumulates, commits title 1
    with 5400 seconds and movie.mkv when the record of title 2 arrives,
    before handling that record from the defaults, and never commits title 1
    again.  For any stream and any title of which no record carries a
    FILENAME or DURATION attribute, every commit of that title carries
    duration 0 and an empty file name, and the title is committed when the
    stream ends normally and no handler has raised; the commit itself cannot
    raise, and neither can the handling of records other than DURATION and
    FPS ones. *)
Theorem C5_track_aggregation :
  (forall pre suf code1 code2 id3 code3 value3,
      Py.mem_char (ascii_of_nat 34) pre = false ->
      let m1 := RTInfo {| tinfo_id := TrackID.FILENAME; tinfo_code := code1;
                          tinfo_value := pre ++ quoted "movie.mkv" ++ suf;
                          tinfo_tid := 1 |} in
      let m2 := RTInfo {| tinfo_id := TrackID.DURATION; tinfo_code := code2;
                          tinfo_value := "1:30:00"; tinfo_tid := 1 |} in
      let t3 := {| tinfo_id := id3; tinfo_code := code3;
                   tinfo_value := value3; tinfo_tid := 2 |} in
      let pending := {| track_id := Some 1; seconds := 5400;
                        aspect := EmptyString; fps := float_zero;
                        filename := "movie.mkv"; stream_type := None |} in
      let commit1 := put_track 1 5400 EmptyString (str_of_float float_zero)
                       false SOURCE "movie.mkv" in
      loop init [m1; m2] = ([], Ok pending)
      /\ process_message pending (RTInfo t3) =
         ([commit1], body (defaults float_zero (Some 2) None) (inl t3))
      /\ exists later r,
          process init ([m1; m2; RTInfo t3], Returned) = (commit1 :: later, r)
          /\ existsb (commits 1) later = false)
  /\ (forall T msgs ending calls r,
        Forall (fun m => yields_filename_or_duration T m = false) msgs ->
        process init (msgs, ending) = (calls, r) ->
        commits_default T calls
        /\ (ending = Returned -> (exists self', r = Ok self') ->
            Exists (fun m => title_of m = Some T) msgs ->
            existsb (commits T) calls = true))
  /\ (forall msgs,
        Forall (fun m => plain m = true) msgs ->
        exists calls self', process init (msgs, Returned) = (calls, Ok self'))
  /\ (forall self : state,
        exists calls self', add_track self = (calls, Ok self')).
Proof.
  split; [|split; [|split]].
  - intros pre suf code1 code2 id3 code3 value3 Hpre m1 m2 t3 pending commit1.
    assert (H12 : loop init [m1; m2] = ([], Ok pending)).
    { cbn [process_loop _process_message m1 m2 tinfo_tid].
      rewrite handle_same by (right; reflexivity).
      cbn [handle_info]. unfold _handle_tinfo at 1.
      cbn [tinfo_id tinfo_value Z.eqb TrackID.FILENAME Pos.eqb].
      rewrite quoted_or_raw_embedded by (assumption || reflexivity).
      cbn [ebind set_track_id track_id seconds aspect fps filename
           stream_type TrackInfoProcessor_init].
      rewrite handle_same by (left; reflexivity).
      reflexivity. }
    assert (H3 : process_message pending (RTInfo t3) =
                 ([commit1],
                  body (defaults float_zero (Some 2) None) (inl t3))).
    { cbn [_process_message t3 tinfo_tid].
      now rewrite (handle_other pending 2 1). }
    split; [exact H12|]. split; [exact H3|].
    unfold process_messages. cbn [fst snd].
    change [m1; m2; RTInfo t3] with ([m1; m2] ++ [RTInfo t3])%list.
    rewrite loop_app, H12. cbn [ebind process_loop]. rewrite H3.
    destruct (body (defaults float_zero (Some 2) None) (inl t3))
      as [self3|e] eqn:Hbody; cbn [ebind ret app].
    + apply body_track_id in Hbody. cbn [defaults track_id] in Hbody.
      rewrite (add_track_some self3 2 Hbody).
      eexists; eexists. split; [reflexivity|]. reflexivity.
    + eexists; eexists. split; reflexivity.
  - intros T msgs ending calls r Hall. unfold process_messages.
    cbn [fst snd].
    destruct (loop init msgs) as [calls1 [self1|e]] eqn:Hloop; cbn [ebind].
    + assert (Hinit : pending_default T init) by (intros _; now split).
      destruct (loop_default T msgs init calls1 (Ok self1) Hinit Hall Hloop)
        as [Hc1 Hs1]. specialize (Hs1 self1 eq_refl).
      destruct ending as [|e].
      * destruct (track_id self1) as [tid|] eqn:Hid.
        -- rewrite (add_track_some self1 tid Hid). intros [= <- <-]. split.
           ++ intros c Hin Hc. apply in_app_or in Hin as [Hin|[<-|[]]];
                [now apply Hc1|].
              cbn in Hc. apply Z.eqb_eq in Hc. subst tid.
              destruct Hs1 as [Hs Hf]; [now left|].
              unfold commit_call. rewrite Hs, Hf. now eexists; eexists.
           ++ intros _ _ Hex. rewrite existsb_app.
              destruct (loop_seen T msgs init self1 calls1 Hloop
                          (or_intror Hex)) as [Hself|Hc].
              ** rewrite Hid in Hself. injection Hself as ->.
                 cbn. rewrite Z.eqb_refl. apply orb_true_r.
              ** now rewrite Hc.
        -- rewrite (add_track_none self1 Hid). intros [= <- <-]. split.
           ++ intros c Hin. rewrite app_nil_r in Hin. now apply Hc1.
           ++ intros _ _ Hex. rewrite app_nil_r.
              destruct (loop_seen T msgs init self1 calls1 Hloop
                          (or_intror Hex)) as [Hself|Hc];
                [congruence | exact Hc].
      * cbn. intros [= <- <-]. rewrite app_nil_r.
        split; [exact Hc1 | discriminate].
    + intros [= <- <-]. split.
      * assert (Hinit : pending_default T init) by (intros _; now split).
        exact (proj1 (loop_default T msgs init calls1 (Raise e) Hinit Hall
                        Hloop)).
      * intros _ [self' Hok]. discriminate.
  - intros msgs Hall. unfold process_messages. cbn [fst snd].
    destruct (loop_plain msgs init Hall) as (calls1 & self1 & ->).
    cbn [ebind].
    destruct (add_track_total self1) as (calls2 & self2 & ->).
    now eexists; eexists.
  - apply add_track_total.
Qed.

End TrackInfoProcessorProperties.

(** C8, as the claim words it, fails: the commit leaves the scratch stream
    type as it was.  A video stream type seen in title 1 is still in force
    after title 1 is committed, and lets an aspect record of title 2 through
    although no stream of title 2 was declared a video stream. *)
Lemma C8_counterexample :
  (exists self',
      _add_track string Text_zero Text_str
        {| track_id := Some 1; seconds := 5400; aspect := "16:9";
           fps := "25"; filename := "a.mkv";
           stream_type := Some MAKEMKV_STREAM_CODE_TYPE_VIDEO |}
      = ([put_track 1 5400 "16:9" "25" false SOURCE "a.mkv"], Ok self')
      /\ stream_type self' = Some MAKEMKV_STREAM_CODE_TYPE_VIDEO
      /\ stream_type self'
         <> stream_type (TrackInfoProcessor_init string Text_zero))
  /\ fst (process_messages string Text_of_str Text_zero Text_str
            (TrackInfoProcessor_init string Text_zero)
            ([example_sinfo 1 StreamID.TYPE MAKEMKV_STREAM_CODE_TYPE_VIDEO
                "Video";
              example_sinfo 2 StreamID.ASPECT 0 "16:9"], Returned))
     = [put_track 1 0 "" "0.0" false SOURCE "";
        put_track 2 0 "16:9" "0.0" false SOURCE ""].
Proof.
  split.
  - eexists. split; [reflexivity|]. split; [reflexivity | discriminate].
  - reflexivity.
Qed.

Lemma C8_commit_resets_witness :
  _add_track string Text_zero Text_str
    {| track_id := Some 1; seconds := 5400; aspect := "16:9";
       fps := "25"; filename := "a.mkv"; stream_type := Some 6201 |}
  = ([put_track 1 5400 "16:9" "25" false SOURCE "a.mkv"],
     Ok {| track_id := Some 1; seconds := 0; aspect := "";
           fps := "0.0"; filename := ""; stream_type := Some 6201 |}).
Proof.
  apply (C8_commit_resets string Text_of_str Text_zero Text_str
           {| track_id := Some 1; seconds := 5400; aspect := "16:9";
              fps := "25"; filename := "a.mkv"; stream_type := Some 6201 |}
           1).
  reflexivity.
Defined.

(** C5, as the claim words it, fails on three counts.  A value that holds
    the quoted name movie.mkv need not yield it: the file name is the first
    quoted part of the value.  A title without FILENAME and DURATION records
    is not committed when the stream ends with an exception.  And handling
    the records of such a title can raise: an FPS record with an empty value
    after a video stream type raises IndexError. *)
Lemma C5_counterexample :
  ~ (forall pre suf : string,
        quoted_or_raw (pre ++ quoted "movie.mkv" ++ suf) = "movie.mkv")
  /\ fst (process_messages string Text_of_str Text_zero Text_str
            (TrackInfoProcessor_init string Text_zero)
            ([example_tinfo 1 TrackID.FILENAME
                (quoted "y" ++ " " ++ quoted "movie.mkv");
              example_tinfo 1 TrackID.DURATION "1:30:00";
              example_tinfo 2 2 "Second title"], Returned))
     = [put_track 1 5400 "" "0.0" false SOURCE "y";
        put_track 2 0 "" "0.0" false SOURCE ""]
  /\ ~ (forall T msgs ending,
          Forall (fun m => yields_filename_or_duration T m = false) msgs ->
          Exists (fun m => title_of m = Some T) msgs ->
          existsb (commits T)
            (fst (process_messages string Text_of_str Text_zero Text_str
                    (TrackInfoProcessor_init string Text_zero)
                    (msgs, ending))) = true)
  /\ ~ (forall T msgs,
          Forall (fun m => yields_filename_or_duration T m = false) msgs ->
          Exists (fun m => title_of m = Some T) msgs ->
          exists calls self',
            process_messages string Text_of_str Text_zero Text_str
              (TrackInfoProcessor_init string Text_zero) (msgs, Returned)
            = (calls, Ok self'))
  /\ process_messages string Text_of_str Text_zero Text_str
       (TrackInfoProcessor_init string Text_zero)
       ([example_sinfo 5 StreamID.TYPE MAKEMKV_STREAM_CODE_TYPE_VIDEO "Video";
         example_sinfo 5 StreamID.FPS 0 ""], Returned)
     = ([], Raise IndexError).
Proof.
  split; [|split; [|split; [|split]]].
  - intros H. specialize (H (quoted "y" ++ " ") EmptyString).
    vm_compute in H. discriminate H.
  - reflexivity.
  - intros H.
    specialize (H 7 [example_tinfo 7 2 "Title seven"]
                  (Raised (MakeMkvRuntimeError 1 [] ""))).
    assert (Hno : existsb (commits 7)
                    (fst (process_messages string Text_of_str Text_zero
                            Text_str
                            (TrackInfoProcessor_init string Text_zero)
                            ([example_tinfo 7 2 "Title seven"],
                             Raised (MakeMkvRuntimeError 1 [] ""))))
                  = false) by reflexivity.
    rewrite H in Hno; [discriminate| |].
    + repeat constructor.
    + now constructor.
  - intros H.
    destruct (H 5 [example_sinfo 5 StreamID.TYPE
                     MAKEMKV_STREAM_CODE_TYPE_VIDEO "Video";
                   example_sinfo 5 StreamID.FPS 0 ""])
      as (calls & self' & Hrun).
    + repeat constructor.
    + now constructor.
    + vm_compute in Hrun. discriminate Hrun.
  - reflexivity.
Qed.

Lemma C5_track_aggregation_witness :
  (exists later r,
      process_messages string Text_of_str Text_zero Text_str
        (TrackInfoProcessor_init string Text_zero)
        ([example_tinfo 1 TrackID.FILENAME
            ("name=" ++ quoted "movie.mkv" ++ ";");
          example_tinfo 1 TrackID.DURATION "1:30:00";
          example_tinfo 2 2 "Second title"], Returned)
      = (put_track 1 5400 "" "0.0" false SOURCE "movie.mkv" :: later, r)
      /\ existsb (commits 1) later = false)
  /\ process_messages string Text_of_str Text_zero Text_str
       (TrackInfoProcessor_init string Text_zero)
       ([example_tinfo 7 2 "Title seven";
         example_sinfo 7 StreamID.TYPE 6201 "Video"], Returned)
     = ([put_track 7 0 "" "0.0" false SOURCE ""],
        Ok (defaults Text_zero (Some 7) (Some 6201)))
  /\ commits_default 7 [put_track 7 0 "" "0.0" false SOURCE ""]
  /\ existsb (commits 7) [put_track 7 0 "" "0.0" false SOURCE ""] = true.
Proof.
  pose proof (C5_track_aggregation string Text_of_str Text_zero Text_str)
    as (Hfix & Hdefault & _ & _).
  split.
  - destruct (Hfix "name=" ";" 0 0 2 0 "Second title" eq_refl)
      as (_ & _ & Hrun).
    exact Hrun.
  - assert (Hrun : process_messages string Text_of_str Text_zero Text_str
                     (TrackInfoProcessor_init string Text_zero)
                     ([example_tinfo 7 2 "Title seven";
                       example_sinfo 7 StreamID.TYPE 6201 "Video"], Returned)
                   = ([put_track 7 0 "" "0.0" false SOURCE ""],
                      Ok (defaults Text_zero (Some 7) (Some 6201))))
      by reflexivity.
    split; [exact Hrun|].
    assert (Hquiet : Forall
                       (fun m => yields_filename_or_duration 7 m = false)
                       [example_tinfo 7 2 "Title seven";
                        example_sinfo 7 StreamID.TYPE 6201 "Video"])
      by (repeat constructor).
    destruct (Hdefault 7 _ Returned _ _ Hquiet Hrun) as [Hall Hsome].
    split; [exact Hall|].
    apply Hsome; [reflexivity | now eexists | now constructor].
Defined.

(** ** The throttle *)

Lemma wait_for_processes_sound (name : string) (max_processes : Z)
      (interval : sleep_arg) (running : nat -> Z) (fuel : nat) :
  forall polls calls polls',
    wait_for_processes fuel name max_processes interval running polls
    = Some (calls, polls') ->
    (polls < polls')%nat
    /\ running (Nat.pred polls') <= max_processes
    /\ (forall n, (polls <= n < Nat.pred polls')%nat ->
                  max_processes < running n)
    /\ In (count_processes name (running (Nat.pred polls'))) calls.
Proof.
  induction fuel as [|fuel IH]; intros polls calls polls'; cbn.
  - discriminate.
  - destruct (Z.leb_spec (running polls) max_processes) as [Hle|Hgt].
    + intros [= <- <-]. cbn [Nat.pred].
      split; [lia|]. split; [exact Hle|]. split; [intros n Hn; lia|].
      now left.
    + destruct (wait_for_processes fuel name max_processes interval running
                  (S polls)) as [[calls1 polls1]|] eqn:Hrec; [|discriminate].
      intros [= <- <-].
      destruct (IH _ _ _ Hrec) as (Hlt & Hle & Hbusy & Hin).
      split; [lia|]. split; [exact Hle|]. split.
      * intros n Hn. destruct (Nat.eq_dec n polls) as [->|Hne];
          [exact Hgt | apply Hbusy; lia].
      * right. right. exact Hin.
Qed.

Lemma wait_for_processes_returns (name : string) (max_processes : Z)
      (interval : sleep_arg) (running : nat -> Z) (n : nat) :
  forall fuel polls,
    running (polls + n)%nat <= max_processes -> (n < fuel)%nat ->
    exists calls polls',
      wait_for_processes fuel name max_processes interval running polls
      = Some (calls, polls')
      /\ (polls' <= polls + n + 1)%nat.
Proof.
  induction n as [|n IH]; intros fuel polls Hfree Hfuel;
    (destruct fuel as [|fuel]; [lia|]); cbn.
  - rewrite Nat.add_0_r in Hfree. apply Z.leb_le in Hfree. rewrite Hfree.
    eexists; eexists. split; [reflexivity | lia].
  - destruct (running polls <=? max_processes).
    + eexists; eexists. split; [reflexivity | lia].
    + destruct (IH fuel (S polls)) as (calls & polls' & -> & Hle).
      * now replace (S polls + n)%nat with (polls + S n)%nat by lia.
      * lia.
      * eexists; eexists. split; [reflexivity | lia].
Qed.

(** Once the throttle clears, the query returns what the run produced. *)
Lemma makemkv_info_returns (fuel : nat) (config : Config)
      (running : nat -> Z) (which : option string) (select : option Z)
      (index : Z) (options : list string) (proc : Process) :
  throttle_clears fuel (MAX_CONCURRENT_MAKEMKVINFO config) running ->
  exists calls,
    makemkv_info fuel config running which select index options proc
    = Some (calls,
            run which (info_options index options) (info_select select) proc).
Proof.
  intros Hclear. unfold makemkv_info, sleep_check_process.
  fold (info_options index options). fold (info_select select).
  destruct (MAX_CONCURRENT_MAKEMKVINFO config =? 0) eqn:Hzero.
  { eexists. reflexivity. }
  destruct Hclear as [H0|(n1 & n2 & Hn & H1 & H2)].
  { apply Z.eqb_neq in Hzero. contradiction. }
  destruct (wait_for_processes_returns "makemkvcon"
              (MAX_CONCURRENT_MAKEMKVINFO config)
              (sleep_range 10 (MANUAL_WAIT_TIME config) 10) running n1
              fuel 0%nat) as (before & p1 & -> & Hp1);
    [exact H1|lia|].
  destruct (wait_for_processes_returns "makemkvcon"
              (MAX_CONCURRENT_MAKEMKVINFO config)
              (sleep_seconds (MANUAL_WAIT_TIME config)) running (n2 - p1)
              fuel p1) as (after & p2 & -> & _).
  { now replace (p1 + (n2 - p1))%nat with n2 by lia. }
  { lia. }
  eexists. reflexivity.
Qed.

(** C9: with a ceiling of 0 neither [sleep_check_process] call polls or
    waits and there is no cooldown, whatever the number of running processes
    and for any bound on the polls: the query only sets the job states
    around the run.  With a positive ceiling a wait that returns has polled
    until the count was at or below the ceiling, every earlier poll having
    found it above; it does return once the count drops; the query runs
    the tool only after such a poll, sleeps the cooldown after it and polls
    again until the count is back at or below the ceiling; and the query
    does run the tool and return its records as soon as two polls within the
    bound, one for each wait, find the count at or below the ceiling. *)
Theorem C9_throttle (fuel : nat) (config : Config) (running : nat -> Z)
        (which : option string) (select : option Z) (index : Z)
        (options : list string) (proc : Process) :
  let ceiling := MAX_CONCURRENT_MAKEMKVINFO config in
  (ceiling = 0 ->
   (forall interval polls,
       sleep_check_process fuel "makemkvcon" ceiling interval running polls
       = Some ([], polls))
   /\ exists info_options sel,
       makemkv_info fuel config running which select index options proc
       = Some ([set_status VIDEO_WAITING; set_status VIDEO_INFO;
                run_makemkvcon info_options sel;
                set_status VIDEO_WAITING; set_status VIDEO_RIPPING],
               run which info_options sel proc))
  /\ (0 < ceiling ->
      (forall interval polls calls polls',
          sleep_check_process fuel "makemkvcon" ceiling interval running polls
          = Some (calls, polls') ->
          (polls < polls')%nat
          /\ running (Nat.pred polls') <= ceiling
          /\ (forall n, (polls <= n < Nat.pred polls')%nat ->
                        ceiling < running n))
      /\ (forall interval polls n,
             running (polls + n)%nat <= ceiling -> (n < fuel)%nat ->
             exists calls polls',
               sleep_check_process fuel "makemkvcon" ceiling interval running
                 polls = Some (calls, polls'))
      /\ (forall calls produced,
             makemkv_info fuel config running which select index options proc
             = Some (calls, produced) ->
             exists before after info_options sel p1 p2,
               calls = ([set_status VIDEO_WAITING] ++ before
                        ++ [set_status VIDEO_INFO;
                            run_makemkvcon info_options sel;
                            set_status VIDEO_WAITING;
                            sleep (MANUAL_WAIT_TIME config)]
                        ++ after ++ [set_status VIDEO_RIPPING])%list
               /\ produced = run which info_options sel proc
               /\ In (count_processes "makemkvcon" (running (Nat.pred p1)))
                     before
               /\ running (Nat.pred p1) <= ceiling
               /\ In (count_processes "makemkvcon" (running (Nat.pred p2)))
                     after
               /\ running (Nat.pred p2) <= ceiling
               /\ (p1 < p2)%nat)
      /\ (forall n1 n2,
             (n1 < n2 < fuel)%nat ->
             running n1 <= ceiling -> running n2 <= ceiling ->
             exists calls,
               makemkv_info fuel config running which select index options proc
               = Some (calls,
                       run which (info_options index options)
                         (info_select select) proc))).
Proof.
  cbv zeta. split.
  - intros Hzero. split.
    + intros interval polls. unfold sleep_check_process. now rewrite Hzero.
    + unfold makemkv_info, sleep_check_process. rewrite Hzero. cbn.
      eexists; eexists. reflexivity.
  - intros Hpos.
    assert (Hnz : (MAX_CONCURRENT_MAKEMKVINFO config =? 0) = false)
      by (apply Z.eqb_neq; lia).
    split; [|split; [|split]].
    + intros interval polls calls polls'. unfold sleep_check_process.
      rewrite Hnz. intros H.
      apply wait_for_processes_sound in H as (H1 & H2 & H3 & _). auto.
    + intros interval polls n Hfree Hfuel. unfold sleep_check_process.
      rewrite Hnz.
      destruct (wait_for_processes_returns "makemkvcon"
                  (MAX_CONCURRENT_MAKEMKVINFO config) interval running n
                  fuel polls Hfree Hfuel) as (calls & polls' & H & _).
      now exists calls, polls'.
    + intros calls produced. unfold makemkv_info, sleep_check_process.
      rewrite Hnz. cbn [negb].
      destruct (wait_for_processes fuel "makemkvcon"
                  (MAX_CONCURRENT_MAKEMKVINFO config)
                  (sleep_range 10 (MANUAL_WAIT_TIME config) 10) running 0)
        as [[before p1]|] eqn:Hbefore; [|discriminate].
      destruct (wait_for_processes fuel "makemkvcon"
                  (MAX_CONCURRENT_MAKEMKVINFO config)
                  (sleep_seconds (MANUAL_WAIT_TIME config)) running p1)
        as [[after p2]|] eqn:Hafter; [|discriminate].
      intros [= <- <-].
      apply wait_for_processes_sound in Hbefore as (_ & Hb & _ & Hinb).
      apply wait_for_processes_sound in Hafter as (Hlt & Ha & _ & Hina).
      exists before, after. eexists; eexists. exists p1, p2.
      split; [reflexivity|]. split; [reflexivity|]. auto 6.
    + intros n1 n2 Hn H1 H2. apply makemkv_info_returns.
      right. now exists n1, n2.
Qed.

Lemma C9_throttle_witness :
  makemkv_info 0 {| MANUAL_WAIT_TIME := 60; MAX_CONCURRENT_MAKEMKVINFO := 0 |}
    (fun _ => 5) None None 0 [] {| stdout := [nl "TCOUNT:0"]; exit_status := 0 |}
  = Some ([set_status VIDEO_WAITING; set_status VIDEO_INFO;
           run_makemkvcon ["info"; "--cache=1"; "disc:0"] 19;
           set_status VIDEO_WAITING; set_status VIDEO_RIPPING],
          ([RTitles {| titles_count := 0 |}], Returned))
  /\ (exists calls polls',
        sleep_check_process 4 "makemkvcon" 2 (sleep_seconds 60)
          (fun n => 5 - Z.of_nat n) 0 = Some (calls, polls'))
  /\ exists calls,
      makemkv_info 6 {| MANUAL_WAIT_TIME := 60;
                        MAX_CONCURRENT_MAKEMKVINFO := 2 |}
        (fun n => 5 - Z.of_nat n) None None 0 []
        {| stdout := [nl "TCOUNT:0"]; exit_status := 0 |}
      = Some (calls, ([RTitles {| titles_count := 0 |}], Returned)).
Proof.
  split; [|split].
  - destruct (C9_throttle 0
                {| MANUAL_WAIT_TIME := 60; MAX_CONCURRENT_MAKEMKVINFO := 0 |}
                (fun _ => 5) None None 0 []
                {| stdout := [nl "TCOUNT:0"]; exit_status := 0 |})
      as [Hzero _].
    destruct (Hzero eq_refl) as (_ & info_options & sel & Hrun).
    rewrite Hrun. vm_compute in Hrun. injection Hrun as <- <- _.
    reflexivity.
  - destruct (C9_throttle 4
                {| MANUAL_WAIT_TIME := 60; MAX_CONCURRENT_MAKEMKVINFO := 2 |}
                (fun n => 5 - Z.of_nat n) None None 0 []
                {| stdout := []; exit_status := 0 |})
      as [_ Hpos].
    destruct (Hpos eq_refl) as (_ & Hret & _).
    apply (Hret (sleep_seconds 60) 0%nat 3%nat); cbn; lia.
  - destruct (C9_throttle 6
                {| MANUAL_WAIT_TIME := 60; MAX_CONCURRENT_MAKEMKVINFO := 2 |}
                (fun n => 5 - Z.of_nat n) None None 0 []
                {| stdout := [nl "TCOUNT:0"]; exit_status := 0 |})
      as [_ Hpos].
    destruct (Hpos eq_refl) as (_ & _ & _ & Hruns).
    destruct (Hruns 3%nat 4%nat) as [calls Hcalls]; [lia|cbn; lia|cbn; lia|].
    exists calls. rewrite Hcalls. reflexivity.
Defined.

(** * Further properties *)

(** ** The message checker, all codes *)




Lemma write_error_params (data : MakeMKVMessage) (t p0 : string)
      (rest : list string) :
  msg_sprintf data = t :: p0 :: rest ->
  write_error data =
  ([if String.eqb p0 "Posix error - No such file or directory"
    then (CRITICAL, msg_message data) else (WARNING, p0)],
   Ok (RErrorMessage
         {| err_code := msg_code data; err_flags := msg_flags data;
            err_count := msg_count data; err_message := msg_message data;
            err_sprintf := rest; err_error := p0 |})).
Proof.
  intros H. unfold write_error, sprintf_1.
  rewrite (new_MakeMKVErrorMessage_params data t p0 rest H), H. cbn.
  now destruct (String.eqb p0 "Posix error - No such file or directory").
Qed.

(** X2: A message with one of the four error codes and at least one parameter
    becomes an error message: the first parameter is the error text, the
    template is dropped, the other fields are kept.  A write error is logged
    once: at critical level with the formatted text when the error text is
    the missing-file one, else as a warning with the error text; the two
    special codes are not logged at all. *)
Theorem check_promotes_error_codes (data : MakeMKVMessage) (t p0 : string)
        (rest : list string) :
  is_error_code (msg_code data) = true ->
  msg_sprintf data = t :: p0 :: rest ->
  exists logs,
    check data =
    (logs,
     Ok (RErrorMessage
           {| err_code := msg_code data; err_flags := msg_flags data;
              err_count := msg_count data; err_message := msg_message data;
              err_sprintf := rest; err_error := p0 |}))
    /\ (msg_code data = MessageID.WRITE_ERROR ->
        logs = [if String.eqb p0 "Posix error - No such file or directory"
                then (CRITICAL, msg_message data) else (WARNING, p0)])
    /\ (SPECIAL_ERROR_CODES (msg_code data) = true -> logs = []).
Proof.
  intros Hcode Hs. unfold check.
  destruct (msg_code data =? MessageID.READ_ERROR) eqn:H1.
  { rewrite (read_error_params data t p0 rest Hs). eexists.
    split; [reflexivity|]. apply Z.eqb_eq in H1. split.
    - intros H. rewrite H in H1. discriminate.
    - intros H. rewrite H1 in H. discriminate. }
  destruct (msg_code data =? MessageID.WRITE_ERROR) eqn:H2.
  { rewrite (write_error_params data t p0 rest Hs). eexists.
    split; [reflexivity|]. apply Z.eqb_eq in H2. split.
    - reflexivity.
    - intros H. rewrite H2 in H. discriminate. }
  unfold is_error_code in Hcode. rewrite H1, H2 in Hcode. cbn in Hcode.
  rewrite Hcode. unfold special_error_code.
  rewrite (new_MakeMKVErrorMessage_params data t p0 rest Hs). cbn.
  eexists. split; [reflexivity|]. split.
  - intros H. apply Z.eqb_neq in H2. contradiction.
  - reflexivity.
Qed.

Lemma check_promotes_error_codes_witness :
  exists logs,
    check {| msg_code := MessageID.WRITE_ERROR; msg_flags := 0;
             msg_count := 2; msg_message := "Error while creating";
             msg_sprintf := ["Error '%1' occurred while creating '%2'";
                             "Posix error - No such file or directory";
                             "/home/arm/title.mkv"] |}
    = (logs,
       Ok (RErrorMessage
             {| err_code := MessageID.WRITE_ERROR; err_flags := 0;
                err_count := 2; err_message := "Error while creating";
                err_sprintf := ["/home/arm/title.mkv"];
                err_error := "Posix error - No such file or directory" |}))
    /\ logs = [(CRITICAL, "Error while creating")].
Proof.
  destruct (check_promotes_error_codes
              {| msg_code := MessageID.WRITE_ERROR; msg_flags := 0;
                 msg_count := 2; msg_message := "Error while creating";
                 msg_sprintf := ["Error '%1' occurred while creating '%2'";
                                 "Posix error - No such file or directory";
                                 "/home/arm/title.mkv"] |}
              "Error '%1' occurred while creating '%2'"
              "Posix error - No such file or directory"
              ["/home/arm/title.mkv"] eq_refl eq_refl)
    as (logs & Hcheck & Hwrite & _).
  exists logs. split; [exact Hcheck|]. now apply Hwrite.
Defined.

(** X3: A message with one of the four error codes and no parameter (a template
    alone, or nothing) is not classified: the checker raises, IndexError for
    the read and write codes, ValueError for the two special codes, and logs
    nothing. *)
Theorem check_raises_without_parameter (data : MakeMKVMessage) :
  is_error_code (msg_code data) = true ->
  (List.length (msg_sprintf data) < 2)%nat ->
  check data =
  ([], Raise (if SPECIAL_ERROR_CODES (msg_code data)
              then ValueError else IndexError)).
Proof.
  intros Hcode Hlen.
  assert (Hnth : nth_error (msg_sprintf data) 1 = None)
    by (apply nth_error_None; lia).
  assert (Hnew : new_MakeMKVErrorMessage data = Raise ValueError).
  { unfold new_MakeMKVErrorMessage. apply Nat.ltb_lt in Hlen.
    now rewrite Hlen. }
  unfold check, read_error, write_error, special_error_code, sprintf_1.
  rewrite Hnth, Hnew.
  destruct (Z.eqb_spec (msg_code data) MessageID.READ_ERROR) as [->|H1];
    [reflexivity|].
  destruct (Z.eqb_spec (msg_code data) MessageID.WRITE_ERROR) as [->|H2];
    [reflexivity|].
  unfold is_error_code in Hcode.
  apply Z.eqb_neq in H1, H2. rewrite H1, H2 in Hcode. cbn in Hcode.
  now rewrite Hcode.
Qed.

Lemma check_raises_without_parameter_witness :
  check {| msg_code := MessageID.EVALUATION_PERIOD_EXPIRED_SHAREWARE;
           msg_flags := 0; msg_count := 0;
           msg_message := "Evaluation period has expired";
           msg_sprintf := ["Evaluation period has expired"] |}
  = ([], Raise ValueError).
Proof.
  apply (check_raises_without_parameter
           {| msg_code := MessageID.EVALUATION_PERIOD_EXPIRED_SHAREWARE;
              msg_flags := 0; msg_count := 0;
              msg_message := "Evaluation period has expired";
              msg_sprintf := ["Evaluation period has expired"] |}).
  - reflexivity.
  - cbn. lia.
Defined.

(** ** Tags and record classes *)

(** [check] hands back the message itself or an error message, or raises. *)
Lemma check_cases (data : MakeMKVMessage) :
  (exists logs, check data = (logs, Ok (RMessage data)))
  \/ (exists logs e, check data = (logs, Ok (RErrorMessage e)))
  \/ (exists logs e, check data = (logs, Raise e)).
Proof.
  unfold check, read_error, write_error, special_error_code, log_only_code,
    sprintf_1, new_MakeMKVErrorMessage.
  destruct (msg_code data =? MessageID.READ_ERROR).
  { destruct (nth_error (msg_sprintf data) 1) as [error_msg|];
      cbn [ebind lift]; [|right; right; eexists; eexists; reflexivity].
    destruct (READ_ERROR_MAP_get error_msg) as [log_func note].
    destruct (truthy note);
      destruct (List.length (msg_sprintf data) <? 2)%nat;
      [right; right | right; left | right; right | right; left];
      eexists; eexists; reflexivity. }
  destruct (msg_code data =? MessageID.WRITE_ERROR).
  { destruct (nth_error (msg_sprintf data) 1) as [error_msg|];
      cbn [ebind lift]; [|right; right; eexists; eexists; reflexivity].
    destruct (String.eqb error_msg "Posix error - No such file or directory");
      destruct (List.length (msg_sprintf data) <? 2)%nat;
      [right; right | right; left | right; right | right; left];
      eexists; eexists; reflexivity. }
  destruct (SPECIAL_ERROR_CODES (msg_code data)).
  { destruct (List.length (msg_sprintf data) <? 2)%nat;
      [right; right | right; left]; eexists; eexists; reflexivity. }
  destruct (LOG_ONLY_CODES (msg_code data));
    left; eexists; reflexivity.
Qed.

Lemma check_tag (data : MakeMKVMessage) (logs : list log_entry) (r : record) :
  check data = (logs, Ok r) -> tag_of r = MSG.
Proof.
  destruct (check_cases data) as [[l ->]|[(l & e & ->)|(l & e & ->)]];
    [now intros [= _ <-] | now intros [= _ <-] | discriminate].
Qed.

Lemma lift_ret_inv {A : Type} (m : result A) (f : A -> OutputType * record)
      (logs : list log_entry) (t : OutputType) (r : record) :
  (x <~ lift m ;; ret (f x)) = (logs, Ok (t, r)) ->
  exists x, m = Ok x /\ f x = (t, r).
Proof.
  destruct m as [x|e]; cbn; [|discriminate].
  intros [= _ H]. now exists x.
Qed.

Lemma parse_line_inv (line : string) (logs : list log_entry)
      (t : OutputType) (r : record) :
  parse_line line = (logs, Ok (t, r)) ->
  tag_of r = t
  /\ exists msg_type content,
      Py.split ":" 1 line = [msg_type; content]
      /\ OutputType_members msg_type = Some t.
Proof.
  unfold parse_line.
  destruct (Py.contains ":" line); [|discriminate]. cbn [negb].
  destruct (Py.split ":" 1 line) as [|msg_type [|content [|x l]]];
    try discriminate.
  destruct (OutputType_members msg_type) as [tag|] eqn:Htag;
    [|discriminate].
  intros H.
  assert (Hboth : tag_of r = t /\ tag = t).
  { destruct tag;
      try (apply lift_ret_inv in H as (x & _ & [= <- <-]); now split).
    - (* DRV *)
      destruct (new_Drive (rev (parse_content content 4 2))) as [l [d|e]];
        cbn in H; [|discriminate].
      injection H as _ <- <-. now split.
    - (* MSG *)
      destruct (new_MakeMKVMessage (parse_content content 3 (-1)))
        as [data|e]; cbn in H; [|discriminate].
      destruct (check data) as [l [message|e]] eqn:Hcheck; cbn in H;
        [|discriminate].
      injection H as _ <- <-. apply check_tag in Hcheck. now split.
    - (* SINFO *)
      destruct (unpack2 (parse_content content 4 0)) as [[[tid sid] info]|e];
        cbn in H; [|discriminate].
      destruct (new_SInfo (info ++ [tid; sid])) as [s|e]; cbn in H;
        [|discriminate].
      injection H as _ <- <-. now split.
    - (* TINFO *)
      destruct (unpack1 (parse_content content 3 0)) as [[tid info]|e];
        cbn in H; [|discriminate].
      destruct (new_TInfo (info ++ [tid])) as [ti|e]; cbn in H;
        [|discriminate].
      injection H as _ <- <-. now split. }
  destruct Hboth as [Hr <-]. split; [exact Hr|].
  now exists msg_type, content.
Qed.

(** X4: Whatever line decodes, the record is of the class of its tag, and the tag
    is the member of OutputType named by the text before the first colon. *)
Theorem parse_line_tag (line : string) (logs : list log_entry)
        (t : OutputType) (r : record) :
  parse_line line = (logs, Ok (t, r)) ->
  tag_of r = t
  /\ exists msg_type content,
      Py.split ":" 1 line = [msg_type; content]
      /\ OutputType_members msg_type = Some t.
Proof. apply parse_line_inv. Qed.

Lemma parse_line_tag_witness :
  tag_of (RTitles {| titles_count := 3 |}) = TCOUNT.
Proof.
  apply (parse_line_tag "TCOUNT:3" [] TCOUNT (RTitles {| titles_count := 3 |})).
  reflexivity.
Defined.

(** ** The stream runner, further *)

Lemma run_loop_app (select : Z) (returncode : option Z) (a b : list string) :
  forall st,
    run_loop select returncode (a ++ b) st =
    match run_loop select returncode a st with
    | (st', None) => run_loop select returncode b st'
    | (st', Some e) => (st', Some e)
    end.
Proof.
  induction a as [|raw a IH]; intros st; cbn [app run_loop].
  - reflexivity.
  - destruct (returncode_set returncode); [apply IH|].
    destruct (parse_line (Py.rstrip linesep raw))
      as [logs [[msg_type data]|e]]; [apply IH|].
    destruct e; try reflexivity. apply IH.
Qed.

Lemma run_loop_raises (select : Z) (raw : string) (rest : list string)
      (e : exn) (st : run_state) :
  snd (decode raw) = Raise e -> e <> MakeMkvParserError ->
  run_loop select None (raw :: rest) st =
  ({| buffer := buffer st; yielded := yielded st;
      logged := (logged st ++ fst (decode raw))%list |}, Some e).
Proof.
  unfold decode. intros He Hne. cbn [run_loop returncode_set].
  destruct (parse_line (Py.rstrip linesep raw)) as [logs r]. cbn in He.
  subst r. destruct e; try reflexivity. contradiction.
Qed.

(** X5: A line that raises an exception other than MakeMkvParserError ends the
    run with that exception: the records selected from the lines before it
    have been yielded, the line and the lines after it are never buffered
    or decoded, and the exit status plays no part. *)
Theorem run_stops_at_exception (which : option string)
        (options : list string) (select : Z) (before after : list string)
        (raw : string) (e : exn) (status : Z) :
  Forall (fun l => is_aborting l = false) before ->
  snd (decode raw) = Raise e -> e <> MakeMkvParserError ->
  run which options select
    {| stdout := (before ++ raw :: after)%list; exit_status := status |}
  = (selected select before, Raised e).
Proof.
  intros Hok He Hne. unfold run. cbn [stdout].
  rewrite run_loop_app, run_loop_complete by assumption.
  rewrite (run_loop_raises select raw after e _ He Hne).
  reflexivity.
Qed.

Lemma run_stops_at_exception_witness :
  run None ["info"] (OutputType_value TCOUNT)
    {| stdout := [nl "TCOUNT:1"; nl "TCOUNT:x"; nl "TCOUNT:2"];
       exit_status := 0 |}
  = ([RTitles {| titles_count := 1 |}], Raised ValueError).
Proof.
  apply (run_stops_at_exception None ["info"] (OutputType_value TCOUNT)
           [nl "TCOUNT:1"] [nl "TCOUNT:2"] (nl "TCOUNT:x") ValueError 0).
  - repeat constructor.
  - reflexivity.
  - discriminate.
Defined.

Lemma run_loop_select (s1 s2 : Z) (returncode : option Z)
      (lines : list string) :
  forall st1 st2,
    buffer st1 = buffer st2 -> logged st1 = logged st2 ->
    buffer (fst (run_loop s1 returncode lines st1))
    = buffer (fst (run_loop s2 returncode lines st2))
    /\ logged (fst (run_loop s1 returncode lines st1))
       = logged (fst (run_loop s2 returncode lines st2))
    /\ snd (run_loop s1 returncode lines st1)
       = snd (run_loop s2 returncode lines st2).
Proof.
  induction lines as [|raw rest IH]; intros st1 st2 Hb Hl; cbn [run_loop].
  - auto.
  - destruct (returncode_set returncode).
    + apply IH; cbn; congruence.
    + destruct (parse_line (Py.rstrip linesep raw))
        as [logs [[msg_type data]|e]].
      * apply IH; cbn; congruence.
      * destruct e; try (cbn; rewrite Hl; auto; fail).
        apply IH; cbn; congruence.
Qed.

(** X6: Whether a run fails, and with which exception and diagnostic output,
    does not depend on the record types the caller selects. *)
Theorem run_outcome_ignores_select (which : option string)
        (options : list string) (select1 select2 : Z) (proc : Process) :
  snd (run which options select1 proc) = snd (run which options select2 proc).
Proof.
  unfold run.
  destruct (run_loop_select select1 select2 None (stdout proc)
              run_init run_init eq_refl eq_refl) as (Hb & _ & Hs).
  destruct (run_loop select1 None (stdout proc) run_init) as [st1 left1].
  destruct (run_loop select2 None (stdout proc) run_init) as [st2 left2].
  cbn in Hb, Hs. subst left2.
  destruct left1; [reflexivity|].
  rewrite Hb. destruct (negb (exit_status proc =? 0)); [reflexivity|].
  now destruct (buffer st2).
Qed.

Lemma run_loop_yielded (P : record -> Prop) (select : Z)
      (returncode : option Z) (lines : list string) :
  (forall line logs t r,
      parse_line line = (logs, Ok (t, r)) -> flag_in t select = true -> P r) ->
  forall st,
    Forall P (yielded st) ->
    Forall P (yielded (fst (run_loop select returncode lines st))).
Proof.
  intros HP. induction lines as [|raw rest IH]; intros st Hst;
    cbn [run_loop].
  - exact Hst.
  - destruct (returncode_set returncode); [now apply IH|].
    destruct (parse_line (Py.rstrip linesep raw))
      as [logs [[msg_type data]|e]] eqn:Hline.
    + apply IH. cbn [yielded].
      destruct (flag_in msg_type select) eqn:Hsel; [|exact Hst].
      apply Forall_app. split; [exact Hst|].
      constructor; [|constructor]. now apply (HP _ _ _ _ Hline).
    + destruct e; try exact Hst. now apply IH.
Qed.

(** X7: A run yields only records of the selected types, however it ends. *)
Theorem run_yields_selected_only (which : option string)
        (options : list string) (select : Z) (proc : Process) :
  Forall (fun r => flag_in (tag_of r) select = true)
         (fst (run which options select proc)).
Proof.
  assert (H : Forall (fun r => flag_in (tag_of r) select = true)
                (yielded (fst (run_loop select None (stdout proc) run_init)))).
  { apply run_loop_yielded; [|constructor].
    intros line logs t r Hline Hsel.
    apply parse_line_inv in Hline as [-> _]. exact Hsel. }
  unfold run.
  destruct (run_loop select None (stdout proc) run_init) as [st left].
  cbn [fst] in H.
  destruct left; [exact H|].
  destruct (negb (exit_status proc =? 0)); [exact H|].
  now destruct (buffer st).
Qed.

(** ** Strings that read as integers *)

Lemma all_chars_app (p : ascii -> bool) (a b : string) :
  all_chars p (a ++ b) = all_chars p a && all_chars p b.
Proof.
  induction a as [|c a IH]; cbn; [reflexivity|].
  now rewrite IH, andb_assoc.
Qed.

Lemma all_chars_impl (p q : ascii -> bool) (s : string) :
  (forall c, p c = true -> q c = true) ->
  all_chars p s = true -> all_chars q s = true.
Proof.
  intros Hpq. induction s as [|c s IH]; cbn; [reflexivity|].
  intros H. apply andb_prop in H as [Hc Hs].
  now rewrite (Hpq c Hc), IH.
Qed.

Lemma all_chars_not_mem (p : ascii -> bool) (c : ascii) (s : string) :
  all_chars p s = true -> p c = false -> Py.mem_char c s = false.
Proof.
  intros Hs Hc. induction s as [|d s IH]; cbn in *; [reflexivity|].
  apply andb_prop in Hs as [Hd Hs]. rewrite (IH Hs), orb_false_r.
  destruct (Ascii.eqb_spec c d) as [->|]; [congruence | reflexivity].
Qed.

Lemma all_chars_ends (p q : ascii -> bool) (s : string) :
  (forall c, p c = true -> q c = false) ->
  all_chars p s = true -> first_is q s = false /\ last_is q s = false.
Proof.
  intros Hpq. induction s as [|c s IH]; cbn [all_chars first_is last_is].
  - auto.
  - intros H. apply andb_prop in H as [Hc Hs]. split; [now apply Hpq|].
    destruct s as [|d s]; [now apply Hpq | now apply IH].
Qed.

Lemma int_digits_chars (s : string) :
  forall acc after z,
    Py.int_digits acc after s = Some z -> all_chars int_char s = true.
Proof.
  induction s as [|c s IH]; intros acc after z; cbn [Py.int_digits all_chars].
  - reflexivity.
  - destruct (Py.digit c) as [d|] eqn:Hd.
    + intros H. rewrite (IH _ _ _ H), andb_true_r.
      unfold int_char. rewrite Hd. now rewrite !orb_true_r.
    + destruct (Ascii.eqb c "_") eqn:Hu; cbn [andb]; [|discriminate].
      destruct after; [|discriminate].
      intros H. rewrite (IH _ _ _ H), andb_true_r.
      unfold int_char. rewrite Hu. now rewrite !orb_true_r.
Qed.

Lemma int_unfold (s : string) (z : Z) :
  Py.int s = Some z ->
  match Py.rstrip_by Py.is_int_space (Py.lstrip_by Py.is_int_space s) with
  | EmptyString => None
  | String c rest =>
      if Ascii.eqb c "+" then Py.int_digits 0 false rest
      else if Ascii.eqb c "-"
           then option_map Z.opp (Py.int_digits 0 false rest)
           else Py.int_digits 0 false (String c rest)
  end = Some z.
Proof.
  unfold Py.int.
  destruct (Py.int_max_str_digits
            <? Py.count_digits
                 (Py.rstrip_by Py.is_int_space
                    (Py.lstrip_by Py.is_int_space s))); [discriminate|].
  destruct (Py.rstrip_by Py.is_int_space (Py.lstrip_by Py.is_int_space s))
    as [|c rest]; [intros H; exact H|].
  destruct c as [[] [] [] [] [] [] [] []]; intros H; exact H.
Qed.

Lemma int_space_is_space (c : ascii) :
  Py.is_int_space c = true -> Py.is_space c = true.
Proof.
  destruct c as [[] [] [] [] [] [] [] []]; vm_compute; intros H;
    (exact H || reflexivity).
Qed.

(** A string that [int] accepts holds white space, a sign, digits and
    underscores only. *)
Lemma int_chars (s : string) (z : Z) :
  Py.int s = Some z -> all_chars int_char s = true.
Proof.
  intros H. apply int_unfold in H. revert H.
  destruct (lstrip_by_spec Py.is_int_space s) as (l & Hs & Hl & _).
  destruct (rstrip_by_spec Py.is_int_space (Py.lstrip_by Py.is_int_space s))
    as (r & Ht & Hr & _).
  assert (Hspace : forall c, Py.is_int_space c = true -> int_char c = true).
  { intros c Hc. unfold int_char. now rewrite (int_space_is_space c Hc). }
  intros H.
  assert (Hcore : all_chars int_char
                    (Py.rstrip_by Py.is_int_space
                       (Py.lstrip_by Py.is_int_space s))
                  = true).
  { destruct (Py.rstrip_by Py.is_int_space (Py.lstrip_by Py.is_int_space s))
      as [|c rest]; [discriminate|].
    cbn [all_chars].
    destruct (Ascii.eqb c "+") eqn:Hplus.
    { rewrite (int_digits_chars _ _ _ _ H), andb_true_r.
      unfold int_char. rewrite Hplus. now rewrite !orb_true_r. }
    destruct (Ascii.eqb c "-") eqn:Hminus.
    { destruct (Py.int_digits 0 false rest) as [z'|] eqn:Hd;
        [|discriminate].
      rewrite (int_digits_chars _ _ _ _ Hd), andb_true_r.
      unfold int_char. rewrite Hminus. now rewrite !orb_true_r. }
    apply int_digits_chars in H. exact H. }
  rewrite Hs, Ht, !all_chars_app, Hcore.
  now rewrite (all_chars_impl _ _ l Hspace Hl), (all_chars_impl _ _ r Hspace Hr).
Qed.

Lemma int_no_comma (s : string) (z : Z) :
  Py.int s = Some z -> Py.mem_char "," s = false.
Proof.
  intros H. apply (all_chars_not_mem int_char); [|reflexivity].
  now apply (int_chars s z).
Qed.

Lemma int_no_quote_ends (s : string) (z : Z) :
  Py.int s = Some z ->
  first_is is_quote s = false /\ last_is is_quote s = false.
Proof.
  intros H. apply (all_chars_ends int_char); [|now apply (int_chars s z)].
  intros c Hc. unfold is_quote, quote. cbn [Py.mem_char]. rewrite orb_false_r.
  destruct (Ascii.eqb_spec c (ascii_of_nat 34)) as [->|]; [|reflexivity].
  discriminate Hc.
Qed.

(** ** Splitting a payload in the documented shape *)

Lemma rstrip_by_all (p : ascii -> bool) (r : string) :
  all_chars p r = true -> Py.rstrip_by p r = EmptyString.
Proof.
  induction r as [|c r IH]; cbn; [reflexivity|].
  intros H. apply andb_prop in H as [Hc Hr]. now rewrite IH, Hc.
Qed.

Lemma rstrip_by_app_all (p : ascii -> bool) (v r : string) :
  all_chars p r = true -> Py.rstrip_by p (v ++ r) = Py.rstrip_by p v.
Proof.
  intros Hr. induction v as [|c v IH]; cbn [append Py.rstrip_by].
  - now apply rstrip_by_all.
  - now rewrite IH.
Qed.

Lemma rstrip_by_id (p : ascii -> bool) (v : string) :
  last_is p v = false -> Py.rstrip_by p v = v.
Proof.
  induction v as [|c v IH]; cbn [Py.rstrip_by last_is]; [reflexivity|].
  destruct v as [|d v].
  - intros ->. reflexivity.
  - intros H. rewrite (IH H). reflexivity.
Qed.

Lemma lstrip_by_app_all (p : ascii -> bool) (l v : string) :
  all_chars p l = true -> first_is p v = false ->
  Py.lstrip_by p (l ++ v) = v.
Proof.
  intros Hl Hv. induction l as [|c l IH]; cbn [append].
  - destruct v as [|d v]; [reflexivity|]. cbn in *. now rewrite Hv.
  - cbn in Hl. apply andb_prop in Hl as [Hc Hl]. cbn. rewrite Hc.
    now apply IH.
Qed.

(** [strip] gives back what was wrapped in double quotes, when that neither
    starts nor ends with one. *)
Lemma strip_wrapped (l v r : string) :
  all_chars is_quote l = true -> all_chars is_quote r = true ->
  first_is is_quote v = false -> last_is is_quote v = false ->
  Py.strip quote (l ++ v ++ r) = v.
Proof.
  intros Hl Hr Hfirst Hlast. unfold Py.strip.
  change (fun c => Py.mem_char c quote) with is_quote.
  destruct v as [|c v].
  - cbn [append]. rewrite <- (append_nil_r (l ++ r)).
    rewrite lstrip_by_app_all; [reflexivity | | reflexivity].
    now rewrite all_chars_app, Hl, Hr.
  - rewrite lstrip_by_app_all.
    + rewrite rstrip_by_app_all by assumption. now apply rstrip_by_id.
    + assumption.
    + exact Hfirst.
Qed.

Lemma strip_quoted (v : string) :
  first_is is_quote v = false -> last_is is_quote v = false ->
  Py.strip quote (quoted v) = v.
Proof. intros H1 H2. now apply (strip_wrapped quote v quote). Qed.

Lemma strip_plain (v : string) :
  first_is is_quote v = false -> last_is is_quote v = false ->
  Py.strip quote v = v.
Proof.
  intros H1 H2.
  rewrite <- (append_nil_r v) at 1.
  now apply (strip_wrapped EmptyString v EmptyString).
Qed.

(** The leading fields of a payload are cut off one by one. *)
Lemma split_payload (fields : list string) (tail : string) :
  Forall (fun f => Py.mem_char "," f = false) fields ->
  Py.split "," (Z.of_nat (List.length fields)) (payload fields tail)
  = (fields ++ [tail])%list.
Proof.
  unfold Py.split. induction fields as [|f fields IH]; intros Hfree.
  - cbn. now rewrite split_go_exhausted.
  - inversion Hfree as [|? ? Hf Hrest]; subst.
    cbn [payload fold_right]. fold (payload fields tail).
    change (f ++ "," ++ payload fields tail)
      with (f ++ String "," (payload fields tail)).
    rewrite split_go_char_cut by (assumption || (cbn [List.length]; lia)).
    cbn [append app List.length].
    replace (Z.of_nat (S (List.length fields)) - 1)
      with (Z.of_nat (List.length fields)) by lia.
    now rewrite IH.
Qed.

Lemma init_last_snoc (fields : list string) (tail : string) :
  init_last (fields ++ [tail]) = (fields, tail).
Proof.
  unfold init_last. now rewrite removelast_last, last_last.
Qed.

(** A payload with [n] comma-free leading fields and any tail, cut with the
    header count [n]. *)
Lemma parse_content_payload (fields : list string) (tail : string)
      (num_message : Z) :
  Forall (fun f => Py.mem_char "," f = false) fields ->
  parse_content (payload fields tail) (Z.of_nat (List.length fields))
    num_message
  = (fields ++ map (Py.strip quote)
               (Py.split quote_comma_quote num_message tail))%list.
Proof.
  intros Hfree. unfold parse_content.
  now rewrite split_payload, init_last_snoc.
Qed.

(** ** Decoding lines in the documented shape *)

Lemma parse_line_at (tag content : string) :
  Py.mem_char ":" tag = false ->
  Py.contains ":" (tag ++ ":" ++ content) = true
  /\ Py.split ":" 1 (tag ++ ":" ++ content) = [tag; content].
Proof.
  intros H. split; [apply contains_char | now apply split_tag].
Qed.

Ltac at_tag tag content :=
  unfold parse_line;
  destruct (parse_line_at tag content eq_refl) as [Hcontains Hsplit];
  cbn [append] in Hcontains, Hsplit; cbn [append];
  rewrite Hcontains, Hsplit; reflexivity.

Lemma parse_line_TCOUNT (content : string) :
  parse_line ("TCOUNT:" ++ content) =
  (t <~ lift (new_Titles (parse_content content 0 0)) ;;
   ret (TCOUNT, RTitles t)).
Proof. at_tag "TCOUNT" content. Qed.

Lemma parse_line_CINFO (content : string) :
  parse_line ("CINFO:" ++ content) =
  (c <~ lift (new_CInfo (parse_content content 2 0)) ;; ret (CINFO, RCInfo c)).
Proof. at_tag "CINFO" content. Qed.

Lemma parse_line_TINFO (content : string) :
  parse_line ("TINFO:" ++ content) =
  ('(tid, info) <~ lift (unpack1 (parse_content content 3 0)) ;;
   t <~ lift (new_TInfo (info ++ [tid])%list) ;;
   ret (TINFO, RTInfo t)).
Proof. at_tag "TINFO" content. Qed.

Lemma parse_line_SINFO (content : string) :
  parse_line ("SINFO:" ++ content) =
  ('(tid, sid, info) <~ lift (unpack2 (parse_content content 4 0)) ;;
   s <~ lift (new_SInfo (info ++ [tid; sid])%list) ;;
   ret (SINFO, RSInfo s)).
Proof. at_tag "SINFO" content. Qed.

Lemma parse_line_PRGV (content : string) :
  parse_line ("PRGV:" ++ content) =
  (p <~ lift (new_ProgressBarValues (parse_content content 2 0)) ;;
   ret (PRGV, RProgressBarValues p)).
Proof. at_tag "PRGV" content. Qed.

Lemma parse_line_PRGC (content : string) :
  parse_line ("PRGC:" ++ content) =
  (p <~ lift (new_ProgressBarTitle (parse_content content 2 0)) ;;
   ret (PRGC, RProgressBarCurrent p)).
Proof. at_tag "PRGC" content. Qed.

Lemma parse_line_PRGT (content : string) :
  parse_line ("PRGT:" ++ content) =
  (p <~ lift (new_ProgressBarTitle (parse_content content 2 0)) ;;
   ret (PRGT, RProgressBarTotal p)).
Proof. at_tag "PRGT" content. Qed.

Lemma parse_line_MSG (content : string) :
  parse_line ("MSG:" ++ content) =
  (data <~ lift (new_MakeMKVMessage (parse_content content 3 (-1))) ;;
   message <~ check data ;;
   ret (MSG, message)).
Proof. at_tag "MSG" content. Qed.

(** Tokens of a payload with [n] leading integer fields and one last field
    that is not split further. *)
Lemma parse_content_fields (fields : list string) (tail : string) :
  Forall (fun f => exists z, Py.int f = Some z) fields ->
  parse_content (payload fields tail) (Z.of_nat (List.length fields)) 0
  = (fields ++ [Py.strip quote tail])%list.
Proof.
  intros Hint. rewrite parse_content_payload.
  - unfold Py.split. now rewrite split_go_exhausted.
  - eapply Forall_impl; [|exact Hint].
    intros f [z Hz]. now apply (int_no_comma f z).
Qed.

(** X8: A TCOUNT line holds one token, the whole payload without the double
    quotes around it: it decodes to the title count when [int()] accepts
    that token (white space around it, a sign, digits with single
    underscores between them, at most 4300 digits) and raises ValueError
    otherwise (no MakeMkvParserError, so the line is not buffered). *)
Theorem decode_TCOUNT (content : string) :
  parse_line ("TCOUNT:" ++ content) =
  ([], match Py.int (Py.strip quote content) with
       | Some n => Ok (TCOUNT, RTitles {| titles_count := n |})
       | None => Raise ValueError
       end).
Proof.
  rewrite parse_line_TCOUNT.
  change (parse_content content 0 0)
    with (parse_content (payload [] content) (Z.of_nat (List.length (@nil string))) 0).
  rewrite parse_content_fields by constructor.
  cbn [app new_Titles]. unfold to_int.
  now destruct (Py.int (Py.strip quote content)).
Qed.

(** X9: CINFO, PRGC and PRGT lines: two integers and a quoted value, which may
    hold commas, colons and inner double quotes, decode to the record with
    these three fields. *)
Theorem decode_three_fields (id code value : string) (zid zcode : Z) :
  Py.int id = Some zid -> Py.int code = Some zcode ->
  first_is is_quote value = false -> last_is is_quote value = false ->
  parse_line ("CINFO:" ++ payload [id; code] (quoted value))
  = ([], Ok (CINFO, RCInfo {| cinfo_id := zid; cinfo_code := zcode;
                              cinfo_value := value |}))
  /\ parse_line ("PRGC:" ++ payload [id; code] (quoted value))
     = ([], Ok (PRGC, RProgressBarCurrent
                        {| prg_code := zid; prg_oid := zcode;
                           prg_name := value |}))
  /\ parse_line ("PRGT:" ++ payload [id; code] (quoted value))
     = ([], Ok (PRGT, RProgressBarTotal
                        {| prg_code := zid; prg_oid := zcode;
                           prg_name := value |})).
Proof.
  intros Hid Hcode Hfirst Hlast.
  assert (Htok : parse_content (payload [id; code] (quoted value)) 2 0
                 = [id; code; value]).
  { change 2 with (Z.of_nat (List.length [id; code])).
    rewrite parse_content_fields by (repeat constructor; eauto).
    now rewrite strip_quoted. }
  rewrite parse_line_CINFO, parse_line_PRGC, parse_line_PRGT, Htok.
  unfold new_CInfo, new_ProgressBarTitle, to_int. rewrite Hid, Hcode.
  repeat split.
Qed.

Lemma decode_three_fields_witness :
  parse_line ("CINFO:" ++ payload ["1"; "6209"] (quoted "Blu-ray, disc"))
  = ([], Ok (CINFO, RCInfo {| cinfo_id := 1; cinfo_code := 6209;
                              cinfo_value := "Blu-ray, disc" |})).
Proof.
  apply (decode_three_fields "1" "6209" "Blu-ray, disc" 1 6209);
    reflexivity.
Defined.

(** X10: A PRGV line of three integers decodes to the progress values. *)
Theorem decode_PRGV (current total maximum : string) (c t m : Z) :
  Py.int current = Some c -> Py.int total = Some t ->
  Py.int maximum = Some m ->
  parse_line ("PRGV:" ++ payload [current; total] maximum)
  = ([], Ok (PRGV, RProgressBarValues
                     {| prgv_current := c; prgv_total := t;
                        prgv_maximum := m |})).
Proof.
  intros Hc Ht Hm. rewrite parse_line_PRGV.
  change 2 with (Z.of_nat (List.length [current; total])).
  rewrite parse_content_fields by (repeat constructor; eauto).
  destruct (int_no_quote_ends maximum m Hm) as [H1 H2].
  rewrite strip_plain by assumption.
  cbn [app new_ProgressBarValues]. unfold to_int. now rewrite Hc, Ht, Hm.
Qed.

Lemma decode_PRGV_witness :
  parse_line ("PRGV:" ++ payload ["10"; "250"] "65536")
  = ([], Ok (PRGV, RProgressBarValues
                     {| prgv_current := 10; prgv_total := 250;
                        prgv_maximum := 65536 |})).
Proof. apply (decode_PRGV "10" "250" "65536" 10 250 65536); reflexivity. Defined.

(** X11: TINFO and SINFO lines carry the title id (and the stream id) first; the
    record holds the attribute id, the code and the value, then the ids. *)
Theorem decode_title_and_stream_info (tid sid id code value : string)
        (ztid zsid zid zcode : Z) :
  Py.int tid = Some ztid -> Py.int sid = Some zsid ->
  Py.int id = Some zid -> Py.int code = Some zcode ->
  first_is is_quote value = false -> last_is is_quote value = false ->
  parse_line ("TINFO:" ++ payload [tid; id; code] (quoted value))
  = ([], Ok (TINFO, RTInfo {| tinfo_id := zid; tinfo_code := zcode;
                              tinfo_value := value; tinfo_tid := ztid |}))
  /\ parse_line ("SINFO:" ++ payload [tid; sid; id; code] (quoted value))
     = ([], Ok (SINFO, RSInfo {| sinfo_id := zid; sinfo_code := zcode;
                                 sinfo_value := value; sinfo_tid := ztid;
                                 sinfo_sid := zsid |})).
Proof.
  intros Htid Hsid Hid Hcode Hfirst Hlast. split.
  - rewrite parse_line_TINFO.
    change 3 with (Z.of_nat (List.length [tid; id; code])).
    rewrite parse_content_fields by (repeat constructor; eauto).
    rewrite strip_quoted by assumption.
    cbn [app unpack1 lift ebind new_TInfo]. unfold to_int.
    now rewrite Hid, Hcode, Htid.
  - rewrite parse_line_SINFO.
    change 4 with (Z.of_nat (List.length [tid; sid; id; code])).
    rewrite parse_content_fields by (repeat constructor; eauto).
    rewrite strip_quoted by assumption.
    cbn [app unpack2 lift ebind new_SInfo]. unfold to_int.
    now rewrite Hid, Hcode, Htid, Hsid.
Qed.

Lemma decode_title_and_stream_info_witness :
  parse_line ("TINFO:" ++ payload ["1"; "26"; "0"] (quoted "155,156,157"))
  = ([], Ok (TINFO, RTInfo {| tinfo_id := 26; tinfo_code := 0;
                              tinfo_value := "155,156,157";
                              tinfo_tid := 1 |})).
Proof.
  apply (decode_title_and_stream_info "1" "0" "26" "0" "155,156,157"
           1 0 26 0); reflexivity.
Defined.

(** ** The quoted end of a MSG line *)

Lemma free_of_quote_ends (p : string) :
  Py.mem_char (ascii_of_nat 34) p = false ->
  first_is is_quote p = false /\ last_is is_quote p = false.
Proof.
  induction p as [|c p IH]; cbn [Py.mem_char first_is last_is]; [auto|].
  intros H. apply orb_false_elim in H as [Hc Hp].
  assert (Hq : is_quote c = false).
  { unfold is_quote, quote. cbn [Py.mem_char]. rewrite orb_false_r.
    now rewrite Ascii.eqb_sym. }
  split; [exact Hq|]. destruct p as [|d p]; [exact Hq | now apply IH].
Qed.

Lemma prefix_cons (a c : ascii) (sep s : string) :
  prefix (String a sep) (String c s) = Ascii.eqb a c && prefix sep s.
Proof.
  cbn [prefix]. destruct (ascii_dec a c) as [->|n].
  - now rewrite Ascii.eqb_refl.
  - apply Ascii.eqb_neq in n. now rewrite n.
Qed.

Lemma qcq_unfold :
  quote_comma_quote
  = String (ascii_of_nat 34) (String "," (String (ascii_of_nat 34) EmptyString)).
Proof. reflexivity. Qed.

Lemma prefix_qcq_other (c : ascii) (s : string) :
  Ascii.eqb (ascii_of_nat 34) c = false ->
  prefix quote_comma_quote (String c s) = false.
Proof. intros Hc. now rewrite qcq_unfold, prefix_cons, Hc. Qed.

Lemma qcq_cut (p : string) :
  forall (k : Z) (cur rest : string),
    Py.mem_char (ascii_of_nat 34) p = false -> k <> 0 ->
    Py.split_go quote_comma_quote k O cur (p ++ quote_comma_quote ++ rest)
    = (cur ++ p) :: Py.split_go quote_comma_quote (k - 1) O EmptyString rest.
Proof.
  induction p as [|c p IH]; intros k cur rest Hfree Hk.
  - cbn [append]. rewrite append_nil_r.
    assert (Hpre : prefix quote_comma_quote (quote_comma_quote ++ rest)
                   = true).
    { rewrite qcq_unfold. cbn [append].
      rewrite !prefix_cons, !Ascii.eqb_refl. apply prefix_nil. }
    revert Hpre. rewrite qcq_unfold at 2 4. cbn [append]. intros Hpre.
    cbn [Py.split_go]. rewrite Hpre.
    destruct (Z.eqb_spec k 0) as [?|_]; [contradiction|]. cbn [negb andb].
    rewrite qcq_unfold at 2. cbn [String.length Nat.pred Py.split_go].
    reflexivity.
  - cbn [Py.mem_char] in Hfree. apply orb_false_elim in Hfree as [Hc Hfree].
    cbn [append Py.split_go]. rewrite prefix_qcq_other by assumption.
    rewrite andb_false_r, IH by assumption. now rewrite append_snoc.
Qed.

Lemma qcq_end (p : string) :
  forall (k : Z) (cur : string),
    Py.mem_char (ascii_of_nat 34) p = false ->
    Py.split_go quote_comma_quote k O cur (p ++ quote) = [cur ++ p ++ quote].
Proof.
  induction p as [|c p IH]; intros k cur Hfree.
  - cbn [append quote Py.split_go].
    assert (Hpre : prefix quote_comma_quote
                     (String (ascii_of_nat 34) EmptyString) = false).
    { rewrite qcq_unfold, prefix_cons. cbn [prefix]. apply andb_false_r. }
    rewrite Hpre, andb_false_r. reflexivity.
  - cbn [Py.mem_char] in Hfree. apply orb_false_elim in Hfree as [Hc Hfree].
    cbn [append Py.split_go]. rewrite prefix_qcq_other by assumption.
    rewrite andb_false_r, IH by assumption. now rewrite append_snoc.
Qed.

Lemma qcq_pieces (pieces : list string) :
  forall (p : string) (k : Z) (cur : string),
    k < 0 -> all_chars is_quote cur = true ->
    Forall (fun x => Py.mem_char (ascii_of_nat 34) x = false) (p :: pieces) ->
    map (Py.strip quote)
        (Py.split_go quote_comma_quote k O cur
           (Py.join quote_comma_quote (p :: pieces) ++ quote))
    = p :: pieces.
Proof.
  induction pieces as [|p2 rest IH]; intros p k cur Hk Hcur Hfree;
    inversion Hfree as [|? ? Hp Hrest]; subst;
    destruct (free_of_quote_ends p Hp) as [Hfirst Hlast].
  - cbn [Py.join]. rewrite qcq_end by assumption. cbn [map].
    now rewrite strip_wrapped.
  - rewrite join_cons by discriminate.
    rewrite !append_assoc, qcq_cut by (assumption || lia).
    cbn [map]. rewrite IH by (assumption || lia || reflexivity).
    rewrite <- (append_nil_r p) at 1.
    now rewrite strip_wrapped.
Qed.

Lemma split_go_leading (sep : string) (c : ascii) (rest : string) (k : Z)
      (cur : string) :
  prefix sep (String c rest) = false ->
  Py.split_go sep k O cur (String c rest)
  = Py.split_go sep k O (cur ++ String c EmptyString) rest.
Proof. intros H. cbn [Py.split_go]. now rewrite H, andb_false_r. Qed.

Lemma quoted_list_tokens (text : string) (sprintf : list string) :
  Forall (fun x => Py.mem_char (ascii_of_nat 34) x = false) (text :: sprintf) ->
  first_is is_comma text = false ->
  map (Py.strip quote)
      (Py.split quote_comma_quote (-1) (quoted_list (text :: sprintf)))
  = text :: sprintf.
Proof.
  intros Hfree Hcomma.
  assert (Hpre : prefix quote_comma_quote
                   (String (ascii_of_nat 34)
                      (Py.join quote_comma_quote (text :: sprintf) ++ quote))
                 = false).
  { rewrite qcq_unfold, prefix_cons, Ascii.eqb_refl. cbn [andb].
    destruct text as [|c text].
    - destruct sprintf as [|p rest]; cbn [Py.join append]; unfold quote;
        rewrite prefix_cons; reflexivity.
    - cbn in Hcomma. unfold is_comma in Hcomma.
      rewrite Ascii.eqb_sym in Hcomma.
      destruct sprintf as [|p rest]; cbn [Py.join append];
        now rewrite prefix_cons, Hcomma. }
  unfold Py.split.
  change (quoted_list (text :: sprintf))
    with (String (ascii_of_nat 34)
            (Py.join quote_comma_quote (text :: sprintf) ++ quote)).
  rewrite split_go_leading by exact Hpre.
  now apply qcq_pieces.
Qed.

Lemma ebind_lift_ok {E A B : Type} (a : A) (k : A -> eff E B) :
  (x <~ lift (Ok a) ;; k x) = k a.
Proof. unfold ebind, lift. now destruct (k a). Qed.

(** X12: A MSG line in the documented shape: three integers, then the formatted
    text, the template and the parameters, each in double quotes.  When none
    of the quoted pieces holds a double quote and the text does not begin
    with a comma, the checker receives the message with these fields, the
    template and the parameters in [sprintf]; commas inside the pieces are
    kept, and the count field is not compared with the number of
    parameters. *)
Theorem decode_MSG (code flags count text : string) (sprintf : list string)
        (c f n : Z) :
  Py.int code = Some c -> Py.int flags = Some f -> Py.int count = Some n ->
  Forall (fun x => Py.mem_char (ascii_of_nat 34) x = false) (text :: sprintf) ->
  first_is is_comma text = false ->
  parse_line ("MSG:" ++ payload [code; flags; count]
                          (quoted_list (text :: sprintf)))
  = (message <~ check {| msg_code := c; msg_flags := f; msg_count := n;
                         msg_message := text; msg_sprintf := sprintf |} ;;
     ret (MSG, message)).
Proof.
  intros Hc Hf Hn Hfree Hcomma. rewrite parse_line_MSG.
  change 3 with (Z.of_nat (List.length [code; flags; count])).
  rewrite parse_content_payload.
  - rewrite quoted_list_tokens by assumption.
    cbn [app new_MakeMKVMessage firstn skipn]. unfold to_int.
    rewrite Hc, Hf, Hn. cbn [bind].
    exact (ebind_lift_ok _ (fun data => message <~ check data ;;
                                        ret (MSG, message))).
  - repeat constructor;
      [apply (int_no_comma code c) | apply (int_no_comma flags f)
       | apply (int_no_comma count n)]; assumption.
Qed.

Lemma decode_MSG_witness :
  parse_line ("MSG:" ++ payload ["3307"; "0"; "2"]
                          (quoted_list ["File a, b was added";
                                        "File %1 was added as title #%2";
                                        "a, b"; "0"]))
  = ([], Ok (MSG, RMessage {| msg_code := 3307; msg_flags := 0;
                              msg_count := 2;
                              msg_message := "File a, b was added";
                              msg_sprintf :=
                                ["File %1 was added as title #%2";
                                 "a, b"; "0"] |})).
Proof.
  rewrite (decode_MSG "3307" "0" "2" "File a, b was added"
             ["File %1 was added as title #%2"; "a, b"; "0"] 3307 0 2);
    try reflexivity.
  repeat constructor.
Defined.

(** ** The track aggregator, further *)

Section TrackInfoProcessorSequences.

Variable float : Type.
Variable float_of_str : string -> option float.
Variable float_zero : float.
Variable str_of_float : float -> string.

#[local] Abbreviation state' := (TrackInfoProcessor float).
#[local] Abbreviation add_track' :=
  (_add_track float float_zero str_of_float).
#[local] Abbreviation handle' :=
  (_handle_track_or_stream_info float float_of_str float_zero str_of_float).
#[local] Abbreviation step' :=
  (_process_message float float_of_str float_zero str_of_float).
#[local] Abbreviation loop' :=
  (process_loop float float_of_str float_zero str_of_float).
#[local] Abbreviation process' :=
  (process_messages float float_of_str float_zero str_of_float).
#[local] Abbreviation init' := (TrackInfoProcessor_init float float_zero).
#[local] Abbreviation body' := (handle_info float float_of_str).

Lemma dedup_adjacent_same (t : Z) (l : list Z) :
  dedup_adjacent (t :: t :: l) = dedup_adjacent (t :: l).
Proof. cbn [dedup_adjacent]. now rewrite Z.eqb_refl. Qed.

Lemma dedup_adjacent_other (u t : Z) (l : list Z) :
  u <> t -> dedup_adjacent (u :: t :: l) = u :: dedup_adjacent (t :: l).
Proof. intros H. cbn [dedup_adjacent]. apply Z.eqb_neq in H. now rewrite H. Qed.

(** The calls of the handler of title and stream records, and the title it
    leaves pending. *)
Lemma handle_calls (self : state') (tid : Z) (message : TInfo + SInfo)
      (calls : list db_call) (r : result state') :
  handle' self tid message = (calls, r) ->
  calls = match track_id self with
          | Some other =>
              if other =? tid then []
              else [commit_call str_of_float self other]
          | None => []
          end
  /\ (forall self', r = Ok self' -> track_id self' = Some tid).
Proof.
  destruct (track_id self) as [other|] eqn:Hid.
  - destruct (Z.eq_dec tid other) as [->|Hne].
    + rewrite (handle_same float float_of_str float_zero str_of_float)
        by now left.
      rewrite Z.eqb_refl. intros [= <- <-]. split; [reflexivity|].
      intros self' Hok.
      now rewrite (body_track_id float float_of_str _ _ _ Hok).
    + rewrite (handle_other float float_of_str float_zero str_of_float
                 self tid other) by assumption.
      assert (Hn : (other =? tid) = false) by (apply Z.eqb_neq; congruence).
      rewrite Hn. intros [= <- <-]. split; [reflexivity|].
      intros self' Hok.
      now rewrite (body_track_id float float_of_str _ _ _ Hok).
  - rewrite (handle_same float float_of_str float_zero str_of_float)
      by now right.
    intros [= <- <-]. split; [reflexivity|].
    intros self' Hok.
    now rewrite (body_track_id float float_of_str _ _ _ Hok).
Qed.

Lemma step_titled (self : state') (m : record) (t : Z)
      (calls : list db_call) (r : result state') :
  title_of m = Some t ->
  step' self m = (calls, r) ->
  calls = match track_id self with
          | Some other =>
              if other =? t then []
              else [commit_call str_of_float self other]
          | None => []
          end
  /\ (forall self', r = Ok self' -> track_id self' = Some t).
Proof.
  destruct m; cbn [title_of _process_message]; try discriminate;
    intros [= <-]; apply handle_calls.
Qed.

Lemma step_untitled (self : state') (m : record) :
  title_of m = None ->
  exists calls,
    step' self m = (calls, Ok self) /\ filter is_put_track calls = [].
Proof.
  destruct m; cbn [title_of _process_message]; try discriminate; intros _;
    try (now exists []).
  eexists. split; reflexivity.
Qed.

Lemma committed_put_tracks (calls : list db_call) :
  committed (filter is_put_track calls) = committed calls.
Proof.
  unfold committed. induction calls as [|c calls IH]; [reflexivity|].
  destruct c; cbn [filter is_put_track flat_map app]; congruence.
Qed.

Lemma committed_app (a b : list db_call) :
  committed (a ++ b) = (committed a ++ committed b)%list.
Proof. unfold committed. apply flat_map_app. Qed.

Lemma loop_titles (msgs : list record) :
  forall (self self' : state') (calls : list db_call),
    loop' self msgs = (calls, Ok self') ->
    (committed calls ++ pending self')%list
    = dedup_adjacent (pending self ++ titles msgs).
Proof.
  induction msgs as [|m rest IH]; intros self self' calls.
  - cbn. intros [= <- <-]. rewrite app_nil_r. unfold pending.
    now destruct (track_id self).
  - cbn [process_loop].
    destruct (step' self m) as [calls1 [self1|e]] eqn:Hstep; cbn [ebind];
      [|discriminate].
    destruct (loop' self1 rest) as [calls2 r2] eqn:Hloop.
    intros [= <- ->]. specialize (IH self1 self' calls2 Hloop).
    rewrite committed_app, <- app_assoc, IH.
    destruct (title_of m) as [t|] eqn:Htitle.
    + destruct (step_titled self m t _ _ Htitle Hstep) as [-> Hid].
      specialize (Hid self1 eq_refl).
      replace (titles (m :: rest)) with (t :: titles rest)
        by (unfold titles; cbn [flat_map]; now rewrite Htitle).
      unfold pending. rewrite Hid. cbn [app]. clear Hstep.
      destruct (track_id self) as [u|] eqn:Hself.
      * cbn [app]. destruct (Z.eqb_spec u t) as [->|Hne].
        -- now rewrite dedup_adjacent_same.
        -- now rewrite (dedup_adjacent_other u t).
      * reflexivity.
    + destruct (step_untitled self m Htitle) as (calls' & Hstep' & Hnone).
      rewrite Hstep in Hstep'. injection Hstep' as <- <-.
      replace (titles (m :: rest)) with (titles rest)
        by (unfold titles; cbn [flat_map]; now rewrite Htitle).
      now rewrite <- committed_put_tracks, Hnone.
Qed.

(** X13: When the stream ends normally and no record raises, the titles committed
    are, in order, the title ids of the title and stream records with each
    run of equal ids taken once: a title whose records are interleaved with
    another title's is committed once per run. *)
Theorem commits_follow_title_runs (msgs : list record)
        (calls : list db_call) (self' : state') :
  process' init' (msgs, Returned) = (calls, Ok self') ->
  committed calls = dedup_adjacent (titles msgs).
Proof.
  unfold process_messages. cbn [fst snd].
  destruct (loop' init' msgs) as [calls1 [self1|e]] eqn:Hloop; cbn [ebind];
    [|discriminate].
  pose proof (loop_titles msgs init' self1 calls1 Hloop) as H.
  cbn [pending TrackInfoProcessor_init track_id app] in H.
  unfold _add_track. unfold pending in H.
  destruct (track_id self1) as [t|]; cbn [ebind emit ret app].
  - intros [= <- _]. rewrite committed_app. cbn. exact H.
  - intros [= <- _]. now rewrite !app_nil_r in *.
Qed.

Lemma loop_filter (msgs : list record) :
  forall self : state',
    loop' self (filter is_titled msgs)
    = (filter is_put_track (fst (loop' self msgs)), snd (loop' self msgs)).
Proof.
  induction msgs as [|m rest IH]; intros self; [reflexivity|].
  cbn [filter process_loop]. unfold is_titled at 1.
  destruct (title_of m) as [t|] eqn:Htitle.
  - cbn [process_loop].
    destruct (step' self m) as [calls1 r1] eqn:Hstep.
    destruct (step_titled self m t _ _ Htitle Hstep) as [Hcalls _].
    assert (Hput : filter is_put_track calls1 = calls1).
    { rewrite Hcalls. destruct (track_id self) as [other|]; [|reflexivity].
      now destruct (other =? t). }
    destruct r1 as [self1|e]; cbn [ebind fst snd].
    + rewrite IH. destruct (loop' self1 rest) as [calls2 r2]. cbn [fst snd].
      now rewrite filter_app, Hput.
    + now rewrite Hput.
  - destruct (step_untitled self m Htitle) as (calls1 & -> & Hnone).
    cbn [ebind]. rewrite IH.
    destruct (loop' self rest) as [calls2 r2]. cbn [fst snd].
    now rewrite filter_app, Hnone.
Qed.

(** X14: Records other than title and stream records play no part in the
    aggregation: dropping them from the stream leaves the [put_track] calls
    and the result as they are (a title count only updates the job). *)
Theorem other_records_do_not_interfere (msgs : list record)
        (ending : outcome) :
  process' init' (filter is_titled msgs, ending)
  = (filter is_put_track (fst (process' init' (msgs, ending))),
     snd (process' init' (msgs, ending))).
Proof.
  unfold process_messages. cbn [fst snd]. rewrite loop_filter.
  destruct (loop' init' msgs) as [calls1 [self1|e]]; cbn [fst snd ebind];
    [|reflexivity].
  destruct ending as [|e]; cbn [raise].
  - unfold _add_track. destruct (track_id self1); cbn [ebind emit ret app fst snd].
    + now rewrite filter_app.
    + now rewrite !app_nil_r.
  - now rewrite !app_nil_r.
Qed.

(** X15: When the generator raises at its end (the tool exited with a non-zero
    status, or lines were left unparsed), the title that was being
    accumulated is never handed to [put_track]: the calls are those of the
    normal end without the last commit, and the exception is passed on. *)
Theorem failed_stream_loses_last_title (msgs : list record) (e : exn)
        (calls : list db_call) (self : state') (t : Z) :
  loop' init' msgs = (calls, Ok self) -> track_id self = Some t ->
  process' init' (msgs, Raised e) = (calls, Raise e)
  /\ process' init' (msgs, Returned)
     = ((calls ++ [commit_call str_of_float self t])%list,
        Ok (defaults float_zero (Some t) (stream_type self))).
Proof.
  intros Hloop Hid. unfold process_messages. cbn [fst snd].
  rewrite Hloop. cbn [ebind raise].
  rewrite (add_track_some float float_zero str_of_float self t Hid).
  now rewrite app_nil_r.
Qed.

Lemma body_no_video (self self' : state') (message : TInfo + SInfo) :
  no_video_seen float_zero self ->
  match message with
  | inr s => no_video (RSInfo s) = true
  | inl _ => True
  end ->
  body' self message = Ok self' -> no_video_seen float_zero self'.
Proof.
  intros Hinv Hmsg.
  assert (Hkeep : forall s : state',
             stream_type s = stream_type self -> aspect s = aspect self ->
             fps s = fps self -> no_video_seen float_zero s).
  { intros s H1 H2 H3. unfold no_video_seen. now rewrite H1, H2, H3. }
  destruct message as [t|s]; cbn [handle_info].
  - unfold _handle_tinfo.
    destruct (tinfo_id t =? TrackID.FILENAME);
      [intros [= <-]; now apply Hkeep|].
    destruct (tinfo_id t =? TrackID.DURATION);
      [|intros [= <-]; now apply Hkeep].
    destruct (convert_to_seconds _); cbn [bind]; [|discriminate].
    intros [= <-]. now apply Hkeep.
  - unfold _handle_sinfo. cbn [no_video] in Hmsg.
    destruct Hinv as (Hst & Ha & Hf).
    destruct (sinfo_id s =? StreamID.TYPE); cbn [andb] in Hmsg.
    + intros [= <-]. unfold no_video_seen. cbn [stream_type aspect fps].
      split; [|now split].
      intros [= H]. rewrite H in Hmsg. discriminate.
    + destruct (stream_type self) as [st|] eqn:Hself;
        [|intros [= <-]; now apply Hkeep].
      destruct (Z.eqb_spec st MAKEMKV_STREAM_CODE_TYPE_VIDEO) as [->|_];
        [now contradiction Hst|].
      intros [= <-]. now apply Hkeep.
Qed.

Lemma step_no_video (self : state') (m : record) (calls : list db_call)
      (r : result state') :
  no_video_seen float_zero self -> no_video m = true ->
  step' self m = (calls, r) ->
  Forall (plain_video_fields float_zero str_of_float) calls
  /\ (forall self', r = Ok self' -> no_video_seen float_zero self').
Proof.
  intros Hinv Hm.
  assert (Hhandle : forall tid message,
             match message with
             | inr s => no_video (RSInfo s) = true
             | inl _ => True
             end ->
             handle' self tid message = (calls, r) ->
             Forall (plain_video_fields float_zero str_of_float) calls
             /\ (forall self', r = Ok self' ->
                               no_video_seen float_zero self')).
  { intros tid message Hmsg. destruct Hinv as (Hst & Ha & Hf).
    destruct (track_id self) as [other|] eqn:Hid.
    - destruct (Z.eq_dec tid other) as [->|Hne].
      + rewrite (handle_same float float_of_str float_zero str_of_float)
          by now left.
        intros [= <- <-]. split; [constructor|].
        intros self'. now apply body_no_video.
      + rewrite (handle_other float float_of_str float_zero str_of_float
                   self tid other) by assumption.
        intros [= <- <-]. split.
        * constructor; [|constructor]. cbn. now rewrite Ha, Hf.
        * intros self'. now apply body_no_video.
    - rewrite (handle_same float float_of_str float_zero str_of_float)
        by now right.
      intros [= <- <-]. split; [constructor|].
      intros self'. now apply body_no_video. }
  destruct m; cbn [_process_message]; try (now apply Hhandle);
    unfold ret, _handle_titles; cbn [ebind emit ret app];
    intros [= <- <-];
    (split; [repeat constructor | intros self' [= <-]; exact Hinv]).
Qed.

Lemma loop_no_video (msgs : list record) :
  forall (self : state') (calls : list db_call) (r : result state'),
    no_video_seen float_zero self ->
    Forall (fun m => no_video m = true) msgs ->
    loop' self msgs = (calls, r) ->
    Forall (plain_video_fields float_zero str_of_float) calls
    /\ (forall self', r = Ok self' -> no_video_seen float_zero self').
Proof.
  induction msgs as [|m rest IH]; intros self calls r Hinv Hall.
  - cbn. intros [= <- <-]. split; [constructor|].
    intros self' [= <-]. exact Hinv.
  - inversion Hall as [|? ? Hm Hrest]; subst. cbn [process_loop].
    destruct (step' self m) as [calls1 [self1|e]] eqn:Hstep;
      destruct (step_no_video self m _ _ Hinv Hm Hstep) as [Hc1 Hs1];
      cbn [ebind].
    + destruct (loop' self1 rest) as [calls2 r2] eqn:Hloop.
      intros [= <- <-].
      destruct (IH self1 calls2 r2 (Hs1 self1 eq_refl) Hrest Hloop)
        as [Hc2 Hs2].
      split; [now apply Forall_app | exact Hs2].
    + intros [= <- <-]. split; [exact Hc1 | discriminate].
Qed.

(** X16: Aspect ratio and frame rate come from video streams only: when no stream
    type record of the stream carries the video code, every track is
    committed with an empty aspect and the frame rate 0.0, whatever aspect
    and frame rate records the stream holds. *)
Theorem aspect_and_fps_need_video_stream (msgs : list record)
        (ending : outcome) :
  Forall (fun m => no_video m = true) msgs ->
  Forall (plain_video_fields float_zero str_of_float) (fst (process' init' (msgs, ending))).
Proof.
  intros Hall. unfold process_messages. cbn [fst snd].
  assert (Hinit : no_video_seen float_zero init')
    by (repeat split; discriminate).
  destruct (loop' init' msgs) as [calls1 r1] eqn:Hloop.
  destruct (loop_no_video msgs init' calls1 r1 Hinit Hall Hloop)
    as [Hc1 Hs1].
  destruct r1 as [self1|e]; cbn [ebind fst]; [|exact Hc1].
  destruct ending as [|e]; cbn [raise fst].
  - destruct (Hs1 self1 eq_refl) as (_ & Ha & Hf).
    unfold _add_track.
    destruct (track_id self1); cbn [ebind emit ret app fst].
    + apply Forall_app. split; [exact Hc1|].
      constructor; [|constructor]. cbn. now rewrite Ha, Hf.
    + now rewrite !app_nil_r.
  - now rewrite app_nil_r.
Qed.

Lemma quoted_or_raw_plain (value : string) :
  Py.mem_char (ascii_of_nat 34) value = false -> quoted_or_raw value = value.
Proof.
  intros H. unfold quoted_or_raw, Py.split, quote.
  now rewrite split_go_char_free.
Qed.

(** X17: From the wire to the track: the file name of a FILENAME line whose quoted
    value holds no double quote is that value, as the tokenizer has taken
    the quotes off and the aggregator falls back on the raw value. *)
Theorem filename_from_wire (tid code value : string) (ztid zcode : Z)
        (self : state') :
  Py.int tid = Some ztid -> Py.int code = Some zcode ->
  Py.mem_char (ascii_of_nat 34) value = false ->
  exists t,
    parse_line ("TINFO:" ++ payload [tid; "27"; code] (quoted value))
    = ([], Ok (TINFO, RTInfo t))
    /\ tinfo_tid t = ztid
    /\ _handle_tinfo float self t =
       Ok {| track_id := track_id self; seconds := seconds self;
             aspect := aspect self; fps := fps self; filename := value;
             stream_type := stream_type self |}.
Proof.
  intros Htid Hcode Hfree.
  destruct (free_of_quote_ends value Hfree) as [Hfirst Hlast].
  exists {| tinfo_id := TrackID.FILENAME; tinfo_code := zcode;
            tinfo_value := value; tinfo_tid := ztid |}.
  split; [|split; [reflexivity|]].
  - rewrite parse_line_TINFO.
    change 3 with (Z.of_nat (List.length [tid; "27"; code])).
    rewrite parse_content_fields
      by (repeat constructor; eauto; now exists 27).
    rewrite strip_quoted by assumption.
    cbn [app unpack1 lift ebind new_TInfo]. unfold to_int.
    rewrite Hcode, Htid. reflexivity.
  - unfold _handle_tinfo. cbn [tinfo_id tinfo_value].
    now rewrite quoted_or_raw_plain.
Qed.

End TrackInfoProcessorSequences.

Lemma filename_from_wire_witness :
  exists t,
    parse_line ("TINFO:" ++ payload ["0"; "27"; "0"] (quoted "title_t00.mkv"))
    = ([], Ok (TINFO, RTInfo t))
    /\ tinfo_tid t = 0
    /\ _handle_tinfo string (TrackInfoProcessor_init string Text_zero) t =
       Ok {| track_id := None; seconds := 0; aspect := ""; fps := Text_zero;
             filename := "title_t00.mkv"; stream_type := None |}.
Proof.
  apply (filename_from_wire string "0" "0" "title_t00.mkv" 0 0
           (TrackInfoProcessor_init string Text_zero)); reflexivity.
Defined.

Lemma commits_follow_title_runs_witness :
  committed
    [put_track 1 0 "" "0.0" false SOURCE "";
     put_track 2 0 "" "0.0" false SOURCE "";
     put_track 1 0 "" "0.0" false SOURCE ""]
  = dedup_adjacent
      (titles [example_tinfo 1 2 "a"; example_tinfo 1 8 "b";
               example_tinfo 2 2 "c"; example_tinfo 1 2 "d"]).
Proof.
  apply (commits_follow_title_runs string Text_of_str Text_zero Text_str
           [example_tinfo 1 2 "a"; example_tinfo 1 8 "b";
            example_tinfo 2 2 "c"; example_tinfo 1 2 "d"]
           _ (defaults Text_zero (Some 1) None)).
  reflexivity.
Defined.

Lemma failed_stream_loses_last_title_witness :
  process_messages string Text_of_str Text_zero Text_str
    (TrackInfoProcessor_init string Text_zero)
    ([example_tinfo 1 2 "a"; example_tinfo 2 2 "b"],
     Raised (MakeMkvRuntimeError 1 [] ""))
  = ([put_track 1 0 "" "0.0" false SOURCE ""],
     Raise (MakeMkvRuntimeError 1 [] "")).
Proof.
  apply (failed_stream_loses_last_title string Text_of_str Text_zero Text_str
           [example_tinfo 1 2 "a"; example_tinfo 2 2 "b"]
           (MakeMkvRuntimeError 1 [] "")
           [put_track 1 0 "" "0.0" false SOURCE ""]
           (set_track_id string (defaults Text_zero (Some 1) None) 2) 2);
    reflexivity.
Defined.

Lemma aspect_and_fps_need_video_stream_witness :
  Forall (plain_video_fields Text_zero Text_str)
    (fst (process_messages string Text_of_str Text_zero Text_str
            (TrackInfoProcessor_init string Text_zero)
            ([example_sinfo 1 StreamID.TYPE 6202 "Audio";
              example_sinfo 1 StreamID.ASPECT 0 "16:9";
              example_sinfo 1 StreamID.FPS 0 "25"], Returned))).
Proof.
  apply (aspect_and_fps_need_video_stream string Text_of_str Text_zero
           Text_str).
  repeat constructor.
Defined.

(** ** Durations *)

Lemma int_no_colon (s : string) (z : Z) :
  Py.int s = Some z -> Py.mem_char ":" s = false.
Proof.
  intros H. apply (all_chars_not_mem int_char); [|reflexivity].
  now apply (int_chars s z).
Qed.

(** X18: [convert_to_seconds] on every shape of text.  Three fields between
    two colons that [int()] accepts give hours * 3600 + minutes * 60 +
    seconds, with no check of their range (minutes and seconds may exceed 59
    or be negative); if [int()] refuses one of the three fields (not a
    number, or more than 4300 digits) the call raises ValueError; so does a
    text with no colon, with one colon only (minutes and seconds), or with
    three colons or more. *)
Theorem convert_to_seconds_shape :
  (forall hour mins secs h m s,
      Py.int hour = Some h -> Py.int mins = Some m -> Py.int secs = Some s ->
      convert_to_seconds (hour ++ ":" ++ mins ++ ":" ++ secs)
      = Ok (h * 3600 + m * 60 + s))
  /\ (forall text,
        Py.mem_char ":" text = false ->
        convert_to_seconds text = Raise ValueError)
  /\ (forall mins secs,
        Py.mem_char ":" mins = false -> Py.mem_char ":" secs = false ->
        convert_to_seconds (mins ++ ":" ++ secs) = Raise ValueError)
  /\ (forall hour mins secs,
        Py.mem_char ":" hour = false -> Py.mem_char ":" mins = false ->
        Py.mem_char ":" secs = false ->
        Py.int hour = None \/ Py.int mins = None \/ Py.int secs = None ->
        convert_to_seconds (hour ++ ":" ++ mins ++ ":" ++ secs)
        = Raise ValueError)
  /\ (forall a b c rest,
        Py.mem_char ":" a = false -> Py.mem_char ":" b = false ->
        Py.mem_char ":" c = false ->
        convert_to_seconds (a ++ ":" ++ b ++ ":" ++ c ++ ":" ++ rest)
        = Raise ValueError).
Proof.
  split; [|split; [|split; [|split]]].
  - intros hour mins secs h m s Hh Hm Hs. unfold convert_to_seconds, Py.split.
    change (hour ++ ":" ++ mins ++ ":" ++ secs)
      with (hour ++ String ":" (mins ++ String ":" secs)).
    rewrite split_go_char_cut by (discriminate || now apply (int_no_colon _ h)).
    rewrite split_go_char_cut by (discriminate || now apply (int_no_colon _ m)).
    rewrite split_go_char_free by now apply (int_no_colon _ s).
    cbn [append]. unfold to_int. now rewrite Hh, Hm, Hs.
  - intros text H. unfold convert_to_seconds, Py.split.
    now rewrite split_go_char_free.
  - intros mins secs Hm Hs. unfold convert_to_seconds, Py.split.
    change (mins ++ ":" ++ secs) with (mins ++ String ":" secs).
    rewrite split_go_char_cut by (discriminate || assumption).
    now rewrite split_go_char_free.
  - intros hour mins secs Hh Hm Hs Hbad. unfold convert_to_seconds, Py.split.
    change (hour ++ ":" ++ mins ++ ":" ++ secs)
      with (hour ++ String ":" (mins ++ String ":" secs)).
    rewrite split_go_char_cut by (discriminate || assumption).
    rewrite split_go_char_cut by (discriminate || assumption).
    rewrite split_go_char_free by assumption.
    cbn [append]. unfold to_int, bind.
    destruct (Py.int hour); [|reflexivity].
    destruct (Py.int mins); [|reflexivity].
    destruct (Py.int secs); [|reflexivity].
    destruct Hbad as [H|[H|H]]; discriminate H.
  - intros a b c rest Ha Hb Hc. unfold convert_to_seconds, Py.split.
    change (a ++ ":" ++ b ++ ":" ++ c ++ ":" ++ rest)
      with (a ++ String ":" (b ++ String ":" (c ++ String ":" rest))).
    rewrite split_go_char_cut by (discriminate || assumption).
    rewrite split_go_char_cut by (discriminate || assumption).
    rewrite split_go_char_cut by (discriminate || assumption).
    pose proof (split_go_nonempty ":" rest (-1 - 1 - 1 - 1) O EmptyString)
      as Hne.
    destruct (Py.split_go ":" (-1 - 1 - 1 - 1) 0 EmptyString rest);
      [contradiction | reflexivity].
Qed.

Lemma convert_to_seconds_shape_witness :
  convert_to_seconds ("0" ++ ":" ++ "90" ++ ":" ++ "00") = Ok 5400
  /\ convert_to_seconds ("90" ++ ":" ++ "00") = Raise ValueError.
Proof.
  destruct convert_to_seconds_shape as (H3 & _ & H2 & _). split.
  - apply (H3 "0" "90" "00" 0 90 0); reflexivity.
  - apply (H2 "90" "00"); reflexivity.
Defined.


(** ** The drive query *)

Lemma run_yielded_all (P : record -> Prop) (which : option string)
      (options : list string) (select : Z) (proc : Process) :
  (forall line logs t r,
      parse_line line = (logs, Ok (t, r)) -> flag_in t select = true -> P r) ->
  Forall P (fst (run which options select proc)).
Proof.
  intros HP.
  assert (H : Forall P
                (yielded (fst (run_loop select None (stdout proc) run_init)))).
  { apply run_loop_yielded; [exact HP|constructor]. }
  unfold run.
  destruct (run_loop select None (stdout proc) run_init) as [st left].
  cbn [fst] in H.
  destruct left; [exact H|].
  destruct (negb (exit_status proc =? 0)); [exact H|].
  now destruct (buffer st).
Qed.

Lemma parse_line_Drive (line : string) (logs : list log_entry)
      (t : OutputType) (d : Drive) :
  parse_line line = (logs, Ok (t, RDrive d)) ->
  exists args logs', new_Drive args = (logs', Ok d).
Proof.
  intros H.
  destruct (parse_line_inv _ _ _ _ H)
    as (Ht & msg_type & content & Hsplit & Hmem).
  cbn [tag_of] in Ht. subst t. revert H. unfold parse_line.
  destruct (Py.contains ":" line); [|discriminate]. cbn [negb].
  rewrite Hsplit, Hmem.
  destruct (new_Drive (rev (parse_content content 4 2))) as [l [x|e]] eqn:Hx;
    cbn [ebind ret]; [|discriminate].
  intros [= _ <-]. now exists (rev (parse_content content 4 2)), l.
Qed.

Lemma attached_visible (mount disc info : string) (flags : Z)
      (enabled : bool) (visible index : Z) :
  drv_attached (drive_record mount disc info flags enabled visible index)
  = true ->
  0 <= visible <= 3.
Proof.
  cbn [drive_record drv_attached].
  destruct (Z.eqb_spec visible 0); [lia|].
  destruct (Z.eqb_spec visible 1); [lia|].
  destruct (Z.eqb_spec visible 2); [lia|].
  destruct (Z.eqb_spec visible 3); [lia|discriminate].
Qed.

Lemma attached_drives_all_drives (records : list record) :
  Forall (fun r => tag_of r = DRV) records ->
  attached_drives records = (attached_among records, None).
Proof.
  induction 1 as [|r rest Hr _ IH]; [reflexivity|].
  destruct r; try discriminate. cbn [attached_drives]. rewrite IH.
  unfold attached_among. cbn [flat_map].
  now destruct (drv_attached d).
Qed.

(** The drive query yields drive records only, and an attached one has a
    tray state code from 0 to 3. *)
Lemma drive_query_records (which : option string) (options : list string)
      (proc : Process) :
  Forall (fun r => tag_of r = DRV)
         (fst (run which options (OutputType_value DRV) proc))
  /\ Forall (fun d => drv_attached d = true /\ 0 <= drv_visible d <= 3)
            (attached_among
               (fst (run which options (OutputType_value DRV) proc))).
Proof.
  set (query := run which options (OutputType_value DRV) proc).
  assert (Htags : Forall (fun r => tag_of r = DRV) (fst query)).
  { apply run_yielded_all. intros line logs t r Hline Hsel.
    apply parse_line_inv in Hline as [<- _].
    destruct r; cbn in Hsel |- *; try discriminate; reflexivity. }
  assert (Hwf : Forall (fun r => forall d, r = RDrive d ->
                          drv_attached d = true -> 0 <= drv_visible d <= 3)
                  (fst query)).
  { apply run_yielded_all. intros line logs t r Hline _ d ->.
    apply parse_line_Drive in Hline as (args & logs' & Hargs).
    apply new_Drive_Ok in Hargs
      as (mount & disc & info & flags & enabled & visible & index
          & f & e & v & i & _ & _ & _ & _ & _ & _ & ->).
    intros Hatt. apply attached_visible in Hatt. exact Hatt. }
  split; [exact Htags|]. clear Htags.
  induction (fst query) as [|r rest IH]; [constructor|].
  inversion Hwf as [|? ? Hr Hrest]; subst.
  unfold attached_among. cbn [flat_map]. apply Forall_app.
  split; [|now apply IH].
  destruct r; try constructor.
  destruct (drv_attached d) eqn:Hatt; constructor; [|constructor].
  split; [exact Hatt|]. now apply Hr.
Qed.

(** X19: [get_drives] never trips over a record without the [attached]
    attribute: it selects drive records only.  Whenever it comes back it
    ends as the info query of all discs ends and has yielded exactly the
    attached drives the query reports, each with a tray state code from 0
    to 3; and it does come back, with this result, as soon as the throttle
    clears (the ceiling is 0, or two polls within the bound find the count
    of running processes at or below the ceiling). *)
Theorem get_drives_attached_only (fuel : nat) (config : Config)
        (running : nat -> Z) (which : option string) (proc : Process) :
  let query :=
    run which ["info"; "--cache=1"; "disc:9999"] (OutputType_value DRV) proc in
  (forall calls drives ending,
      get_drives fuel config running which proc
      = Some (calls, (drives, ending)) ->
      ending = drives_end (snd query) /\ drives = attached_among (fst query))
  /\ (throttle_clears fuel (MAX_CONCURRENT_MAKEMKVINFO config) running ->
      exists calls,
        get_drives fuel config running which proc
        = Some (calls, (attached_among (fst query), drives_end (snd query))))
  /\ Forall (fun r => tag_of r = DRV) (fst query)
  /\ Forall (fun d => drv_attached d = true /\ 0 <= drv_visible d <= 3)
            (attached_among (fst query)).
Proof.
  cbv zeta.
  destruct (drive_query_records which ["info"; "--cache=1"; "disc:9999"] proc)
    as [Htags Hall].
  split; [|split; [|split; [exact Htags|exact Hall]]].
  - intros calls drives ending. unfold get_drives, makemkv_info.
    destruct (sleep_check_process fuel "makemkvcon"
                (MAX_CONCURRENT_MAKEMKVINFO config)
                (sleep_range 10 (MANUAL_WAIT_TIME config) 10) running 0)
      as [[before polls]|]; [|discriminate].
    destruct (sleep_check_process fuel "makemkvcon"
                (MAX_CONCURRENT_MAKEMKVINFO config)
                (sleep_seconds (MANUAL_WAIT_TIME config)) running polls)
      as [[after polls']|]; [|discriminate].
    change (["info"; "--cache=1"] ++ []
              ++ [String.append "disc:" (format_d 9999)])%list
      with ["info"; "--cache=1"; "disc:9999"].
    destruct (run which ["info"; "--cache=1"; "disc:9999"]
                (OutputType_value DRV) proc) as [records ended].
    cbn [fst snd] in *.
    rewrite (attached_drives_all_drives _ Htags).
    intros [= _ <- <-]. now split.
  - intros Hclear. unfold get_drives.
    destruct (makemkv_info_returns fuel config running which
                (Some (OutputType_value DRV)) 9999 [] proc Hclear)
      as [calls ->].
    change (info_options 9999 []) with ["info"; "--cache=1"; "disc:9999"].
    cbn [info_select].
    destruct (run which ["info"; "--cache=1"; "disc:9999"]
                (OutputType_value DRV) proc) as [records ended].
    cbn [fst snd] in *.
    rewrite (attached_drives_all_drives _ Htags).
    now exists calls.
Qed.

Lemma get_drives_attached_only_witness :
  exists calls d,
    get_drives 6 {| MANUAL_WAIT_TIME := 60; MAX_CONCURRENT_MAKEMKVINFO := 2 |}
      (fun n => 5 - Z.of_nat n) None example_drive_scan
    = Some (calls, ([d], drives_end Returned))
    /\ drv_attached d = true /\ drv_visible d = 2.
Proof.
  destruct (get_drives_attached_only 6
              {| MANUAL_WAIT_TIME := 60; MAX_CONCURRENT_MAKEMKVINFO := 2 |}
              (fun n => 5 - Z.of_nat n) None example_drive_scan)
    as (_ & Hruns & _ & _).
  destruct Hruns as [calls Hcalls].
  { right. exists 3%nat, 4%nat. cbn. lia. }
  exists calls. eexists. split; [rewrite Hcalls; reflexivity|].
  split; reflexivity.
Defined.

(** ** The title query *)

Section TrackInfoQuery.

Variable float : Type.
Variable float_of_str : string -> option float.
Variable float_zero : float.
Variable str_of_float : float -> string.

#[local] Abbreviation qstate := (TrackInfoProcessor float).
#[local] Abbreviation qstep :=
  (_process_message float float_of_str float_zero str_of_float).
#[local] Abbreviation qloop :=
  (process_loop float float_of_str float_zero str_of_float).
#[local] Abbreviation qinit := (TrackInfoProcessor_init float float_zero).

Lemma loop_keeps_pending (msgs : list record) :
  forall (self self' : qstate) (calls : list db_call),
    track_id self <> None ->
    qloop self msgs = (calls, Ok self') ->
    track_id self' <> None.
Proof.
  induction msgs as [|m rest IH]; intros self self' calls Hsome.
  - cbn. now intros [= _ <-].
  - cbn [process_loop].
    destruct (qstep self m) as [calls1 [self1|e]] eqn:Hstep; cbn [ebind];
      [|discriminate].
    destruct (qloop self1 rest) as [calls2 r2] eqn:Hloop.
    intros [= _ ->]. apply (IH self1 self' calls2); [|exact Hloop].
    destruct (title_of m) as [t|] eqn:Htitle.
    + destruct (step_titled float float_of_str float_zero str_of_float
                  self m t _ _ Htitle Hstep) as [_ Hid].
      now rewrite (Hid self1 eq_refl).
    + destruct (step_untitled float float_of_str float_zero str_of_float
                  self m Htitle) as (calls' & Hstep' & _).
      rewrite Hstep in Hstep'. now injection Hstep' as _ <-.
Qed.

Lemma loop_nothing_pending (msgs : list record) :
  forall (self self' : qstate) (calls : list db_call),
    qloop self msgs = (calls, Ok self') ->
    track_id self' = None ->
    titles msgs = [].
Proof.
  induction msgs as [|m rest IH]; intros self self' calls; [reflexivity|].
  cbn [process_loop].
  destruct (qstep self m) as [calls1 [self1|e]] eqn:Hstep; cbn [ebind];
    [|discriminate].
  destruct (qloop self1 rest) as [calls2 r2] eqn:Hloop.
  intros [= _ ->] Hnone.
  destruct (title_of m) as [t|] eqn:Htitle.
  - exfalso.
    apply (loop_keeps_pending rest self1 self' calls2); [|exact Hloop|exact Hnone].
    destruct (step_titled float float_of_str float_zero str_of_float
                self m t _ _ Htitle Hstep) as [_ Hid].
    now rewrite (Hid self1 eq_refl).
  - unfold titles. cbn [flat_map]. rewrite Htitle. cbn [app].
    exact (IH self1 self' calls2 Hloop Hnone).
Qed.

Lemma get_track_info_result (fuel : nat) (config : Config)
      (running : nat -> Z) (which : option string) (index : Z)
      (proc : Process) (sys : list sys_call) (db calls : list db_call)
      (r : result qstate) (self : qstate) :
  let msgs := selected track_info_types (stdout proc) in
  let cmd :=
    command which ["info"; "--cache=1"; String.append "disc:" (format_d index)] in
  Forall (fun raw => is_aborting raw = false) (stdout proc) ->
  qloop qinit msgs = (calls, Ok self) ->
  get_track_info float float_of_str float_zero str_of_float fuel config
    running which index proc = Some (sys, (db, r)) ->
  (exit_status proc = 0 -> unparsed (stdout proc) = [] ->
   committed db = dedup_adjacent (titles msgs) /\ exists s, r = Ok s)
  /\ (exit_status proc <> 0 \/ unparsed (stdout proc) <> [] ->
      committed db = removelast (dedup_adjacent (titles msgs))
      /\ r = Raise (MakeMkvRuntimeError (exit_status proc) cmd
                      (Py.join linesep (unparsed (stdout proc))))).
Proof.
  intros msgs cmd Hlines Hloop. unfold get_track_info, makemkv_info.
  destruct (sleep_check_process fuel "makemkvcon"
              (MAX_CONCURRENT_MAKEMKVINFO config)
              (sleep_range 10 (MANUAL_WAIT_TIME config) 10) running 0)
    as [[before polls]|]; [|discriminate].
  destruct (sleep_check_process fuel "makemkvcon"
              (MAX_CONCURRENT_MAKEMKVINFO config)
              (sleep_seconds (MANUAL_WAIT_TIME config)) running polls)
    as [[after polls']|]; [|discriminate].
  cbn [app]. rewrite (run_complete _ _ _ _ Hlines).
  unfold process_messages. cbn [fst snd]. fold msgs. rewrite Hloop.
  cbn [ebind]. fold cmd.
  pose proof (loop_titles float float_of_str float_zero str_of_float
                msgs qinit self calls Hloop) as Htitles.
  cbn [pending TrackInfoProcessor_init track_id app] in Htitles.
  assert (Hlast : committed calls = removelast (dedup_adjacent (titles msgs))).
  { unfold pending in Htitles.
    destruct (track_id self) as [t|] eqn:Hid.
    - rewrite <- Htitles. now rewrite removelast_last.
    - rewrite app_nil_r in Htitles.
      rewrite Htitles,
        (loop_nothing_pending msgs qinit self calls Hloop Hid).
      reflexivity. }
  assert (Hall : committed (calls ++ fst (_add_track float float_zero
                                            str_of_float self))
                 = dedup_adjacent (titles msgs)).
  { rewrite <- Htitles,
      (committed_app). f_equal.
    unfold _add_track, pending.
    now destruct (track_id self). }
  intros H. split.
  - intros Hexit Hnone. revert H. rewrite Hexit, Hnone. cbn [Z.eqb negb].
    destruct (_add_track float float_zero str_of_float self)
      as [calls2 r2] eqn:Hadd.
    assert (Hok : exists s, r2 = Ok s).
    { revert Hadd. unfold _add_track.
      destruct (track_id self); cbn; intros [= _ <-]; eauto. }
    intros [= _ <- <-]. cbn [fst] in Hall. split; [exact Hall|exact Hok].
  - intros Hfail.
    assert (Hraise :
              (if negb (exit_status proc =? 0)
               then Raised (MakeMkvRuntimeError (exit_status proc) cmd
                              (Py.join linesep (unparsed (stdout proc))))
               else match unparsed (stdout proc) with
                    | [] => Returned
                    | _ :: _ =>
                        Raised (MakeMkvRuntimeError (exit_status proc) cmd
                                  (Py.join linesep (unparsed (stdout proc))))
                    end)
              = Raised (MakeMkvRuntimeError (exit_status proc) cmd
                          (Py.join linesep (unparsed (stdout proc))))).
    { destruct (Z.eqb_spec (exit_status proc) 0) as [Hz|Hz]; cbn [negb];
        [|reflexivity].
      destruct (unparsed (stdout proc)); [|reflexivity].
      now destruct Hfail. }
    revert H. rewrite Hraise. cbn [raise]. intros [= _ <- <-].
    rewrite app_nil_r. split; [exact Hlast|reflexivity].
Qed.

(** X20: [get_track_info] on the lines the tool prints, when no line makes
    the runner abort and no record makes a handler raise.  The call comes
    back as soon as the throttle clears (the ceiling is 0, or two polls
    within the bound find the count of running processes at or below the
    ceiling).  Whenever it comes back, the titles stored are read off the
    title and stream lines, each run of equal title ids once: after a clean
    exit with every line decoded all of them are stored; after a non-zero
    exit status, or with undecoded lines left, the last one is missing and
    the call raises MakeMkvRuntimeError with the command line
    [info --cache=1 disc:<index>]. *)
Theorem get_track_info_stores_titles (fuel : nat) (config : Config)
        (running : nat -> Z) (which : option string) (index : Z)
        (proc : Process) (calls : list db_call) (self : qstate) :
  let msgs := selected track_info_types (stdout proc) in
  let cmd :=
    command which ["info"; "--cache=1"; String.append "disc:" (format_d index)] in
  Forall (fun raw => is_aborting raw = false) (stdout proc) ->
  qloop qinit msgs = (calls, Ok self) ->
  (throttle_clears fuel (MAX_CONCURRENT_MAKEMKVINFO config) running ->
   exists sys db r,
     get_track_info float float_of_str float_zero str_of_float fuel config
       running which index proc = Some (sys, (db, r)))
  /\ (forall sys db r,
        get_track_info float float_of_str float_zero str_of_float fuel config
          running which index proc = Some (sys, (db, r)) ->
        (exit_status proc = 0 -> unparsed (stdout proc) = [] ->
         committed db = dedup_adjacent (titles msgs) /\ exists s, r = Ok s)
        /\ (exit_status proc <> 0 \/ unparsed (stdout proc) <> [] ->
            committed db = removelast (dedup_adjacent (titles msgs))
            /\ r = Raise (MakeMkvRuntimeError (exit_status proc) cmd
                            (Py.join linesep (unparsed (stdout proc)))))).
Proof.
  intros msgs cmd Hlines Hloop. split.
  - intros Hclear. unfold get_track_info.
    destruct (makemkv_info_returns fuel config running which
                (Some track_info_types) index [] proc Hclear) as [sys ->].
    destruct (process_messages float float_of_str float_zero str_of_float
                qinit
                (run which (info_options index [])
                   (info_select (Some track_info_types)) proc)) as [db r].
    now exists sys, db, r.
  - intros sys db r H.
    exact (get_track_info_result fuel config running which index proc sys db
             calls r self Hlines Hloop H).
Qed.

End TrackInfoQuery.

Lemma get_track_info_stores_titles_witness :
  exists sys db,
    get_track_info string Text_of_str Text_zero Text_str 6
      {| MANUAL_WAIT_TIME := 60; MAX_CONCURRENT_MAKEMKVINFO := 2 |}
      (fun n => 5 - Z.of_nat n) None 0 (example_title_scan 1)
    = Some (sys,
            (db, Raise (MakeMkvRuntimeError 1
                          ["/usr/local/bin/makemkvcon"; "--robot";
                           "--messages=-stdout"; "info"; "--cache=1";
                           "disc:0"] "")))
    /\ committed db = [0].
Proof.
  destruct (process_loop string Text_of_str Text_zero Text_str
              (TrackInfoProcessor_init string Text_zero)
              (selected track_info_types (stdout (example_title_scan 1))))
    as [calls [self|e]] eqn:Hloop; [|vm_compute in Hloop; discriminate].
  assert (Hlines : Forall (fun raw => is_aborting raw = false)
                     (stdout (example_title_scan 1)))
    by (repeat constructor).
  destruct (get_track_info_stores_titles string Text_of_str Text_zero Text_str
              6 {| MANUAL_WAIT_TIME := 60; MAX_CONCURRENT_MAKEMKVINFO := 2 |}
              (fun n => 5 - Z.of_nat n) None 0 (example_title_scan 1)
              calls self Hlines Hloop) as [Hruns Hresult].
  destruct Hruns as (sys & db & r & Hrun).
  { right. exists 3%nat, 4%nat. cbn. lia. }
  destruct (Hresult sys db r Hrun) as [_ Hfail].
  destruct Hfail as [Hdb Hr]; [left; discriminate|].
  exists sys, db. split.
  - rewrite Hrun, Hr. reflexivity.
  - rewrite Hdb. reflexivity.
Defined.


(** ** The manual wait *)

Lemma manual_wait_loop_ready (manual_start : nat -> bool) (wait_time : nat) :
  forall i : nat,
    (i <= wait_time)%nat ->
    snd (manual_wait_loop manual_start wait_time i) = true
    <-> exists k, (wait_time - i <= k < wait_time)%nat
                  /\ manual_start k = true.
Proof.
  induction i as [|j IH]; intros Hle.
  - cbn. split; [discriminate|]. intros (k & Hk & _). lia.
  - cbn [manual_wait_loop].
    destruct (manual_start (wait_time - S j)%nat) eqn:Hnow.
    + cbn [snd]. split; [|reflexivity]. intros _.
      exists (wait_time - S j)%nat. split; [lia|exact Hnow].
    + destruct (manual_wait_loop manual_start wait_time j)
        as [calls user_ready] eqn:Hrest.
      cbn [snd] in IH |- *. rewrite IH by lia. split.
      * intros (k & Hk & Hready). exists k. split; [lia|exact Hready].
      * intros (k & Hk & Hready). exists k. split; [|exact Hready].
        assert (k <> (wait_time - S j)%nat) by congruence. lia.
Qed.

Lemma manual_wait_loop_first (a b : nat -> bool) (wait_time k : nat) :
  (forall j, (j <= k)%nat -> a j = b j) -> a k = true ->
  forall i : nat,
    (i <= wait_time)%nat -> (wait_time - i <= k)%nat ->
    manual_wait_loop a wait_time i = manual_wait_loop b wait_time i.
Proof.
  intros Hsame Hready. induction i as [|j IH]; intros Hle Hk; [reflexivity|].
  cbn [manual_wait_loop]. rewrite <- (Hsame (wait_time - S j)%nat Hk).
  destruct (a (wait_time - S j)%nat) eqn:Hnow; [reflexivity|].
  assert (k <> (wait_time - S j)%nat) by congruence.
  now rewrite IH by lia.
Qed.

Lemma manual_wait_loop_never (a b : nat -> bool) (wait_time : nat) :
  (forall j, (j < wait_time)%nat -> a j = b j) ->
  forall i : nat,
    (i <= wait_time)%nat ->
    manual_wait_loop a wait_time i = manual_wait_loop b wait_time i.
Proof.
  intros Hsame. induction i as [|j IH]; intros Hle; [reflexivity|].
  cbn [manual_wait_loop]. rewrite <- (Hsame (wait_time - S j)%nat) by lia.
  now rewrite IH by lia.
Qed.

(** X21: [manual_wait] answers True exactly when one of the 30 refreshes of the
    job, one a minute, finds [manual_start] set. *)
Theorem manual_wait_ready_iff (manual_start : nat -> bool) :
  snd (manual_wait manual_start) = true
  <-> exists k, (k < 30)%nat /\ manual_start k = true.
Proof.
  unfold manual_wait.
  pose proof (manual_wait_loop_ready manual_start 30 30 (le_n 30)) as H.
  destruct (manual_wait_loop manual_start 30 30) as [calls user_ready].
  cbn [snd] in *. rewrite H. split.
  - intros (k & Hk & Hready). exists k. split; [lia|exact Hready].
  - intros (k & Hk & Hready). exists k. split; [lia|exact Hready].
Qed.

(** X22: when [manual_start] is never found set, [manual_wait] sleeps 30 times
    60 seconds and answers False; besides the opening notification it has
    sent a reminder with 25, 20, 15, 10 and 5 minutes left (every five
    minutes, none at the start) and the last warning in the final minute. *)
Theorem manual_wait_times_out (manual_start : nat -> bool) :
  (forall k, (k < 30)%nat -> manual_start k = false) ->
  snd (manual_wait manual_start) = false
  /\ slept (fst (manual_wait manual_start)) = 1800
  /\ notifications (fst (manual_wait manual_start))
     = (activated :: map reminder [25; 20; 15; 10; 5]%nat
          ++ [last_warning])%list.
Proof.
  intros Hnever.
  assert (H : manual_wait manual_start = manual_wait (fun _ => false)).
  { unfold manual_wait.
    now rewrite (manual_wait_loop_never manual_start (fun _ => false) 30
                   Hnever 30 (le_n 30)). }
  rewrite H. vm_compute. repeat split; reflexivity.
Qed.

Lemma manual_wait_times_out_witness :
  snd (manual_wait (fun _ => false)) = false
  /\ slept (fst (manual_wait (fun _ => false))) = 1800
  /\ notifications (fst (manual_wait (fun _ => false)))
     = (activated :: map reminder [25; 20; 15; 10; 5]%nat
          ++ [last_warning])%list.
Proof. apply (manual_wait_times_out (fun _ => false)). reflexivity. Defined.

(** X23: when refresh number [k] (from 0) is the first to find [manual_start]
    set, [manual_wait] has slept [k + 1] minutes and leaves at once with
    True: the last notification is the one that the wait is over, the
    reminders sent before are those of the multiples of five minutes above
    [30 - k], and the last warning is never sent. *)
Theorem manual_wait_first_ready (manual_start : nat -> bool) (k : nat) :
  (k < 30)%nat -> manual_start k = true ->
  (forall j, (j < k)%nat -> manual_start j = false) ->
  snd (manual_wait manual_start) = true
  /\ slept (fst (manual_wait manual_start)) = 60 * (Z.of_nat k + 1)
  /\ notifications (fst (manual_wait manual_start))
     = (activated
          :: map reminder
               (filter (fun i => (30 - k <? i)%nat) [25; 20; 15; 10; 5]%nat)
          ++ [wait_is_over])%list.
Proof.
  intros Hk Hready Hfirst.
  assert (H : manual_wait manual_start = manual_wait (Nat.eqb k)).
  { unfold manual_wait.
    rewrite (manual_wait_loop_first manual_start (Nat.eqb k) 30 k);
      [reflexivity| |exact Hready|lia|lia].
    intros j Hj. destruct (Nat.eqb_spec k j) as [<-|Hne]; [exact Hready|].
    apply Hfirst. lia. }
  rewrite H. clear H Hready Hfirst manual_start.
  do 30 (destruct k as [|k]; [vm_compute; repeat split; reflexivity|]).
  lia.
Qed.

Lemma manual_wait_first_ready_witness :
  snd (manual_wait (fun j => (7 <=? j)%nat)) = true
  /\ slept (fst (manual_wait (fun j => (7 <=? j)%nat))) = 480
  /\ notifications (fst (manual_wait (fun j => (7 <=? j)%nat)))
     = [activated; reminder 25; wait_is_over].
Proof.
  apply (manual_wait_first_ready (fun j => (7 <=? j)%nat) 7%nat).
  - lia.
  - reflexivity.
  - intros j Hj. apply Nat.leb_gt. exact Hj.
Defined.

(** ** Single tracks *)

Section SingleTracks.

Variable which : option string.
Variable mkv_args : list string.
Variable progress devpath : string.
Variable minlength maxlength : Z.
Variable spawn : list string -> Process.
Variable rawpath : string.

#[local] Abbreviation tracks_loop :=
  (process_single_tracks which mkv_args progress devpath minlength maxlength
     spawn rawpath).
#[local] Abbreviation cmd_of :=
  (fun track =>
     single_track_cmd mkv_args progress devpath track rawpath).
#[local] Abbreviation decided' := (decided minlength maxlength).

Lemma cmd_of_decided (mode : string) (track : Track) :
  cmd_of (decided' mode track) = cmd_of track.
Proof. unfold decided. now destruct (String.eqb mode "auto"). Qed.

Lemma tracks_loop_cons (mode : string) (track : Track) (rest : list Track) :
  tracks_loop mode (track :: rest)
  = if trk_process (decided' mode track)
    then
      if rips which spawn (cmd_of track)
      then let '(tracks', cmds, ending) := tracks_loop mode rest in
           (decided' mode track :: tracks', cmd_of track :: cmds, ending)
      else (decided' mode track :: rest, [cmd_of track],
            snd (run which (cmd_of track) (OutputType_value MSG)
                   (spawn (cmd_of track))))
    else let '(tracks', cmds, ending) := tracks_loop mode rest in
         (decided' mode track :: tracks', cmds, ending).
Proof.
  cbn [process_single_tracks]. fold (decided' mode track).
  rewrite cmd_of_decided.
  destruct (trk_process (decided' mode track)); [|reflexivity].
  unfold rips.
  now destruct (snd (run which (cmd_of track) (OutputType_value MSG)
                       (spawn (cmd_of track)))).
Qed.

(** X24: in the automatic mode the flag a track had is overwritten: a track is
    ripped exactly when its length lies between MINLENGTH and MAXLENGTH, both
    included.  When every rip succeeds, the commands run are those of the
    tracks in range, in track order, each naming the track number and the
    raw path last. *)
Theorem auto_mode_rips_by_length (tracks : list Track) :
  (forall track, In track tracks ->
                 auto_process minlength maxlength track = true ->
                 rips which spawn (cmd_of track) = true) ->
  tracks_loop "auto" tracks
  = (map (decided' "auto") tracks,
     map cmd_of (filter (auto_process minlength maxlength) tracks),
     Returned)
  /\ Forall (fun track =>
               trk_process (decided' "auto" track) = true
               <-> minlength <= trk_length track <= maxlength) tracks.
Proof.
  intros Hok. split.
  - induction tracks as [|track rest IH]; [reflexivity|].
    rewrite tracks_loop_cons. cbn [map filter].
    change (trk_process (decided' "auto" track))
      with (auto_process minlength maxlength track).
    destruct (auto_process minlength maxlength track) eqn:Hauto.
    + rewrite (Hok track (or_introl eq_refl) Hauto).
      rewrite IH by (intros t Ht; apply Hok; now right). reflexivity.
    + rewrite IH by (intros t Ht; apply Hok; now right). reflexivity.
  - apply Forall_forall. intros track _.
    change (trk_process (decided' "auto" track))
      with (auto_process minlength maxlength track).
    unfold auto_process.
    destruct (Z.ltb_spec (trk_length track) minlength);
      [split; [discriminate|lia]|].
    destruct (Z.gtb_spec (trk_length track) maxlength);
      [split; [discriminate|lia]|].
    split; [lia|reflexivity].
Qed.

(** X25: the first rip that fails ends the loop with its exception: the tracks
    after it keep their flags, even in the automatic mode, and no command is
    run for them. *)
Theorem single_tracks_stop_at_failure (mode : string)
        (before after : list Track) (track : Track) :
  (forall t, In t before -> trk_process (decided' mode t) = true ->
             rips which spawn (cmd_of t) = true) ->
  trk_process (decided' mode track) = true ->
  rips which spawn (cmd_of track) = false ->
  tracks_loop mode (before ++ track :: after)
  = ((map (decided' mode) before ++ decided' mode track :: after)%list,
     (map cmd_of
          (filter (fun t => trk_process (decided' mode t)) before)
        ++ [cmd_of track])%list,
     snd (run which (cmd_of track) (OutputType_value MSG)
            (spawn (cmd_of track))))
  /\ exists e,
      snd (run which (cmd_of track) (OutputType_value MSG)
             (spawn (cmd_of track))) = Raised e.
Proof.
  intros Hok Hrip Hfail. split.
  - induction before as [|t rest IH]; cbn [app map filter].
    + rewrite tracks_loop_cons, Hrip, Hfail. reflexivity.
    + rewrite tracks_loop_cons.
      destruct (trk_process (decided' mode t)) eqn:Ht.
      * rewrite (Hok t (or_introl eq_refl) Ht).
        rewrite IH by (intros u Hu; apply Hok; now right). reflexivity.
      * rewrite IH by (intros u Hu; apply Hok; now right). reflexivity.
  - revert Hfail. unfold rips.
    destruct (snd (run which (cmd_of track) (OutputType_value MSG)
                     (spawn (cmd_of track)))) as [|e];
      [discriminate|]. now exists e.
Qed.

(** X26: in any mode but the automatic one the flags are left as the user set
    them, however the loop ends, and only tracks flagged for processing get
    a command. *)
Theorem other_modes_keep_flags (mode : string) (tracks : list Track) :
  mode <> "auto" ->
  fst (fst (tracks_loop mode tracks)) = tracks
  /\ Forall (fun cmd => exists t, In t tracks /\ trk_process t = true
                                  /\ cmd = cmd_of t)
            (snd (fst (tracks_loop mode tracks))).
Proof.
  intros Hmode. apply String.eqb_neq in Hmode.
  assert (Hdec : forall t, decided' mode t = t)
    by (intros t; unfold decided; now rewrite Hmode).
  induction tracks as [|track rest [IHt IHc]]; [split; [reflexivity|constructor]|].
  rewrite tracks_loop_cons, Hdec.
  assert (Hrest : Forall (fun cmd => exists t, In t (track :: rest)
                                     /\ trk_process t = true
                                     /\ cmd = cmd_of t)
                    (snd (fst (tracks_loop mode rest)))).
  { eapply Forall_impl; [|exact IHc].
    intros cmd (t & Hin & Hp & Hc). exists t. split; [now right|now split]. }
  destruct (tracks_loop mode rest) as [[tracks' cmds] ending].
  cbn [fst snd] in *.
  destruct (trk_process track) eqn:Hp.
  - assert (Hhere : exists t, In t (track :: rest) /\ trk_process t = true
                              /\ cmd_of track = cmd_of t)
      by (exists track; split; [now left|now split]).
    destruct (rips which spawn (cmd_of track)); cbn [fst snd].
    + split; [now rewrite IHt|]. now constructor.
    + split; [reflexivity|]. constructor; [exact Hhere|constructor].
  - cbn [fst snd]. split; [now rewrite IHt|exact Hrest].
Qed.

End SingleTracks.

Lemma auto_mode_rips_by_length_witness :
  process_single_tracks None ["-r"] "/log/p.log" "/dev/sr0" 120 3600
    (fun _ => {| stdout := []; exit_status := 0 |}) "/raw" "auto"
    example_tracks
  = (map (decided 120 3600 "auto") example_tracks,
     [["mkv"; "-r"; "--progress=/log/p.log"; "dev:/dev/sr0"; "1"; "/raw"]],
     Returned).
Proof.
  apply (auto_mode_rips_by_length None ["-r"] "/log/p.log" "/dev/sr0" 120 3600
           (fun _ => {| stdout := []; exit_status := 0 |}) "/raw"
           example_tracks).
  intros track _ _. reflexivity.
Defined.

Lemma single_tracks_stop_at_failure_witness :
  process_single_tracks None [] "/log/p.log" "/dev/sr0" 0 9999
    example_spawn "/raw" "manual"
    (map (decided 0 9999 "auto") example_tracks)
  = (map (decided 0 9999 "auto") example_tracks,
     [["mkv"; "--progress=/log/p.log"; "dev:/dev/sr0"; "0"; "/raw"];
      ["mkv"; "--progress=/log/p.log"; "dev:/dev/sr0"; "1"; "/raw"];
      ["mkv"; "--progress=/log/p.log"; "dev:/dev/sr0"; "2"; "/raw"]],
     Raised (MakeMkvRuntimeError 1
               ["/usr/local/bin/makemkvcon"; "--robot"; "--messages=-stdout";
                "mkv"; "--progress=/log/p.log"; "dev:/dev/sr0"; "2"; "/raw"]
               "")).
Proof.
  apply (single_tracks_stop_at_failure None [] "/log/p.log" "/dev/sr0" 0 9999
           example_spawn "/raw" "manual"
           (firstn 2 (map (decided 0 9999 "auto") example_tracks)) []
           (decided 0 9999 "auto"
              {| trk_track_number := "2"; trk_length := 7200;
                 trk_filename := "c.mkv"; trk_process := false |})).
  - intros t [<-|[<-|[]]] _; reflexivity.
  - reflexivity.
  - reflexivity.
Defined.

Lemma other_modes_keep_flags_witness :
  fst (fst (process_single_tracks None [] "/log/p.log" "/dev/sr0" 120 3600
              example_spawn "/raw" "manual" example_tracks))
  = example_tracks.
Proof.
  apply (other_modes_keep_flags None [] "/log/p.log" "/dev/sr0" 120 3600
           example_spawn "/raw" "manual" example_tracks).
  discriminate.
Defined.


(** ** The progress log and the raw path *)

Lemma uint_chars_safe (d : Decimal.uint) :
  all_chars shlex_safe (NilEmpty.string_of_uint d) = true
  /\ prefix "/" (NilEmpty.string_of_uint d ++ ".log") = false.
Proof.
  split.
  - induction d; cbn [NilEmpty.string_of_uint all_chars];
      [reflexivity|rewrite IHd; reflexivity..].
  - destruct d; reflexivity.
Qed.

Lemma format_d_safe (z : Z) :
  all_chars shlex_safe (format_d z) = true
  /\ prefix "/" (format_d z ++ ".log") = false.
Proof.
  unfold format_d, NilZero.string_of_int, NilZero.string_of_uint.
  destruct (Z.to_int z) as [d|d].
  - destruct d; try (split; reflexivity); apply uint_chars_safe.
  - split; [|reflexivity]. cbn [all_chars].
    destruct d; try reflexivity; apply uint_chars_safe.
Qed.

Lemma last_is_app (p : ascii -> bool) (a : string) (c : ascii) (b : string) :
  last_is p (a ++ String c b) = last_is p (String c b).
Proof.
  induction a as [|x a IH]; [reflexivity|].
  cbn [append]. rewrite <- IH. cbn [last_is].
  now destruct (a ++ String c b) eqn:H; [destruct a; discriminate|].
Qed.

Lemma eqb_app_nonempty (a : string) (c : ascii) (b : string) :
  String.eqb (a ++ String c b) "" = false.
Proof. now destruct a. Qed.

(** X27: the progress log is [LOGPATH/progress/<job_id>.log].  It comes back
    as it is when LOGPATH has only letters, digits and [_@%+=:,./-];
    otherwise (a space is enough) it comes back between single quotes, and
    since the commands are run as argument lists, not through a shell, the
    quotes are part of the [--progress=] argument the tool receives. *)
Theorem progress_log_quoting (LOGPATH : string) (job_id : Z)
        (which : option string) (mkv_args : list string)
        (devpath rawpath : string) (track : Track) :
  let logfile :=
    LOGPATH
    ++ (if String.eqb LOGPATH "" || last_is (Ascii.eqb "/") LOGPATH
        then "" else "/")
    ++ "progress/" ++ format_d job_id ++ ".log" in
  let progress := snd (progress_log LOGPATH job_id) in
  progress = (if all_chars shlex_safe LOGPATH then logfile
              else "'" ++ escape_squotes logfile ++ "'")
  /\ In (String.append "--progress=" progress)
        (command which
           (single_track_cmd mkv_args progress devpath track rawpath)).
Proof.
  destruct (format_d_safe job_id) as [Hsafe Hfirst].
  cbv zeta. split;
    [|unfold command, single_track_cmd; do 3 (apply in_or_app; right);
      now left].
  unfold progress_log. cbn [snd].
  set (sep := if String.eqb LOGPATH "" || last_is (Ascii.eqb "/") LOGPATH
              then "" else "/").
  assert (Hdir : os_path_join LOGPATH "progress" = LOGPATH ++ sep ++ "progress").
  { unfold os_path_join, sep.
    change (prefix "/" "progress") with false. cbv iota.
    now destruct (String.eqb LOGPATH "" || last_is (Ascii.eqb "/") LOGPATH). }
  assert (Hfile : os_path_join (LOGPATH ++ sep ++ "progress")
                    (format_d job_id ++ ".log")
                  = LOGPATH ++ sep ++ "progress/" ++ format_d job_id ++ ".log").
  { unfold os_path_join. rewrite Hfirst.
    replace (LOGPATH ++ sep ++ "progress")
      with ((LOGPATH ++ sep ++ "progres") ++ "s")
      by (now rewrite !append_assoc).
    rewrite eqb_app_nonempty, last_is_app. cbn [orb last_is Ascii.eqb].
    change (Ascii.eqb "/" "s") with false. cbv iota.
    now rewrite !append_assoc. }
  rewrite Hdir, Hfile. unfold shlex_quote.
  replace (LOGPATH ++ sep ++ "progress/" ++ format_d job_id ++ ".log")
    with ((LOGPATH ++ sep ++ "progress/" ++ format_d job_id ++ ".lo") ++ "g")
    at 1 by (now rewrite !append_assoc).
  rewrite eqb_app_nonempty.
  rewrite !all_chars_app, Hsafe.
  assert (Hsep : all_chars shlex_safe sep = true)
    by (unfold sep;
        now destruct (String.eqb LOGPATH "" || last_is (Ascii.eqb "/") LOGPATH)).
  rewrite Hsep.
  change (all_chars shlex_safe "progress/") with true.
  change (all_chars shlex_safe ".log") with true.
  rewrite !andb_true_r. reflexivity.
Qed.

(** X28: [setup_rawpath] raises OSError only when the path exists already and
    the path with the stage stamp cannot be created.  A new path that cannot
    be created is only logged as an error and returned all the same.  The
    stamped path is built from RAW_PATH and the title, whatever path was
    passed in. *)
Theorem setup_rawpath_outcomes (path_exists can_create : string -> bool)
        (RAW_PATH title stage raw_path : string) :
  let result :=
    setup_rawpath path_exists can_create RAW_PATH title stage raw_path in
  let stamped := os_path_join RAW_PATH (title ++ "_" ++ stage) in
  ((exists err, snd result = path_OSError err)
   <-> path_exists raw_path = true /\ can_create stamped = false)
  /\ (path_exists raw_path = false ->
      snd result = path_returned raw_path
      /\ snd (fst result) = [raw_path]
      /\ (In (ERROR, cannot_create raw_path) (fst (fst result))
          <-> can_create raw_path = false))
  /\ (path_exists raw_path = true ->
      snd (fst result) = [stamped]
      /\ (can_create stamped = true -> snd result = path_returned stamped)).
Proof.
  cbv zeta. unfold setup_rawpath.
  destruct (path_exists raw_path); cbn [negb].
  - destruct (can_create (os_path_join RAW_PATH (title ++ "_" ++ stage)));
      cbn [fst snd].
    + split; [|split]; [|discriminate|now split].
      split; [intros [err H]; discriminate|intros [_ H]; discriminate].
    + split; [|split]; [|discriminate|split; [reflexivity|discriminate]].
      split; [now split|]. intros _. eexists. reflexivity.
  - destruct (can_create raw_path) eqn:Hc; cbn [fst snd].
    + split; [|split]; [| |discriminate].
      * split; [intros [err H]; discriminate|intros [H _]; discriminate].
      * intros _. split; [reflexivity|]. split; [reflexivity|].
        split; [|discriminate].
        intros [H|[]]. discriminate.
    + split; [|split]; [| |discriminate].
      * split; [intros [err H]; discriminate|intros [H _]; discriminate].
      * intros _. split; [reflexivity|]. split; [reflexivity|].
        split; [reflexivity|]. intros _. right. now left.
Qed.

Lemma setup_rawpath_outcomes_witness :
  snd (setup_rawpath (fun _ => false) (fun _ => false) "/raw" "Film" "17"
         "/raw/Film")
  = path_returned "/raw/Film"
  /\ snd (setup_rawpath (String.eqb "/raw/Film") (fun _ => true) "/raw" "Film"
            "17" "/raw/Film")
     = path_returned "/raw/Film_17".
Proof.
  split.
  - apply (setup_rawpath_outcomes (fun _ => false) (fun _ => false) "/raw"
             "Film" "17" "/raw/Film").
    reflexivity.
  - apply (setup_rawpath_outcomes (String.eqb "/raw/Film") (fun _ => true)
             "/raw" "Film" "17" "/raw/Film"); reflexivity.
Defined.
